(** * GSTable: a shallow embedding of GSTable.js

    GSTable.js binds the properties of a class to the columns of a Google
    Sheets tab.  This development embeds the class in Rocq and checks the
    statements of its specification against the embedding.

    Modelling conventions.
    - A JavaScript value is a [value]: the primitives, [Date] objects, the
      object literals built by [GSTable.COLUMN()] and instances of [GSTable]
      (sub)classes.  Numbers are integers; as a property key a number
      prints its digits while a double holds it exactly, below 2^53 in
      absolute value, and past that as the engine decides.
    - An object keeps its own properties in creation order, which is the order
      [Object.getOwnPropertyNames] reports for names that are not array
      indices.  Property lookup consults own properties only: the members an
      instance inherits from its prototypes are not part of the model, and
      every property holds an object of its own (no two properties alias).
    - Code that mutates [this] runs in a state made of the instance and the
      script's environment; an exception leaves the state as it was when it
      was thrown.
    - The spreadsheet, the clock, [Math.random] and the session are the
      script's environment, the record [world]. *)

From Stdlib Require Import ZArith QArith Qround String Ascii List Lia DecimalString.
From stdpp Require Import base gmap strings list.
From Equations Require Import Equations.

Local Open Scope Z_scope.

(** ** Values *)

#[warnings="-register-all"] Inductive value : Type :=
| VUndefined
| VNull
| VBool (b : bool)
| VNum (n : Z)
| VStr (s : string)
| VDate (t : Z)
| VCol (_value : value) (_type : string) (_required : bool) (_class : option class)
| VEnt (ctor : class) (own : list (string * value))
with class : Type :=
| MkClass (name : string) (declared : list (string * value)).

(** Own properties of an object, in creation order. *)
Abbreviation object := (list (string * value)).

(** A sheet's cells: rows of cells, the header row first. *)
Abbreviation grid := (list (list value)).

Definition class_name (c : class) : string :=
  match c with MkClass name _ => name end.

Definition class_declared (c : class) : object :=
  match c with MkClass _ declared => declared end.

(** What the engine decides and the source does not: how an object prints
    when it is used as a property key, how a number prints that is past
    the integers a double holds exactly, and how a string converts to a
    number. *)
Class Engine : Type := {
  object_to_string : value -> string;
  number_to_string : Z -> string;
  string_to_number : string -> option Z
}.

(** [ToBoolean]. *)
Definition truthy (v : value) : bool :=
  match v with
  | VUndefined | VNull => false
  | VBool b => b
  | VNum n => negb (n =? 0)
  | VStr s => negb (String.eqb s "")
  | VDate _ | VCol _ _ _ _ | VEnt _ _ => true
  end.

(** [a || b]. *)
Definition or_else (a b : value) : value := if truthy a then a else b.

(** [a === b]; two objects are never the same reference here. *)
Definition strict_eq (a b : value) : bool :=
  match a, b with
  | VUndefined, VUndefined => true
  | VNull, VNull => true
  | VBool x, VBool y => Bool.eqb x y
  | VNum x, VNum y => x =? y
  | VStr x, VStr y => String.eqb x y
  | _, _ => false
  end.

(** Objects are compared by reference. *)
Definition is_reference (v : value) : bool :=
  match v with
  | VDate _ | VCol _ _ _ _ | VEnt _ _ => true
  | _ => false
  end.

Section Conversions.
Context `{Engine}.

(** [ToPropertyKey]: the name under which [o[v]] looks. *)
Definition to_key (v : value) : string :=
  match v with
  | VUndefined => "undefined"
  | VNull => "null"
  | VBool true => "true"
  | VBool false => "false"
  | VNum n =>
      if Z.abs n <? 2 ^ 53 then NilZero.string_of_int (Z.to_int n) else number_to_string n
  | VStr s => s
  | VCol _ _ _ _ => "[object Object]"
  | VDate _ | VEnt _ _ => object_to_string v
  end.

(** [ToNumber]; [None] is NaN. *)
Definition to_number (v : value) : option Z :=
  match v with
  | VUndefined => None
  | VNull => Some 0
  | VBool b => Some (if b then 1 else 0)
  | VNum n => Some n
  | VStr s => string_to_number s
  | VDate t => Some t
  | VCol _ _ _ _ | VEnt _ _ => None
  end.

(** [v > 0]. *)
Definition gt_zero (v : value) : bool :=
  match to_number v with
  | Some n => 0 <? n
  | None => false
  end.
End Conversions.

(** ** Arrays and objects *)

(** [o[k]] on own properties. *)
Fixpoint get (o : object) (k : string) : value :=
  match o with
  | [] => VUndefined
  | (k', v) :: o' => if String.eqb k' k then v else get o' k
  end.

(** [o[k] = v]: an existing property keeps its place, a new one goes last. *)
Fixpoint set (o : object) (k : string) (v : value) : object :=
  match o with
  | [] => [(k, v)]
  | (k', v') :: o' =>
      if String.eqb k' k then (k, v) :: o' else (k', v') :: set o' k v
  end.

(** [Object.getOwnPropertyNames(o)], also [Object.keys(o)]: the names in
    creation order, as for names that are not array indices. *)
Definition keys (o : object) : list string := map fst o.

(** [a.includes(x)] for an array of strings. *)
Definition includes (a : list string) (x : string) : bool :=
  existsb (String.eqb x) a.

(** [a.includes(x)] for an array of cells and a string. *)
Definition includes_str (a : list value) (x : string) : bool :=
  existsb (strict_eq (VStr x)) a.

(** First position of an equal element, as [indexOf] counts it. *)
Fixpoint index_from (i : Z) (a : list value) (x : value) : Z :=
  match a with
  | [] => -1
  | y :: a' => if strict_eq y x then i else index_from (i + 1) a' x
  end.

(** [a.indexOf(x)]. *)
Definition indexOf (a : list value) (x : value) : Z := index_from 0 a x.

(** [a[i]]. *)
Definition nth_cell (a : list value) (i : Z) : value :=
  if i <? 0 then VUndefined else default VUndefined (a !! Z.to_nat i).

(** [a[i] = v] on an array: in range the cell is replaced, past the end the
    array grows, and a negative [i] names a property that is no element. *)
Definition store_cell (a : list value) (i : Z) (v : value) : list value :=
  if i <? 0 then a
  else if (Z.to_nat i <? length a)%nat then <[Z.to_nat i := v]> a
  else a ++ replicate (Z.to_nat i - length a)%nat VUndefined ++ [v].

(** [a.indexOf(x)] for an [x] that is the element of [a] at position [p]: a
    reference finds itself, a primitive finds its first equal. *)
Definition indexOf_element (a : list value) (p : nat) (x : value) : Z :=
  if is_reference x then Z.of_nat p else indexOf a x.

(** [a.filter(keep)], each kept element with its position in [a]. *)
Definition filter_indexed (keep : value -> bool) (a : list value)
  : list (nat * value) :=
  List.filter (fun px => keep (snd px)) (imap (fun p x => (p, x)) a).

(** ** Exceptions and state *)

Inductive exn : Type :=
| TypeError
| Error (message : string)
| StoreFault.

Inductive outcome (A : Type) : Type :=
| Ok (a : A)
| Throw (e : exn).
Arguments Ok {A} a.
Arguments Throw {A} e.

(** A computation over a state [S]: it ends with a result or an exception,
    and the state it reached either way. *)
Definition M (S A : Type) : Type := S -> outcome A * S.

#[global] Instance M_ret {S} : MRet (M S) := fun A a s => (Ok a, s).

#[global] Instance M_bind {S} : MBind (M S) := fun A B k m s =>
  match m s with
  | (Ok a, s') => k a s'
  | (Throw e, s') => (Throw e, s')
  end.

Definition throw {S A} (e : exn) : M S A := fun s => (Throw e, s).

Definition of_outcome {S A} (r : outcome A) : M S A := fun s => (r, s).

(** The state as it is now. *)
Definition current {S} : M S S := fun s => (Ok s, s).

(** [a.forEach(x => body x)]. *)
Fixpoint forEach {S A} (body : A -> M S unit) (a : list A) : M S unit :=
  match a with
  | [] => mret tt
  | x :: a' => body x ≫= fun _ => forEach body a'
  end.

(** [a.map(x => f x)] for an [f] with effects. *)
Fixpoint mapM {S A B} (f : A -> M S B) (a : list A) : M S (list B) :=
  match a with
  | [] => mret []
  | x :: a' => y ← f x; ys ← mapM f a'; mret (y :: ys)
  end.

(** ** The script's environment *)

Record world : Type := World {
  spreadsheet : gmap string grid;   (* SpreadsheetApp.getActiveSpreadsheet() *)
  clock : nat -> Z;                 (* what the k-th [new Date()] reads *)
  ticks : nat;
  entropy : nat -> Q;               (* what the k-th [Math.random()] draws *)
  draws : nat;
  active_user : option string       (* Session.getActiveUser(): null, or the user's email *)
}.

Definition with_spreadsheet (ss : gmap string grid) (w : world) : world :=
  World ss (clock w) (ticks w) (entropy w) (draws w) (active_user w).

(** [new Date()]. *)
Definition new_Date : M world value := fun w =>
  (Ok (VDate (clock w (ticks w))),
   World (spreadsheet w) (clock w) (S (ticks w)) (entropy w) (draws w) (active_user w)).

(** [Math.random()]. *)
Definition Math_random : M world Q := fun w =>
  (Ok (entropy w (draws w)),
   World (spreadsheet w) (clock w) (ticks w) (entropy w) (S (draws w)) (active_user w)).

(** [Session.getActiveUser()]. *)
Definition getActiveUser : M world (option string) := fun w => (Ok (active_user w), w).

(** [Math.random] draws from the interval [0, 1). *)
Definition fair (w : world) : Prop :=
  forall k, (0 <= entropy w k)%Q /\ (entropy w k < 1)%Q.

(** ** The tabular store

    The sheets of the active spreadsheet, by name.  A sheet is its rows of
    cells; a cell that was never written reads as the empty string. *)
Module Sheet.

Definition blank : value := VStr "".

(** Exactly [n] cells of a row, blanks after its last cell. *)
Definition pad (n : nat) (row : list value) : list value :=
  take n (row ++ replicate n blank).

Definition lastRow (g : grid) : Z := Z.of_nat (length g).

Definition lastColumn (g : grid) : Z := Z.of_nat (max_list (length <$> g)).

(** A range needs a first row and column of at least 1 and at least one
    row and one column. *)
Definition valid_range (row column numRows numColumns : Z) : bool :=
  (1 <=? row) && (1 <=? column) && (1 <=? numRows) && (1 <=? numColumns).

(** What a one-row range reads. *)
Definition rowValues (g : grid) (row numColumns : Z) : list value :=
  pad (Z.to_nat numColumns) (default [] (g !! Z.to_nat (row - 1))).

(** Cells [vals] written into a row from 0-based column [c] on. *)
Definition overwrite (c : nat) (vals old : list value) : list value :=
  take c (old ++ replicate c blank) ++ vals ++ drop (c + length vals) old.

(** What writing a one-row range leaves. *)
Definition withRowValues (g : grid) (row column : Z) (vals : list value) : grid :=
  let r := Z.to_nat (row - 1) in
  let g' := g ++ replicate (S r - length g) [] in
  <[r := overwrite (Z.to_nat (column - 1)) vals (default [] (g' !! r))]> g'.

(** What [getDataRange().getValues()] reads: the rectangle of all content,
    and one blank cell for a sheet without content. *)
Definition dataValues (g : grid) : grid :=
  if (lastRow g =? 0) || (lastColumn g =? 0) then [[blank]]
  else pad (Z.to_nat (lastColumn g)) <$> g.

(** The operations of the store, on the sheet named [sheet]. *)

Definition cells (sheet : string) : M world grid := fun w =>
  match spreadsheet w !! sheet with
  | Some g => (Ok g, w)
  | None => (Throw StoreFault, w)
  end.

Definition put (sheet : string) (g : grid) : M world unit := fun w =>
  (Ok tt, with_spreadsheet (<[sheet := g]> (spreadsheet w)) w).

(** [ss.getSheetByName(name)]: the sheet, or null. *)
Definition getSheetByName (name : string) : M world (option string) := fun w =>
  (Ok (match spreadsheet w !! name with Some _ => Some name | None => None end), w).

(** [ss.insertSheet(name)]. *)
Definition insertSheet (name : string) : M world string := fun w =>
  match spreadsheet w !! name with
  | Some _ => (Throw StoreFault, w)
  | None => (Ok name, with_spreadsheet (<[name := []]> (spreadsheet w)) w)
  end.

Definition getLastRow (sheet : string) : M world Z :=
  g ← cells sheet; mret (lastRow g).

Definition getLastColumn (sheet : string) : M world Z :=
  g ← cells sheet; mret (lastColumn g).

(** [sheet.appendRow(row)]. *)
Definition appendRow (sheet : string) (row : list value) : M world unit :=
  g ← cells sheet; put sheet (g ++ [row]).

(** [sheet.getRange(row, 1, 1, numColumns).getValues()[0]]. *)
Definition getRowValues (sheet : string) (row numColumns : Z) : M world (list value) :=
  g ← cells sheet;
  if valid_range row 1 1 numColumns then mret (rowValues g row numColumns)
  else throw StoreFault.

(** [sheet.getRange(row, column, 1, numColumns).setValues([vals])]: the
    data must fill the range. *)
Definition setRowValues (sheet : string) (row column numColumns : Z)
    (vals : list value) : M world unit :=
  g ← cells sheet;
  if valid_range row column 1 numColumns && (Z.of_nat (length vals) =? numColumns)
  then put sheet (withRowValues g row column vals)
  else throw StoreFault.

(** [sheet.deleteColumn(columnPosition)]: the columns to its right move
    one place to the left. *)
Definition deleteColumn (sheet : string) (columnPosition : Z) : M world unit :=
  g ← cells sheet;
  if 1 <=? columnPosition
  then put sheet (delete (Z.to_nat (columnPosition - 1)) <$> g)
  else throw StoreFault.

(** [sheet.getRange(row, 1, 1, numColumns).deleteCells(Dimension.ROWS)]
    for a range as wide as the content: the rows below move up. *)
Definition deleteRowCells (sheet : string) (row numColumns : Z) : M world unit :=
  g ← cells sheet;
  if valid_range row 1 1 numColumns
  then put sheet (delete (Z.to_nat (row - 1)) g)
  else throw StoreFault.

(** [sheet.getDataRange().getValues()]. *)
Definition getDataRangeValues (sheet : string) : M world grid :=
  g ← cells sheet; mret (dataValues g).

(** [SpreadsheetApp.flush()]. *)
Definition flush : M world unit := mret tt.

End Sheet.

(** ** Members of a value *)

(** [v._value]. *)
Definition dot_value (v : value) : outcome value :=
  match v with
  | VUndefined | VNull => Throw TypeError
  | VCol x _ _ _ => Ok x
  | VEnt _ own => Ok (get own "_value")
  | VBool _ | VNum _ | VStr _ | VDate _ => Ok VUndefined
  end.

(** [v._required]. *)
Definition dot_required (v : value) : outcome value :=
  match v with
  | VUndefined | VNull => Throw TypeError
  | VCol _ _ required _ => Ok (VBool required)
  | VEnt _ own => Ok (get own "_required")
  | VBool _ | VNum _ | VStr _ | VDate _ => Ok VUndefined
  end.

(** [v._value = x], in strict code: what [v] is afterwards.  A [Date] takes
    the property, which the model does not keep. *)
Definition with_value (v x : value) : outcome value :=
  match v with
  | VCol _ ty required cls => Ok (VCol x ty required cls)
  | VEnt c own => Ok (VEnt c (set own "_value" x))
  | VDate t => Ok (VDate t)
  | VUndefined | VNull | VBool _ | VNum _ | VStr _ => Throw TypeError
  end.

(** [Object.keys(v)]. *)
Definition Object_keys (v : value) : outcome (list string) :=
  match v with
  | VUndefined | VNull => Throw TypeError
  | VBool _ | VNum _ | VDate _ => Ok []
  | VStr s =>
      Ok ((fun i => NilZero.string_of_int (Z.to_int (Z.of_nat i))) <$> seq 0 (String.length s))
  | VCol _ _ _ cls =>
      Ok (["_value"; "_type"; "_required"]
            ++ match cls with Some _ => ["_class"] | None => [] end)
  | VEnt _ own => Ok (keys own)
  end.

#[global] Instance outcome_ret : MRet outcome := fun A a => Ok a.

#[global] Instance outcome_bind : MBind outcome := fun A B k r =>
  match r with
  | Ok a => k a
  | Throw e => Throw e
  end.

(** A loop that carries an accumulator and may throw. *)
Fixpoint foldM {S A B} (step : B -> A -> M S B) (a : list A) (acc : B) : M S B :=
  match a with
  | [] => mret acc
  | x :: a' => acc' ← step acc x; foldM step a' acc'
  end.

(** The state of a method call: the instance it runs on and the environment. *)
Record frame : Type := Frame { this : object; env : world }.

(** A static call made from a method. *)
Definition lift {A} (m : M world A) : M frame A := fun f =>
  let (r, w) := m (env f) in (r, Frame (this f) w).

(** [this[k]], among the properties of the instance itself; the statements
    that read a property the instance may lack keep to names it does not
    inherit a member under ([inherited_members]). *)
Definition read (k : string) : M frame value := fun f => (Ok (get (this f) k), f).

(** [this[k] = v]. *)
Definition write (k : string) (v : value) : M frame unit := fun f =>
  (Ok tt, Frame (set (this f) k v) (env f)).

(** [this[k]._value]. *)
Definition read_value (k : string) : M frame value :=
  v ← read k; of_outcome (dot_value v).

(** [this[k]._value = x]. *)
Definition assign_value (k : string) (x : value) : M frame unit :=
  v ← read k; v' ← of_outcome (with_value v x); write k v'.

(** ** Column definitions: [GSTable.COLUMN()] *)
Module COLUMN.

(** A parameter [required = true]. *)
Definition required_or_true (required : option bool) : bool := default true required.

Definition DATE (v : value) (required : option bool) : value :=
  VCol (or_else v (VStr "")) "date" (required_or_true required) None.

Definition TIME (v : value) (required : option bool) : value :=
  VCol (or_else v (VStr "")) "time" (required_or_true required) None.

Definition STRING (v : value) (required : option bool) : value :=
  VCol (or_else v (VStr "")) "str" (required_or_true required) None.

Definition NUMBER (v : value) (required : option bool) : value :=
  VCol (or_else v (VNum 0)) "number" (required_or_true required) None.

Definition BOOLEAN (v : value) (required : option bool) : value :=
  VCol (or_else v (VBool false)) "bool" (required_or_true required) None.

Definition FOREIGNKEY (v : value) (class_name : class) (required : option bool) : value :=
  VCol (or_else v (VStr "")) "fk" (required_or_true required) (Some class_name).

End COLUMN.

(** ** The class [GSTable]: static methods *)

(** A keyed object read from a row of cells; [r !! k] is [None] where
    [r[k]] is undefined. *)
Abbreviation record := (gmap string value).

(** [r[k]]. *)
Definition field (r : record) (k : string) : value := default VUndefined (r !! k).

(** A method body run on the object [o]: its result and what [o] has become. *)
Definition with_this {A} (o : object) (m : M frame A) : M world (A * object) := fun w =>
  let (r, f) := m (Frame o w) in
  (match r with Ok a => Ok (a, this f) | Throw e => Throw e end, env f).

(** [GSTable.isColumn(propertyInfo = {})]. *)
Definition isColumn (propertyInfo : value) : outcome bool :=
  match propertyInfo with
  | VUndefined => Ok false
  | _ =>
      keys ← Object_keys propertyInfo;
      if (length keys =? 0)%nat then Ok false
      else
        let diff := List.filter (fun prop => negb (includes keys prop))
                                ["_value"; "_type"; "_required"] in
        Ok (length diff =? 0)%nat
  end.

(** The constructor of [GSTable], called without arguments. *)
Definition GSTable_constructor : M world object :=
  let id := VStr "" in
  let row_number := VNum 0 in
  created ← new_Date;
  modified ← new_Date;
  let created_by := VStr "" in
  let last_modified_by := VStr "" in
  mret [("id", COLUMN.STRING id None);
        ("row_number", row_number);
        ("created", COLUMN.DATE created None);
        ("modified", COLUMN.DATE modified None);
        ("created_by", COLUMN.STRING created_by None);
        ("last_modified_by", COLUMN.STRING last_modified_by None)].

(** [new this()] in a static method of the class [c]: the constructor of a
    subclass calls [super()] and then assigns what the class declares. *)
Definition new_instance (c : class) : M world object :=
  base ← GSTable_constructor;
  mret (foldl (fun o kv => set o (fst kv) (snd kv)) base (class_declared c)).

(** [class_props.includes(n)] for a header cell [n]. *)
Definition includes_cell (a : list string) (n : value) : bool :=
  match n with
  | VStr s => includes a s
  | _ => false
  end.

(** The names of the properties of a blank instance that are columns. *)
Definition column_names (emptyObj : object) : outcome (list string) :=
  foldr (fun prop rest =>
           b ← isColumn (get emptyObj prop); names ← rest;
           mret (if b : bool then prop :: names else names))
        (Ok []) (keys emptyObj).

(** [static getTableInfo()], on the class [c].  The sheet it returns is the
    sheet's name. *)
Definition getTableInfo (c : class) : M world (string * list value) :=
  emptyObj ← new_instance c;
  class_props ← of_outcome (column_names emptyObj);
  let sheet_name := class_name c in
  found ← Sheet.getSheetByName sheet_name;
  match found with
  | None =>
      sheet ← Sheet.insertSheet sheet_name;
      Sheet.appendRow sheet (VStr <$> class_props);;
      let headers := VStr <$> class_props in
      Sheet.flush;;
      mret (sheet, headers)
  | Some sheet =>
      lastColumn ← Sheet.getLastColumn sheet;
      headers ← Sheet.getRowValues sheet 1 lastColumn;
      let new_props := List.filter (fun n => negb (includes_str headers n)) class_props in
      (if (0 <? length new_props)%nat then
         lastColumn ← Sheet.getLastColumn sheet;
         Sheet.setRowValues sheet 1 (lastColumn + 1) (Z.of_nat (length new_props))
                            (VStr <$> new_props)
       else mret tt);;
      let columns_to_delete :=
        filter_indexed (fun n => negb (includes_cell class_props n)) headers in
      (if (0 <? length columns_to_delete)%nat then
         forEach (fun column =>
                    let column_index := indexOf_element headers (fst column) (snd column) + 1 in
                    Sheet.deleteColumn sheet column_index)
                 columns_to_delete
       else mret tt);;
      (* headers.concat(new_props) builds an array that nothing keeps *)
      Sheet.flush;;
      mret (sheet, headers)
  end.

(** [s.charAt(i)]: the empty string outside the string. *)
Definition charAt (s : string) (i : Z) : string :=
  if i <? 0 then ""
  else match String.get (Z.to_nat i) s with
       | Some ch => String ch EmptyString
       | None => ""
       end.

Definition characters : string :=
  "ABCDEFGHIJKLMNOPQRSTUVWXYZabcdefghijklmnopqrstuvwxyz0123456789".

Definition charactersLength : Z := Z.of_nat (String.length characters).

(** The loop of [generateId]: [while (counter < length) { ... }]. *)
Equations? generateId_loop (len counter : Z) (result : string) (w : world)
  : outcome string * world by wf (Z.to_nat (len - counter)) lt :=
generateId_loop len counter result w with Z_lt_dec counter len := {
  | left _ =>
      match Math_random w with
      | (Ok r, w') =>
          generateId_loop len (counter + 1)
            (result +:+ charAt characters (Qfloor (r * inject_Z charactersLength))) w'
      | (Throw e, w') => (Throw e, w')
      end
  | right _ => (Ok result, w) }.
Proof. lia. Qed.

(** [static generateId(length)]. *)
Definition generateId (length : Z) : M world string :=
  if length <=? 0 then throw (Error "Length must be greater than 0")
  else generateId_loop length 0 "".

Section Statics.
Context `{Engine}.

(** [data[headers[index]] = cell]; the record keeps the cell under every
    key, whereas under [__proto__] the assignment reaches the setter of
    [Object.prototype] and leaves no property. *)
Definition assign_cell (headers : list value) (data : record) (ic : Z * value) : record :=
  <[to_key (nth_cell headers (fst ic)) := snd ic]> data.

(** The object built from the row at position [row_id] of the data. *)
Definition row_object (headers : list value) (row_id : nat) (row : list value) : record :=
  let data : record := {[ "row_number" := VNum (Z.of_nat row_id + 2) ]} in
  foldl (assign_cell headers) data (imap (fun index cell => (Z.of_nat index, cell)) row).

(** [a.shift()]. *)
Definition shift : M grid (option (list value)) := fun a =>
  match a with
  | [] => (Ok None, [])
  | first :: rest => (Ok (Some first), rest)
  end.

(** [static fromRawDataToArrayOfObject(rawData = [])]; the state is the
    array the caller passed. *)
Definition fromRawDataToArrayOfObject : M grid (list record) :=
  headers ← shift;
  rawData ← current;
  mret (imap (row_object (default [] headers)) rawData).

(** [static fromJson(rawObject)]. *)
Definition fromJson (c : class) (rawObject : record) : M world object :=
  dummyObj ← new_instance c;
  let properties := keys dummyObj in
  filled ← with_this dummyObj
    (forEach (fun property =>
                p ← read property;
                b ← of_outcome (isColumn p);
                if b : bool then assign_value property (field rawObject property)
                else write property (field rawObject property))
             properties);
  mret (snd filled).

(** [static findAll()]. *)
Definition findAll (c : class) : M world (list object) :=
  info ← getTableInfo c;
  values ← Sheet.getDataRangeValues (fst info);
  rawArray ← of_outcome (fst (fromRawDataToArrayOfObject values));
  mapM (fromJson c) rawArray.

(** [a.find(entity => entity.id._value === id)]: the first match, or
    undefined. *)
Fixpoint find_id (c : class) (id : value) (a : list object) : outcome value :=
  match a with
  | [] => Ok VUndefined
  | entity :: a' =>
      v ← dot_value (get entity "id");
      if strict_eq v id then Ok (VEnt c entity) else find_id c id a'
  end.

(** [static findById(id)]. *)
Definition findById (c : class) (id : value) : M world value :=
  all ← findAll c; of_outcome (find_id c id all).

(** A value of a conditions object: a function, or anything else. *)
Inductive condition : Type :=
| Predicate (f : value -> value)
| Plain (v : value).

(** [condition_keys.every(key => ...)] for one entity. *)
Definition meets (conditions : gmap string condition) (condition_keys : list string)
    (entity : object) : bool :=
  forallb (fun key =>
             match conditions !! key with
             | Some (Predicate f) => truthy (f (get entity key))
             | _ => true
             end)
          condition_keys.

(** [static filterByConsitions(conditions)]. *)
Definition filterByConsitions (c : class) (conditions : gmap string condition)
  : M world (list object) :=
  let condition_keys := fst <$> map_to_list conditions in
  if (length condition_keys =? 0)%nat then mret []
  else all ← findAll c; mret (List.filter (meets conditions condition_keys) all).
End Statics.

(** ** The class [GSTable]: methods of an instance

    A method of an instance of the class [c] is a computation over a [frame];
    [this.constructor] is [c]. *)
Section Methods.
Context `{Engine}.

(** [setValue(key, value)]. *)
Definition setValue (key : string) (v : value) : M frame unit :=
  assign_value key v.

(** [getValue(key)]. *)
Definition getValue (key : string) : M frame value :=
  read_value key.

(** [getUpdateArray()]. *)
Definition getUpdateArray (c : class) : M frame (list value) :=
  info ← lift (getTableInfo c);
  let headers := snd info in
  foldM (fun updateArray header =>
           propertyInfo ← read (to_key header);
           b ← of_outcome (isColumn propertyInfo);
           if b : bool then
             v ← of_outcome (dot_value propertyInfo);
             mret (updateArray ++ [v])
           else mret updateArray)
        headers [].

(** [typeof element === "undefined" || element === ""]. *)
Definition unset (element : value) : bool :=
  match element with
  | VUndefined => true
  | _ => strict_eq element (VStr "")
  end.

(** [checkRequired(headers, updateArray)]. *)
Definition checkRequired (headers updateArray : list value) : M frame (list value) :=
  foldM (fun wrongs ih =>
           let header := snd ih in
           let element := nth_cell updateArray (fst ih) in
           p ← read (to_key header);
           required ← of_outcome (dot_required p);
           mret (if truthy required && unset element then wrongs ++ [header] else wrongs))
        (imap (fun i header => (Z.of_nat i, header)) headers) [].

(** [a.join(separator)]: undefined and null print as nothing. *)
Definition join (separator : string) (a : list value) : string :=
  String.concat separator
    ((fun x => match x with VUndefined | VNull => "" | _ => to_key x end) <$> a).

(** The message of the error that [persist] throws. *)
Definition required_message (wrongs : list value) : string :=
  "'" +:+ join "', '" wrongs +:+ "' are marked as 'required'".

(** [persist()]. *)
Definition persist (c : class) : M frame unit :=
  info ← lift (getTableInfo c);
  let sheet := fst info in
  let headers := snd info in
  now ← lift new_Date;
  assign_value "modified" now;;
  active_user ← lift getActiveUser;
  match active_user with
  | Some email => assign_value "last_modified_by" (VStr email)
  | None => mret tt
  end;;
  updateArray ← getUpdateArray c;
  id ← read_value "id";
  (if strict_eq id (VStr "") then
     new_id ← lift (generateId 8);
     created ← read_value "modified";
     created_by ← read_value "last_modified_by";
     let newEntityProps :=
       [("id", VStr new_id); ("created", created); ("created_by", created_by)] in
     updateArray ←
       foldM (fun updateArray prop =>
                let pos := indexOf headers (VStr (fst prop)) in
                assign_value (fst prop) (snd prop);;
                mret (store_cell updateArray pos (snd prop)))
             newEntityProps updateArray;
     wrongs ← checkRequired headers updateArray;
     if (0 <? length wrongs)%nat then throw (Error (required_message wrongs))
     else
       lift (Sheet.appendRow sheet updateArray);;
       lastRow ← lift (Sheet.getLastRow sheet);
       write "row_number" (VNum lastRow)
   else
     row_number ← read "row_number";
     if gt_zero row_number then
       wrongs ← checkRequired headers updateArray;
       if (0 <? length wrongs)%nat then throw (Error (required_message wrongs))
       else
         lastColumn ← lift (Sheet.getLastColumn sheet);
         match to_number row_number with
         | Some row => lift (Sheet.setRowValues sheet row 1 lastColumn updateArray)
         | None => throw StoreFault
         end
     else mret tt);;
  lift Sheet.flush.

(** [remove()]. *)
Definition remove (c : class) : M frame unit :=
  row_number ← read "row_number";
  if strict_eq row_number (VNum 0) then mret tt
  else
    info ← lift (getTableInfo c);
    let sheet := fst info in
    lastColumn ← lift (Sheet.getLastColumn sheet);
    match to_number row_number with
    | Some row => lift (Sheet.deleteRowCells sheet row lastColumn)
    | None => throw StoreFault
    end;;
    write "row_number" (VNum 0);;
    lift Sheet.flush.

(** [propertyInfo.hasOwnProperty("_class")] and the class it holds. *)
Definition own_class (propertyInfo : value) : option (outcome class) :=
  match propertyInfo with
  | VCol _ _ _ (Some cls) => Some (Ok cls)
  | VEnt _ own => if includes (keys own) "_class" then Some (Throw TypeError) else None
  | _ => None
  end.

(** [expand()]. *)
Definition expand : M frame unit :=
  properties ← (fun f => (Ok (keys (this f)), f));
  forEach (fun prop =>
             propertyInfo ← read prop;
             b ← of_outcome (isColumn propertyInfo);
             match (if b : bool then own_class propertyInfo else None) with
             | Some cls =>
                 cls ← of_outcome cls;
                 v ← of_outcome (dot_value propertyInfo);
                 found ← lift (findById cls v);
                 write (prop +:+ "_") found
             | None => mret tt
             end)
          properties.
End Methods.

(** ** [toSimpleOjbect] and [objectExtension]

    What [toSimpleOjbect] builds: an object literal whose properties hold
    values of columns or, for a property that holds an instance, the
    simplified instance. *)
#[warnings="-register-all"] Inductive simple : Type :=
| Value_of_column (v : value)
| Simplified (properties : list (string * simple)).

(** [plainObj[k] = v] on the object being built. *)
Fixpoint store (plainObj : list (string * simple)) (k : string) (v : simple)
  : list (string * simple) :=
  match plainObj with
  | [] => [(k, v)]
  | (k', v') :: rest =>
      if String.eqb k' k then (k, v) :: rest else (k', v') :: store rest k v
  end.

(** [objectExtension(simpleObject, extendWith = null)], as [GSTable] has it. *)
Definition objectExtension (simpleObject : list (string * simple)) (extendWith : value)
  : list (string * simple) :=
  simpleObject.

(** [this.toSimpleOjbect(extendWith)].  The loop visits each own property
    with the value it holds; every instance is an instance of [GSTable]. *)
Fixpoint toSimpleOjbect_of (this : value) (extendWith : value)
  : outcome (list (string * simple)) :=
  match this with
  | VEnt _ own =>
      (fix each (properties : object) (plainObj : list (string * simple))
         {struct properties} : outcome (list (string * simple)) :=
         match properties with
         | [] => Ok (objectExtension plainObj extendWith)
         | (property, propertyInfo) :: rest =>
             b ← isColumn propertyInfo;
             if b : bool then
               v ← dot_value propertyInfo;
               each rest (store plainObj property (Value_of_column v))
             else
               match propertyInfo with
               | VEnt _ _ =>
                   nested ← toSimpleOjbect_of propertyInfo VNull;
                   each rest (store plainObj property (Simplified nested))
               | _ => each rest plainObj
               end
         end) own []
  | _ => Throw TypeError
  end.

(** [toSimpleOjbect(extendWith = null)] on an instance of the class [c]. *)
Definition toSimpleOjbect (c : class) (this : object) (extendWith : value)
  : outcome (list (string * simple)) :=
  toSimpleOjbect_of (VEnt c this) extendWith.

(** ** What the statements below speak of *)

(** Membership in [A-Za-z0-9]. *)
Definition alnum (ch : ascii) : bool :=
  let n := nat_of_ascii ch in
  ((65 <=? n) && (n <=? 90) || (97 <=? n) && (n <=? 122) || (48 <=? n) && (n <=? 57))%nat.

Definition all_alnum (s : string) : bool := forallb alnum (list_ascii_of_string s).

(** The instance [new this()] builds when the clock reads [created] and
    then [modified]. *)
Definition blank (c : class) (created modified : value) : object :=
  foldl (fun o kv => set o (fst kv) (snd kv))
        [("id", COLUMN.STRING (VStr "") None);
         ("row_number", VNum 0);
         ("created", COLUMN.DATE created None);
         ("modified", COLUMN.DATE modified None);
         ("created_by", COLUMN.STRING (VStr "") None);
         ("last_modified_by", COLUMN.STRING (VStr "") None)]
        (class_declared c).

(** The class [c] has the columns [props], in the order of its properties. *)
Definition declares (c : class) (props : list string) : Prop :=
  column_names (blank c (VDate 0) (VDate 0)) = Ok props.

(** The header row of the class's sheet is [props]. *)
Definition in_step (c : class) (props : list string) (ss : gmap string grid) : Prop :=
  exists g, ss !! class_name c = Some g
            /\ Sheet.rowValues g 1 (Sheet.lastColumn g) = VStr <$> props.

(** The class has no sheet yet, or one whose header row is [props]. *)
Definition ready (c : class) (props : list string) (ss : gmap string grid) : Prop :=
  declares c props /\ props <> [] /\ (ss !! class_name c = None \/ in_step c props ss).

(** The spreadsheet once the class has its sheet. *)
Definition synchronized (c : class) (props : list string) (ss : gmap string grid)
  : gmap string grid :=
  match ss !! class_name c with
  | Some _ => ss
  | None => <[class_name c := [VStr <$> props]]> ss
  end.

(** The environment after [n] more readings of the clock. *)
Definition later (n : nat) (w : world) : world :=
  World (spreadsheet w) (clock w) (n + ticks w) (entropy w) (draws w) (active_user w).

(** Two objects with the same property names whose values are columns in
    the same places. *)
Definition alike (o1 o2 : object) : Prop :=
  Forall2 (fun p q => fst p = fst q /\ isColumn (snd p) = isColumn (snd q)) o1 o2.

(** [o[k]._value], and undefined where that throws. *)
Definition value_of (o : object) (k : string) : value :=
  match dot_value (get o k) with
  | Ok v => v
  | Throw _ => VUndefined
  end.

(** Whether [o[k]._required] is truthy. *)
Definition required_of (o : object) (k : string) : bool :=
  match dot_required (get o k) with
  | Ok v => truthy v
  | Throw _ => false
  end.

(** A value built by one of the [COLUMN] factories. *)
Definition is_column (v : value) : Prop :=
  exists x ty required cls, v = VCol x ty required cls.

(** The columns the constructor of [GSTable] gives every instance. *)
Definition implicit_columns : list string :=
  ["id"; "created"; "modified"; "created_by"; "last_modified_by"].

(** An instance that still holds a column under each implicit column's name
    and under each of the names [props]. *)
Definition instance_ok (props : list string) (o : object) : Prop :=
  forall k, In k (implicit_columns ++ props) -> is_column (get o k).

(** The headers among [props] whose column is required and holds undefined
    or the empty string. *)
Definition missing_required (props : list string) (o : object) : list string :=
  List.filter (fun h => required_of o h && unset (value_of o h)) props.

(** The object [o] after [o[k]._value = x]. *)
Definition set_value (o : object) (k : string) (x : value) : object :=
  match with_value (get o k) x with
  | Ok v' => set o k v'
  | Throw _ => o
  end.

(** The instance once [persist] has stamped it: at the time [now], for the
    active user [user]. *)
Definition stamped (o : object) (now : value) (user : option string) : object :=
  let o := set_value o "modified" now in
  match user with
  | Some email => set_value o "last_modified_by" (VStr email)
  | None => o
  end.

(** The stamped instance once [persist] has given it the identifier
    [new_id] and the stamps of its creation. *)
Definition identified (o : object) (new_id : string) : object :=
  let created := value_of o "modified" in
  let created_by := value_of o "last_modified_by" in
  set_value (set_value (set_value o "id" (VStr new_id)) "created" created)
            "created_by" created_by.

(** The names the constructor of [GSTable] assigns. *)
Definition constructor_names : list string :=
  ["id"; "row_number"; "created"; "modified"; "created_by"; "last_modified_by"].

(** Whether a declared value is a column. *)
Definition declared_column (kv : string * value) : bool :=
  match isColumn (snd kv) with
  | Ok true => true
  | _ => false
  end.

(** The columns a class declares itself, in the order it declares them. *)
Definition declared_columns (c : class) : list string :=
  fst <$> List.filter declared_column (class_declared c).

(** Whether a character is a decimal digit. *)
Definition digit (ch : ascii) : bool :=
  let n := nat_of_ascii ch in ((48 <=? n) && (n <=? 57))%nat.

(** Whether a name is written with decimal digits only, as every array
    index is. *)
Definition numeric_name (k : string) : bool :=
  negb (String.eqb k "") && forallb digit (list_ascii_of_string k).

(** The names of the members an instance inherits: the methods of
    [GSTable.prototype] and the members of [Object.prototype].  Under such
    a name [this[k]] finds the inherited member when the instance has no
    property of its own.  A class of the model declares properties and no
    methods of its own. *)
Definition inherited_members : list string :=
  ["constructor"; "setValue"; "getValue"; "getUpdateArray"; "checkRequired"; "persist";
   "remove"; "expand"; "toSimpleOjbect"; "objectExtension"; "toString"; "print";
   "hasOwnProperty"; "isPrototypeOf"; "propertyIsEnumerable"; "toLocaleString"; "valueOf";
   "__defineGetter__"; "__defineSetter__"; "__lookupGetter__"; "__lookupSetter__";
   "__proto__"].

(** A name under which a class declares a property to no other effect
    than a new own property, listed after the ones before it: not an array
    index, which [Object.getOwnPropertyNames] lists first whenever it was
    created, and not the name of an inherited member, such as [__proto__],
    which the setter of [Object.prototype] takes, or [constructor], where
    [getTableInfo] reads the name of the class. *)
Definition ordinary_name (k : string) : bool :=
  negb (numeric_name k) && negb (includes inherited_members k).

(** A class that declares each property once, under an ordinary name that
    is none of those the constructor of [GSTable] assigns, and none as
    null. *)
Definition plain_class (c : class) : Prop :=
  NoDup (keys (class_declared c))
  /\ (forall k, k ∈ keys (class_declared c) -> k ∉ constructor_names)
  /\ (forall kv, kv ∈ class_declared c -> snd kv <> VNull)
  /\ (forall k, k ∈ keys (class_declared c) -> ordinary_name k = true).

Section Keys.
Context `{Engine}.

(** The key of the column at position [j] of a row read under [headers]. *)
Definition key_at (headers : list value) (j : nat) : string :=
  to_key (nth_cell headers (Z.of_nat j)).

End Keys.

(** An exception that is no [Error]: a [TypeError] or a fault of the store. *)
Definition fault (e : exn) : Prop :=
  match e with
  | Error _ => False
  | TypeError | StoreFault => True
  end.

(** A result that is no thrown [Error]. *)
Definition calm {A} (r : outcome A) : Prop :=
  match r with
  | Ok _ => True
  | Throw e => fault e
  end.

(** A computation that never throws an [Error]. *)
Definition quiet {S A} (m : M S A) : Prop :=
  forall s, calm (fst (m s)).

(** A computation that leaves the state as it is. *)
Definition reads_only {S A} (m : M S A) : Prop :=
  forall s, snd (m s) = s.

(** A computation on the environment that touches the spreadsheet only. *)
Definition steady {A} (m : M world A) : Prop :=
  forall w, snd (m w) = with_spreadsheet (spreadsheet (snd (m w))) w.

(** ** What the further statements speak of *)

(** Whether an instance holds the three members of a column among its own
    properties. *)
Definition holds_members (own : object) : bool :=
  includes (keys own) "_value" && includes (keys own) "_type"
  && includes (keys own) "_required".

(** A value that has members to read: anything but undefined and null. *)
Definition has_members (v : value) : bool :=
  match v with
  | VUndefined | VNull => false
  | _ => true
  end.

(** What [fromJson] leaves under a property that held [p], for the raw
    value [x]: a column takes [x] as its value, anything else is replaced
    by [x]. *)
Definition filled (p x : value) : value :=
  match isColumn p with
  | Ok true => match with_value p x with Ok p' => p' | Throw _ => p end
  | _ => x
  end.

(** The instance once the loop of [fromJson] has visited [property]. *)
Definition fill (rawObject : record) (o : object) (property : string) : object :=
  set o property (filled (get o property) (field rawObject property)).

Section Reports.
Context `{Engine}.

(** Whether [checkRequired] reports the header at position [i]. *)
Definition reported (o : object) (updateArray : list value) (ih : Z * value) : bool :=
  required_of o (to_key (snd ih)) && unset (nth_cell updateArray (fst ih)).
End Reports.

(** Whether the instance holds a column under the name [k]. *)
Definition holds_column (o : object) (k : string) : bool :=
  match isColumn (get o k) with
  | Ok true => true
  | _ => false
  end.

(** A property that [expand] passes over: it is not null, and it is no
    column that holds a [_class]. *)
Definition passed_over (p : value) : Prop :=
  p <> VNull /\ (isColumn p = Ok true -> own_class p = None).

(** A property that is neither null nor an instance. *)
Definition flat (v : value) : bool :=
  match v with
  | VNull | VEnt _ _ => false
  | _ => true
  end.

(** A computation that leaves every sheet but the one named [name] as it
    is; [sheets] reads the spreadsheet off the state. *)
Definition confined {S A} (sheets : S -> gmap string grid) (name : string) (m : M S A)
  : Prop :=
  forall s n, n <> name -> sheets (snd (m s)) !! n = sheets s !! n.

(** The spreadsheet a method call runs in. *)
Definition sheets_of (f : frame) : gmap string grid := spreadsheet (env f).

(** ** Sample classes and spreadsheets *)
Module Example.

(** An engine that prints every object alike and every number by its
    digits, and reads only the empty string as a number. *)
Definition engine : Engine :=
  {| object_to_string := fun _ => "[object Object]";
     number_to_string := fun n => NilZero.string_of_int (Z.to_int n);
     string_to_number := fun s => if String.eqb s "" then Some 0 else None |}.

(** [class Item extends GSTable] with the columns [name] and [quantity],
    as the constructor called without arguments declares them. *)
Definition Item : class :=
  MkClass "Item" [("name", COLUMN.STRING VUndefined None);
                ("quantity", COLUMN.NUMBER VUndefined None)].

(** [new Item(name, quantity)]. *)
Definition new_Item (name quantity : value) : M world object :=
  base ← GSTable_constructor;
  mret (set (set base "name" (COLUMN.STRING name None))
            "quantity" (COLUMN.NUMBER quantity None)).

(** [class Order extends GSTable] with a foreign key [item] to [Item]. *)
Definition Order : class :=
  MkClass "Order" [("item", COLUMN.FOREIGNKEY VUndefined Item None)].

(** [new Order(item)]. *)
Definition new_Order (item : value) : M world object :=
  base ← GSTable_constructor;
  mret (set base "item" (COLUMN.FOREIGNKEY item Item None)).

(** A spreadsheet without sheets; the clock reads 1000, 1001, ... and
    [Math.random] draws 1/2 every time. *)
Definition empty (user : option string) : world :=
  World ∅ (fun k => 1000 + Z.of_nat k) 0 (fun _ => 1 # 2) 0 user.

(** [var item = new Item(name, quantity)] and then [body] on [item]. *)
Definition on_Item {A} (name quantity : value) (body : M frame A) (w : world)
  : outcome A * frame :=
  match new_Item name quantity w with
  | (Ok item, w') => body (Frame item w')
  | (Throw e, w') => (Throw e, Frame [] w')
  end.

Definition user : option string := Some "ada@example.org".

(** The state after [var item = new Item("", 5)]. *)
Definition unnamed : frame :=
  snd (on_Item (VStr "") (VNum 5) (mret tt) (empty user)).

(** The header row of the sheet of [Item]. *)
Definition Item_columns : list string :=
  ["id"; "created"; "modified"; "created_by"; "last_modified_by"; "name"; "quantity"].

(** The state after [item.persist(); item.remove()]. *)
Definition removed : frame :=
  snd (on_Item (VStr "widget") (VNum 5)
               (@persist engine Item;; @remove engine Item) (empty user)).

(** The state after [item.persist(); item.remove(); item.setValue("name", "")]. *)
Definition removed_unnamed : frame :=
  snd (on_Item (VStr "widget") (VNum 5)
               (@persist engine Item;; @remove engine Item;; setValue "name" (VStr ""))
               (empty user)).

(** The spreadsheet after one item was persisted. *)
Definition stocked : world :=
  env (snd (on_Item (VStr "widget") (VNum 5) (@persist engine Item) (empty user))).

Definition implicit_headers : list value :=
  [VStr "id"; VStr "created"; VStr "modified"; VStr "created_by"; VStr "last_modified_by"].

(** A sheet of [Item] laid out before the class had the columns [name]
    and [quantity]. *)
Definition outdated : world :=
  World {[ "Item" := [implicit_headers;
                      [VStr "q7"; VDate 10; VDate 10; VStr "ada"; VStr "ada"]] ]}
        (fun k => 1000 + Z.of_nat k) 0 (fun _ => 1 # 2) 0 user.

(** A sheet of [Item] that still has two columns the class dropped. *)
Definition legacy : world :=
  World {[ "Item" := [[VStr "colour"; VStr "size"] ++ implicit_headers
                        ++ [VStr "name"; VStr "quantity"];
                      [VStr "red"; VStr "XL"; VStr "q7"; VDate 10; VDate 10;
                       VStr "ada"; VStr "ada"; VStr "widget"; VNum 5]] ]}
        (fun k => 1000 + Z.of_nat k) 0 (fun _ => 1 # 2) 0 user.

(** The state after [var item = new Item("widget", 5)]. *)
Definition widget : frame :=
  snd (on_Item (VStr "widget") (VNum 5) (mret tt) (empty user)).

(** The state after [item.persist()]. *)
Definition persisted : frame :=
  snd (on_Item (VStr "widget") (VNum 5) (@persist engine Item) (empty user)).

(** The rows of the sheet of [Item] after that: the header row and the row
    of the item. *)
Definition Item_rows : grid :=
  default [] (spreadsheet (env persisted) !! "Item").

(** The state after [var order = new Order("ffffffff")], the identifier of
    the stored item, in the spreadsheet that holds the item. *)
Definition order : frame :=
  let (r, w) := new_Order (VStr "ffffffff") stocked in
  Frame (match r with Ok o => o | Throw _ => [] end) w.

(** A sheet of [Item] that still has the column [colour] the class dropped. *)
Definition faded : world :=
  World {[ "Item" := [implicit_headers ++ [VStr "name"; VStr "colour"; VStr "quantity"];
                      [VStr "q7"; VDate 10; VDate 10; VStr "ada"; VStr "ada";
                       VStr "widget"; VStr "red"; VNum 5]] ]}
        (fun k => 1000 + Z.of_nat k) 0 (fun _ => 1 # 2) 0 user.

End Example.

(** * Proofs *)

Lemma floor_in_range (r : Q) :
  (0 <= r)%Q -> (r < 1)%Q -> 0 <= Qfloor (r * inject_Z charactersLength) < charactersLength.
Proof.
  intros H0 H1. change charactersLength with 62. split.
  - change 0 with (Qfloor (inject_Z 0)) at 1. apply Qfloor_resp_le.
    change (inject_Z 0) with (0 * inject_Z 62)%Q.
    apply Qmult_le_compat_r; [exact H0 | discriminate].
  - rewrite Zlt_Qlt. eapply Qle_lt_trans; [apply Qfloor_le |].
    change (inject_Z 62) with (1 * inject_Z 62)%Q at 2.
    apply Qmult_lt_compat_r; [reflexivity | exact H1].
Qed.

Lemma charAt_characters (i : Z) :
  0 <= i < charactersLength ->
  exists ch, charAt characters i = String ch EmptyString /\ alnum ch = true.
Proof.
  intros Hi.
  assert (Hall : forallb (fun k => match charAt characters (Z.of_nat k) with
                                   | String ch EmptyString => alnum ch
                                   | _ => false end) (seq 0 62) = true) by (vm_compute; reflexivity).
  rewrite forallb_forall in Hall.
  specialize (Hall (Z.to_nat i)).
  rewrite Z2Nat.id in Hall by lia.
  assert (Hin : In (Z.to_nat i) (seq 0 62)).
  { apply in_seq. change charactersLength with 62 in Hi. lia. }
  specialize (Hall Hin).
  destruct (charAt characters i) as [|ch [|]]; try discriminate. eauto.
Qed.

Lemma all_alnum_app s ch :
  all_alnum s = true -> alnum ch = true -> all_alnum (s +:+ String ch EmptyString) = true.
Proof.
  unfold all_alnum. induction s as [|a s IH]; simpl; intros Hs Hc.
  - rewrite Hc. reflexivity.
  - apply andb_prop in Hs as [Ha Hs]. rewrite Ha. simpl. apply IH; assumption.
Qed.

Lemma length_app_char s ch : String.length (s +:+ String ch EmptyString) = S (String.length s).
Proof. induction s; simpl; congruence. Qed.

Lemma generateId_loop_runs (k : nat) :
  forall len counter result w,
    Z.to_nat (len - counter) = k -> fair w -> all_alnum result = true ->
    exists s w', generateId_loop len counter result w = (Ok s, w')
                 /\ String.length s = (String.length result + k)%nat
                 /\ all_alnum s = true /\ fair w' /\ spreadsheet w' = spreadsheet w.
Proof.
  induction k as [|k IH]; intros len counter result w Hk Hf Hr.
  - rewrite generateId_loop_equation_1.
    destruct (Z_lt_dec counter len) as [Hlt|Hge]; [lia |].
    cbn [generateId_loop_unfold_clause_1].
    exists result, w. rewrite Nat.add_0_r. auto.
  - rewrite generateId_loop_equation_1.
    destruct (Z_lt_dec counter len) as [Hlt|Hge]; [| lia].
    cbn [generateId_loop_unfold_clause_1]. unfold Math_random.
    destruct (Hf (draws w)) as [H0 H1].
    destruct (charAt_characters _ (floor_in_range _ H0 H1)) as (ch & Hch & Hal).
    rewrite Hch.
    edestruct (IH len (counter + 1) (result +:+ String ch EmptyString)) as (s & w' & Hrun & Hlen & Hs & Hf' & Hss);
      [lia | | apply all_alnum_app; eassumption | ].
    2:{ exists s, w'. rewrite Hrun. split; [reflexivity|]. rewrite Hlen, length_app_char.
        split; [lia|]. split; [assumption|]. split; [assumption|]. rewrite Hss. reflexivity. }
    intros j. apply Hf.
Qed.

(** The string [generateId] returns depends on the draws alone. *)
Lemma generateId_loop_same_draws (k : nat) :
  forall len counter result w1 w2,
    Z.to_nat (len - counter) = k ->
    entropy w1 = entropy w2 -> draws w1 = draws w2 ->
    fst (generateId_loop len counter result w1) = fst (generateId_loop len counter result w2).
Proof.
  induction k as [|k IH]; intros len counter result w1 w2 Hk He Hd.
  - rewrite !generateId_loop_equation_1.
    destruct (Z_lt_dec counter len) as [Hlt|Hge]; [lia | reflexivity].
  - rewrite !generateId_loop_equation_1.
    destruct (Z_lt_dec counter len) as [Hlt|Hge]; [| lia].
    cbn [generateId_loop_unfold_clause_1]. unfold Math_random. rewrite He, Hd.
    apply IH; [lia | reflexivity | reflexivity].
Qed.

(** [generateId] ends, whatever [Math.random] draws. *)
Lemma generateId_loop_ends (k : nat) :
  forall len counter result w,
    Z.to_nat (len - counter) = k ->
    exists s w', generateId_loop len counter result w = (Ok s, w')
                 /\ spreadsheet w' = spreadsheet w.
Proof.
  induction k as [|k IH]; intros len counter result w Hk.
  - rewrite generateId_loop_equation_1.
    destruct (Z_lt_dec counter len) as [Hlt|Hge]; [lia |].
    cbn [generateId_loop_unfold_clause_1]. eauto.
  - rewrite generateId_loop_equation_1.
    destruct (Z_lt_dec counter len) as [Hlt|Hge]; [| lia].
    cbn [generateId_loop_unfold_clause_1]. unfold Math_random.
    edestruct (IH len (counter + 1)) as (s & w' & Hrun & Hss); [lia |].
    rewrite Hrun. exists s, w'. split; [reflexivity | rewrite Hss; reflexivity].
Qed.


(** *** Running a computation step by step *)

Lemma bind_run {S A B} (m : M S A) (k : A -> M S B) s a s' :
  m s = (Ok a, s') -> (m ≫= k) s = k a s'.
Proof. intros Hm. unfold mbind, M_bind. rewrite Hm. reflexivity. Qed.

Lemma bind_throw {S A B} (m : M S A) (k : A -> M S B) s e s' :
  m s = (Throw e, s') -> (m ≫= k) s = (Throw e, s').
Proof. intros Hm. unfold mbind, M_bind. rewrite Hm. reflexivity. Qed.

Lemma new_instance_run c w :
  new_instance c w =
  (Ok (blank c (VDate (clock w (ticks w))) (VDate (clock w (S (ticks w))))), later 2 w).
Proof. reflexivity. Qed.

(** *** The columns of a class do not depend on the clock *)

Lemma alike_set o1 o2 k v : alike o1 o2 -> alike (set o1 k v) (set o2 k v).
Proof.
  induction 1 as [|[k1 v1] [k2 v2] o1 o2 [Hk Hv] Ho IH]; simpl in *.
  - constructor; [split; reflexivity | constructor].
  - subst k2. destruct (String.eqb k1 k).
    + constructor; [split; reflexivity | assumption].
    + constructor; [split; [reflexivity | assumption] | assumption].
Qed.

Lemma alike_get o1 o2 k : alike o1 o2 -> isColumn (get o1 k) = isColumn (get o2 k).
Proof.
  induction 1 as [|[k1 v1] [k2 v2] o1 o2 [Hk Hv] Ho IH]; simpl in *; [reflexivity |].
  subst k2. destruct (String.eqb k1 k); assumption.
Qed.

Lemma alike_keys o1 o2 : alike o1 o2 -> keys o1 = keys o2.
Proof.
  induction 1 as [|[k1 v1] [k2 v2] o1 o2 [Hk Hv] Ho IH]; [reflexivity |].
  unfold keys in *. simpl in *. rewrite IH, Hk. reflexivity.
Qed.

Lemma alike_foldl d : forall o1 o2,
  alike o1 o2 ->
  alike (foldl (fun o kv => set o (fst kv) (snd kv)) o1 d)
        (foldl (fun o kv => set o (fst kv) (snd kv)) o2 d).
Proof.
  induction d as [|kv d IH]; intros o1 o2 Ho; simpl; [assumption |].
  apply IH, alike_set, Ho.
Qed.

Lemma column_names_alike o1 o2 : alike o1 o2 -> column_names o1 = column_names o2.
Proof.
  intros Ho. unfold column_names. rewrite (alike_keys _ _ Ho).
  induction (keys o2) as [|k ks IH]; simpl; [reflexivity |].
  rewrite (alike_get _ _ k Ho), IH. reflexivity.
Qed.

Lemma column_names_blank c t1 t2 props :
  declares c props -> column_names (blank c (VDate t1) (VDate t2)) = Ok props.
Proof.
  intros Hd. rewrite <- Hd. apply column_names_alike, alike_foldl.
  repeat (constructor; [split; reflexivity |]). constructor.
Qed.

Lemma of_outcome_run {S A} (r : outcome A) (s : S) : of_outcome r s = (r, s).
Proof. reflexivity. Qed.

Lemma pad_exact (row : list value) : Sheet.pad (length row) row = row.
Proof.
  unfold Sheet.pad. rewrite take_app_le by lia. apply firstn_all.
Qed.

Lemma getTableInfo_absent c props w :
  declares c props -> spreadsheet w !! class_name c = None ->
  getTableInfo c w =
  (Ok (class_name c, VStr <$> props),
   with_spreadsheet (<[class_name c := [VStr <$> props]]> (spreadsheet w)) (later 2 w)).
Proof.
  intros Hd Hnone. unfold getTableInfo.
  rewrite (bind_run _ _ _ _ _ (new_instance_run c w)).
  erewrite bind_run by (rewrite of_outcome_run, (column_names_blank _ _ _ _ Hd); reflexivity).
  erewrite bind_run by (unfold Sheet.getSheetByName; simpl; rewrite Hnone; reflexivity).
  unfold Sheet.insertSheet, Sheet.appendRow, Sheet.cells, Sheet.put, Sheet.flush,
    mbind, M_bind, mret, M_ret. simpl.
  rewrite Hnone. simpl. rewrite lookup_insert_eq. simpl.
  rewrite insert_insert_eq. reflexivity.
Qed.

Lemma includes_str_fmap props n : In n props -> includes_str (VStr <$> props) n = true.
Proof.
  intros Hin. unfold includes_str. apply existsb_exists. exists (VStr n). split.
  - apply in_map, Hin.
  - simpl. apply String.eqb_refl.
Qed.

Lemma includes_In props n : In n props -> includes props n = true.
Proof.
  intros Hin. unfold includes. apply existsb_exists. exists n. split; [assumption |].
  apply String.eqb_refl.
Qed.

Lemma filter_nil {A} (f : A -> bool) l : (forall x, In x l -> f x = false) -> List.filter f l = [].
Proof.
  induction l as [|x l IH]; simpl; intros Hf; [reflexivity |].
  rewrite (Hf x) by (left; reflexivity). apply IH. intros y Hy. apply Hf. right. exact Hy.
Qed.

Lemma getTableInfo_in_step c props w :
  declares c props -> props <> [] -> in_step c props (spreadsheet w) ->
  getTableInfo c w = (Ok (class_name c, VStr <$> props), later 2 w).
Proof.
  intros Hd Hne (g & Hg & Hrow). unfold getTableInfo.
  rewrite (bind_run _ _ _ _ _ (new_instance_run c w)).
  erewrite bind_run by (rewrite of_outcome_run, (column_names_blank _ _ _ _ Hd); reflexivity).
  erewrite bind_run by (unfold Sheet.getSheetByName; simpl; rewrite Hg; reflexivity).
  cbn beta iota.
  assert (Hcol : 1 <= Sheet.lastColumn g).
  { assert (Hlen : length (Sheet.rowValues g 1 (Sheet.lastColumn g)) = length props)
      by (rewrite Hrow; apply length_fmap).
    unfold Sheet.rowValues, Sheet.pad in Hlen. rewrite length_take in Hlen.
    destruct props; [congruence |]. simpl in Hlen. unfold Sheet.lastColumn in *. lia. }
  erewrite bind_run by (unfold Sheet.getLastColumn, Sheet.cells; simpl;
                        unfold mbind, M_bind; simpl; rewrite Hg; reflexivity).
  erewrite bind_run.
  2:{ unfold Sheet.getRowValues, Sheet.cells, mbind, M_bind. simpl. rewrite Hg.
      unfold Sheet.valid_range. replace (1 <=? Sheet.lastColumn g) with true by (symmetry; apply Z.leb_le; lia).
      simpl. rewrite Hrow. reflexivity. }
  rewrite (filter_nil _ props).
  2:{ intros n Hn. rewrite includes_str_fmap by assumption. reflexivity. }
  unfold filter_indexed. rewrite (filter_nil _ (imap _ _)).
  2:{ intros [p x] Hin. simpl. apply list_elem_of_In, elem_of_lookup_imap in Hin.
      destruct Hin as (i & y & Heq & Hy). inversion Heq; subst.
      rewrite list_lookup_fmap in Hy. destruct (props !! i) as [n|] eqn:Hn; [|discriminate].
      simpl in Hy. inversion Hy; subst. simpl. rewrite includes_In; [reflexivity |].
      apply list_elem_of_In. eapply list_elem_of_lookup_2. eassumption. }
  reflexivity.
Qed.

(** *** Properties of an object *)

Lemma get_set_eq o k v : get (set o k v) k = v.
Proof.
  induction o as [|[k' v'] o IH]; simpl.
  - rewrite String.eqb_refl. reflexivity.
  - destruct (String.eqb k' k) eqn:E; simpl.
    + rewrite String.eqb_refl. reflexivity.
    + rewrite E. exact IH.
Qed.

Lemma get_set_ne o k k' v : k <> k' -> get (set o k v) k' = get o k'.
Proof.
  intros Hne. induction o as [|[k0 v0] o IH]; simpl.
  - apply String.eqb_neq in Hne. rewrite Hne. reflexivity.
  - destruct (String.eqb k0 k) eqn:E; simpl.
    + apply String.eqb_eq in E. subst k0. apply String.eqb_neq in Hne. rewrite Hne. reflexivity.
    + destruct (String.eqb k0 k'); [reflexivity | exact IH].
Qed.

Lemma keys_set_elem o k v x : x ∈ keys (set o k v) -> x = k \/ x ∈ keys o.
Proof.
  unfold keys. induction o as [|[k' v'] o IH]; simpl; intros Hin.
  - apply list_elem_of_singleton in Hin. left. exact Hin.
  - destruct (String.eqb k' k) eqn:E; simpl in Hin.
    + apply String.eqb_eq in E. subst k'. right. exact Hin.
    + apply elem_of_cons in Hin as [->|Hin].
      * right. apply elem_of_cons. left. reflexivity.
      * destruct (IH Hin) as [->|Hx]; [left; reflexivity | right; apply elem_of_cons; right; exact Hx].
Qed.

Lemma keys_set_NoDup o k v : NoDup (keys o) -> NoDup (keys (set o k v)).
Proof.
  induction o as [|[k' v'] o IH]; simpl; intros Hnd.
  - apply NoDup_singleton.
  - unfold keys in Hnd. simpl in Hnd. apply NoDup_cons in Hnd as [Hnotin Hnd].
    destruct (String.eqb k' k) eqn:E.
    + apply String.eqb_eq in E. subst k'. unfold keys. simpl. apply NoDup_cons. split; assumption.
    + unfold keys. simpl. apply NoDup_cons. split; [| apply IH, Hnd].
      intros Hin. apply keys_set_elem in Hin as [->|Hin].
      * rewrite String.eqb_refl in E. discriminate.
      * apply Hnotin, Hin.
Qed.

Lemma keys_foldl_NoDup d : forall o,
  NoDup (keys o) -> NoDup (keys (foldl (fun o kv => set o (fst kv) (snd kv)) o d)).
Proof.
  induction d as [|kv d IH]; intros o Ho; simpl; [assumption |].
  apply IH, keys_set_NoDup, Ho.
Qed.

Lemma keys_blank_NoDup c a b : NoDup (keys (blank c a b)).
Proof.
  apply keys_foldl_NoDup. unfold keys. simpl.
  apply (bool_decide_unpack _). vm_compute. exact I.
Qed.

Lemma column_names_sublist o : forall ks props,
  foldr (fun prop rest =>
           b ← isColumn (get o prop); names ← rest;
           mret (if b : bool then prop :: names else names)) (Ok []) ks = Ok props ->
  sublist props ks.
Proof.
  induction ks as [|k ks IH]; simpl; intros props Hp.
  - inversion Hp. constructor.
  - destruct (isColumn (get o k)) as [b|e]; simpl in Hp; [| discriminate].
    match type of Hp with context [foldr ?f ?z ks] => destruct (foldr f z ks) as [names|e] eqn:E end;
      simpl in Hp; [| discriminate].
    inversion Hp; subst. destruct b.
    + apply sublist_skip, IH. reflexivity.
    + apply sublist_cons, IH. reflexivity.
Qed.

Lemma declares_NoDup c props : declares c props -> NoDup props.
Proof.
  intros Hd. eapply sublist_NoDup; [apply keys_blank_NoDup |].
  eapply column_names_sublist. exact Hd.
Qed.

(** *** Columns of an instance *)

Lemma isColumn_column v : is_column v -> isColumn v = Ok true.
Proof. intros (x & ty & rq & [cls|] & ->); reflexivity. Qed.

Lemma set_value_column o k x :
  is_column (get o k) ->
  exists v ty rq cls, get o k = VCol v ty rq cls /\ set_value o k x = set o k (VCol x ty rq cls).
Proof.
  intros (v & ty & rq & cls & Hk). exists v, ty, rq, cls. split; [assumption |].
  unfold set_value. rewrite Hk. reflexivity.
Qed.

Lemma get_set_value_ne o k k' x : k <> k' -> get (set_value o k x) k' = get o k'.
Proof.
  intros Hne. unfold set_value. destruct (with_value (get o k) x); [| reflexivity].
  apply get_set_ne, Hne.
Qed.

Lemma is_column_set_value o k k' x :
  is_column (get o k) -> is_column (get o k') -> is_column (get (set_value o k x) k').
Proof.
  intros Hk Hk'. destruct (String.eqb_spec k k') as [<-|Hne].
  - destruct (set_value_column o k x Hk) as (v & ty & rq & cls & _ & ->).
    rewrite get_set_eq. repeat eexists.
  - rewrite get_set_value_ne by assumption. exact Hk'.
Qed.

Lemma instance_ok_set_value props o k x :
  instance_ok props o -> is_column (get o k) -> instance_ok props (set_value o k x).
Proof. intros Ho Hk k' Hin. apply is_column_set_value; [assumption | apply Ho, Hin]. Qed.

Lemma value_of_set_value o k x h :
  is_column (get o k) ->
  value_of (set_value o k x) h = if String.eqb h k then x else value_of o h.
Proof.
  intros Hk. destruct (String.eqb_spec h k) as [->|Hne].
  - destruct (set_value_column o k x Hk) as (v & ty & rq & cls & _ & ->).
    unfold value_of. rewrite get_set_eq. reflexivity.
  - unfold value_of. rewrite get_set_value_ne by congruence. reflexivity.
Qed.

Lemma required_of_set_value o k x h :
  is_column (get o k) -> required_of (set_value o k x) h = required_of o h.
Proof.
  intros Hk. destruct (String.eqb_spec k h) as [<-|Hne].
  - destruct (set_value_column o k x Hk) as (v & ty & rq & cls & Hget & ->).
    unfold required_of. rewrite get_set_eq, Hget. reflexivity.
  - unfold required_of. rewrite get_set_value_ne by congruence. reflexivity.
Qed.

Lemma assign_value_run k x o w :
  is_column (get o k) -> assign_value k x (Frame o w) = (Ok tt, Frame (set_value o k x) w).
Proof.
  intros Hk. destruct (set_value_column o k x Hk) as (v & ty & rq & cls & Hget & ->).
  unfold assign_value, read, write, of_outcome, mbind, M_bind. simpl. rewrite Hget. reflexivity.
Qed.

Lemma read_value_run k o w :
  is_column (get o k) -> read_value k (Frame o w) = (Ok (value_of o k), Frame o w).
Proof.
  intros (v & ty & rq & cls & Hk).
  unfold read_value, read, of_outcome, mbind, M_bind, value_of. simpl. rewrite Hk. reflexivity.
Qed.

Lemma lift_run {A} (m : M world A) r o w w' :
  m w = (r, w') -> lift m (Frame o w) = (r, Frame o w').
Proof. intros Hm. unfold lift. simpl. rewrite Hm. reflexivity. Qed.

Section Rows.
Context `{Engine}.

Lemma getUpdateArray_loop o w : forall props acc,
  (forall k, In k props -> is_column (get o k)) ->
  foldM (fun updateArray header =>
           propertyInfo ← read (to_key header);
           b ← of_outcome (isColumn propertyInfo);
           if b : bool then
             v ← of_outcome (dot_value propertyInfo);
             mret (updateArray ++ [v])
           else mret updateArray)
        (VStr <$> props) acc (Frame o w)
  = (Ok (acc ++ (value_of o <$> props)), Frame o w).
Proof.
  induction props as [|k props IH]; intros acc Hcols; simpl.
  - rewrite app_nil_r. reflexivity.
  - assert (Hk : is_column (get o k)) by (apply Hcols; left; reflexivity).
    pose proof (isColumn_column _ Hk) as Hcol.
    destruct Hk as (v & ty & rq & cls & Hk).
    erewrite bind_run.
    2:{ unfold read, of_outcome, mbind, M_bind. simpl. rewrite Hcol, Hk. simpl. reflexivity. }
    rewrite IH by (intros k' Hk'; apply Hcols; right; exact Hk').
    rewrite <- app_assoc. simpl. unfold value_of. rewrite Hk. reflexivity.
Qed.

Lemma getUpdateArray_run c props o w :
  declares c props -> props <> [] -> in_step c props (spreadsheet w) ->
  (forall k, In k props -> is_column (get o k)) ->
  getUpdateArray c (Frame o w) = (Ok (value_of o <$> props), Frame o (later 2 w)).
Proof.
  intros Hd Hne Hstep Hcols. unfold getUpdateArray.
  rewrite (bind_run _ _ _ _ _ (lift_run _ _ o _ _ (getTableInfo_in_step _ _ _ Hd Hne Hstep))).
  simpl. apply (getUpdateArray_loop o (later 2 w) props []). exact Hcols.
Qed.
End Rows.

(** *** Positions in the header row *)

Lemma index_from_fmap k : forall props i,
  NoDup props ->
  (k ∉ props -> index_from i (VStr <$> props) (VStr k) = -1)
  /\ (forall p, props !! p = Some k -> index_from i (VStr <$> props) (VStr k) = i + Z.of_nat p).
Proof.
  induction props as [|y props IH]; intros i Hnd; simpl.
  - split; [reflexivity | intros p Hp; discriminate].
  - apply NoDup_cons in Hnd as [Hy Hnd]. destruct (String.eqb_spec y k) as [->|Hne].
    + split; [intros Hk; exfalso; apply Hk; left |].
      intros [|p] Hp; [simpl; lia |]. simpl in Hp. exfalso. apply Hy.
      eapply list_elem_of_lookup_2, Hp.
    + destruct (IH (i + 1) Hnd) as [IH1 IH2]. split.
      * intros Hk. apply IH1. intros Hin. apply Hk. right. exact Hin.
      * intros [|p] Hp; simpl in Hp; [congruence |].
        etrans; [exact (IH2 p Hp) | lia].
Qed.

Lemma store_cell_header (f : string -> value) props k x :
  NoDup props ->
  store_cell (f <$> props) (indexOf (VStr <$> props) (VStr k)) x
  = (fun h => if String.eqb h k then x else f h) <$> props.
Proof.
  intros Hnd. unfold indexOf. destruct (index_from_fmap k props 0 Hnd) as [Hout Hin].
  destruct (decide (k ∈ props)) as [Hk|Hk].
  - apply list_elem_of_lookup_1 in Hk as [p Hp]. rewrite (Hin p Hp). unfold store_cell.
    assert (Hlt : (p < length props)%nat) by (eapply lookup_lt_Some, Hp).
    destruct (Z.ltb_spec (0 + Z.of_nat p) 0) as [|_]; [lia |].
    replace (Z.to_nat (0 + Z.of_nat p)) with p by lia.
    rewrite length_fmap. destruct (Nat.ltb_spec p (length props)) as [_|]; [| lia].
    apply list_eq. intros j. destruct (decide (j = p)) as [->|Hj].
    + rewrite list_lookup_insert_eq by (rewrite length_fmap; exact Hlt).
      rewrite list_lookup_fmap, Hp. simpl. rewrite String.eqb_refl. reflexivity.
    + rewrite list_lookup_insert_ne by congruence. rewrite !list_lookup_fmap.
      destruct (props !! j) as [h|] eqn:Hh; [| reflexivity]. simpl.
      destruct (String.eqb_spec h k) as [->|_]; [| reflexivity].
      exfalso. apply Hj. eapply NoDup_lookup; eassumption.
  - rewrite (Hout Hk). unfold store_cell. simpl. apply list_eq. intros j.
    rewrite !list_lookup_fmap. destruct (props !! j) as [h|] eqn:Hh; [| reflexivity]. simpl.
    destruct (String.eqb_spec h k) as [->|_]; [| reflexivity].
    exfalso. apply Hk. eapply list_elem_of_lookup_2, Hh.
Qed.

Lemma row_set_value o k x props :
  NoDup props -> is_column (get o k) ->
  store_cell (value_of o <$> props) (indexOf (VStr <$> props) (VStr k)) x
  = value_of (set_value o k x) <$> props.
Proof.
  intros Hnd Hk. rewrite store_cell_header by assumption.
  apply list_fmap_ext. intros _ h _. symmetry. apply value_of_set_value, Hk.
Qed.

Lemma nth_cell_lookup (a : list value) (i : nat) v :
  a !! i = Some v -> nth_cell a (Z.of_nat i) = v.
Proof.
  intros Hi. unfold nth_cell. destruct (Z.ltb_spec (Z.of_nat i) 0) as [|_]; [lia |].
  rewrite Nat2Z.id, Hi. reflexivity.
Qed.

Section Validation.
Context `{Engine}.

Lemma checkRequired_loop o w row : forall props n acc,
  (forall k, In k props -> is_column (get o k)) ->
  (forall i h, props !! i = Some h -> nth_cell row (Z.of_nat (n + i)) = value_of o h) ->
  foldM (fun wrongs ih =>
           let header := snd ih in
           let element := nth_cell row (fst ih) in
           p ← read (to_key header);
           required ← of_outcome (dot_required p);
           mret (if truthy required && unset element then wrongs ++ [header] else wrongs))
        (imap (fun i header => (Z.of_nat (n + i), header)) (VStr <$> props)) acc (Frame o w)
  = (Ok (acc ++ (VStr <$> missing_required props o)), Frame o w).
Proof.
  induction props as [|k props IH]; intros n acc Hcols Hrow.
  - simpl. rewrite app_nil_r. reflexivity.
  - destruct (Hcols k (or_introl eq_refl)) as (v & ty & rq & cls & Hk).
    cbn [fmap list_fmap imap foldM]. 
    erewrite bind_run.
    2:{ unfold read, of_outcome, mbind, M_bind. cbn [snd fst to_key this]. rewrite Hk. reflexivity. }
    rewrite (imap_ext _ (fun i header => (Z.of_nat (S n + i), header))).
    2:{ intros i x _. simpl. f_equal. lia. }
    rewrite IH.
    2:{ intros k' Hk'. apply Hcols. right. exact Hk'. }
    2:{ intros i h Hh. replace (S n + i)%nat with (n + S i)%nat by lia. apply Hrow. exact Hh. }
    f_equal. f_equal. cbn [fst]. rewrite (Hrow 0%nat k eq_refl).
    unfold missing_required. cbn [List.filter]. unfold required_of at 2. rewrite Hk. cbn [dot_required truthy].
    destruct (rq && unset (value_of o k)); [| reflexivity].
    rewrite <- app_assoc. reflexivity.
Qed.

Lemma checkRequired_run props o w :
  (forall k, In k props -> is_column (get o k)) ->
  checkRequired (VStr <$> props) (value_of o <$> props) (Frame o w)
  = (Ok (VStr <$> missing_required props o), Frame o w).
Proof.
  intros Hcols. unfold checkRequired.
  apply (checkRequired_loop o w (value_of o <$> props) props 0%nat []); [exact Hcols |].
  intros i h Hh. apply nth_cell_lookup. cbn [Nat.add]. rewrite list_lookup_fmap, Hh. reflexivity.
Qed.
End Validation.

(** *** Schema synchronisation of a table that is ready *)

Lemma in_step_synchronized c props ss :
  props <> [] -> ss !! class_name c = None \/ in_step c props ss ->
  in_step c props (synchronized c props ss).
Proof.
  intros Hne [Hnone|Hstep]; unfold synchronized.
  - rewrite Hnone. exists [VStr <$> props]. split; [apply lookup_insert_eq |].
    unfold Sheet.rowValues, Sheet.lastColumn. simpl.
    rewrite Nat.max_0_r, Nat2Z.id. apply pad_exact.
  - destruct Hstep as (g & Hg & Hrow). rewrite Hg. exists g. split; assumption.
Qed.

Lemma getTableInfo_ready c props w :
  ready c props (spreadsheet w) ->
  getTableInfo c w =
  (Ok (class_name c, VStr <$> props),
   with_spreadsheet (synchronized c props (spreadsheet w)) (later 2 w)).
Proof.
  intros (Hd & Hne & [Hnone|Hstep]).
  - rewrite (getTableInfo_absent _ _ _ Hd Hnone). unfold synchronized. rewrite Hnone. reflexivity.
  - rewrite (getTableInfo_in_step _ _ _ Hd Hne Hstep). unfold synchronized.
    destruct Hstep as (g & Hg & _). rewrite Hg. reflexivity.
Qed.

Lemma stamped_get o now user k :
  k <> "modified" -> k <> "last_modified_by" -> get (stamped o now user) k = get o k.
Proof.
  intros H1 H2. unfold stamped. destruct user; rewrite ?get_set_value_ne by congruence; reflexivity.
Qed.

Lemma instance_ok_stamped props o now user :
  instance_ok props o -> instance_ok props (stamped o now user).
Proof.
  intros Ho. unfold stamped.
  assert (H1 : instance_ok props (set_value o "modified" now)).
  { apply instance_ok_set_value; [assumption |]. apply Ho. simpl. tauto. }
  destruct user; [| exact H1].
  apply instance_ok_set_value; [assumption |]. apply H1. simpl. tauto.
Qed.

Lemma identified_get o new_id k :
  k <> "id" -> k <> "created" -> k <> "created_by" -> get (identified o new_id) k = get o k.
Proof.
  intros H1 H2 H3. unfold identified. rewrite !get_set_value_ne by congruence. reflexivity.
Qed.

Lemma instance_ok_identified props o new_id :
  instance_ok props o -> instance_ok props (identified o new_id).
Proof.
  intros Ho. unfold identified.
  assert (H1 : instance_ok props (set_value o "id" (VStr new_id))).
  { apply instance_ok_set_value; [assumption |]. apply Ho. simpl. tauto. }
  assert (H2 : instance_ok props (set_value (set_value o "id" (VStr new_id)) "created" (value_of o "modified"))).
  { apply instance_ok_set_value; [assumption |]. apply H1. simpl. tauto. }
  apply instance_ok_set_value; [assumption |]. apply H2. simpl. tauto.
Qed.

Lemma stamp_user_run o w (user : option string) :
  is_column (get o "last_modified_by") ->
  match user with
  | Some email => assign_value "last_modified_by" (VStr email)
  | None => mret tt
  end (Frame o w)
  = (Ok tt, Frame match user with
                  | Some email => set_value o "last_modified_by" (VStr email)
                  | None => o
                  end w).
Proof. intros Ho. destruct user; [apply assign_value_run, Ho | reflexivity]. Qed.

Lemma bind_assoc {S A B C} (m : M S A) (k : A -> M S B) (k' : B -> M S C) s :
  ((m ≫= k) ≫= k') s = (m ≫= fun a => k a ≫= k') s.
Proof. unfold mbind, M_bind. destruct (m s) as [[a|e] s']; reflexivity. Qed.

Lemma new_prop_run props o w k x :
  NoDup props -> is_column (get o k) ->
  (assign_value k x ≫= fun _ =>
     mret (store_cell (value_of o <$> props) (indexOf (VStr <$> props) (VStr k)) x))
    (Frame o w)
  = (Ok (value_of (set_value o k x) <$> props), Frame (set_value o k x) w).
Proof.
  intros Hnd Hk. rewrite (bind_run _ _ _ _ _ (assign_value_run k x o w Hk)).
  rewrite row_set_value by assumption. reflexivity.
Qed.

Lemma new_props_run props o w new_id created created_by :
  NoDup props -> instance_ok props o ->
  foldM (fun updateArray prop =>
           let pos := indexOf (VStr <$> props) (VStr (fst prop)) in
           assign_value (fst prop) (snd prop);;
           mret (store_cell updateArray pos (snd prop)))
        [("id", VStr new_id); ("created", created); ("created_by", created_by)]
        (value_of o <$> props) (Frame o w)
  = (Ok (value_of (set_value (set_value (set_value o "id" (VStr new_id)) "created" created)
                             "created_by" created_by) <$> props),
     Frame (set_value (set_value (set_value o "id" (VStr new_id)) "created" created)
                      "created_by" created_by) w).
Proof.
  intros Hnd Ho. cbn [foldM fst snd].
  assert (H1 : instance_ok props (set_value o "id" (VStr new_id))).
  { apply instance_ok_set_value; [assumption |]. apply Ho. simpl. tauto. }
  assert (H2 : instance_ok props (set_value (set_value o "id" (VStr new_id)) "created" created)).
  { apply instance_ok_set_value; [assumption |]. apply H1. simpl. tauto. }
  erewrite bind_run by (apply new_prop_run; [assumption | apply Ho; simpl; tauto]).
  erewrite bind_run by (apply new_prop_run; [assumption | apply H1; simpl; tauto]).
  erewrite bind_run by (apply new_prop_run; [assumption | apply H2; simpl; tauto]).
  reflexivity.
Qed.

Lemma sheet_after_sync c props w :
  ready c props (spreadsheet w) ->
  exists g, synchronized c props (spreadsheet w) !! class_name c = Some g.
Proof.
  intros (_ & Hne & Hcase). destruct (in_step_synchronized c props _ Hne Hcase) as (g & Hg & _).
  exists g. exact Hg.
Qed.

Lemma appendRow_run name g row w :
  spreadsheet w !! name = Some g ->
  Sheet.appendRow name row w
  = (Ok tt, with_spreadsheet (<[name := g ++ [row]]> (spreadsheet w)) w).
Proof. intros Hg. unfold Sheet.appendRow, Sheet.cells, Sheet.put, mbind, M_bind. rewrite Hg. reflexivity. Qed.

Lemma getLastRow_run name g w :
  spreadsheet w !! name = Some g -> Sheet.getLastRow name w = (Ok (Sheet.lastRow g), w).
Proof. intros Hg. unfold Sheet.getLastRow, Sheet.cells, mbind, M_bind. rewrite Hg. reflexivity. Qed.

Lemma getLastColumn_run name g w :
  spreadsheet w !! name = Some g -> Sheet.getLastColumn name w = (Ok (Sheet.lastColumn g), w).
Proof. intros Hg. unfold Sheet.getLastColumn, Sheet.cells, mbind, M_bind. rewrite Hg. reflexivity. Qed.

Lemma setRowValues_outcome sheet row column n vals w :
  exists r w', Sheet.setRowValues sheet row column n vals w = (r, w')
               /\ (r = Ok tt \/ r = Throw StoreFault).
Proof.
  unfold Sheet.setRowValues, Sheet.cells, Sheet.put, throw, mbind, M_bind.
  destruct (spreadsheet w !! sheet); [| eauto].
  destruct (Sheet.valid_range row column 1 n && (Z.of_nat (length vals) =? n)); eauto.
Qed.

Section Persist.
Context `{Engine}.

(** The steps of [persist] up to the row it prepares. *)
Ltac persist_prefix Hready Ho Ho1 :=
  rewrite (bind_run _ _ _ _ _ (lift_run _ _ _ _ _ (getTableInfo_ready _ _ _ Hready)));
  cbn zeta;
  erewrite bind_run by (apply lift_run; reflexivity);
  erewrite bind_run by (apply assign_value_run, Ho; simpl; tauto);
  erewrite bind_run by (apply lift_run; reflexivity);
  erewrite bind_run
    by (apply stamp_user_run; apply is_column_set_value; apply Ho; simpl; tauto);
  erewrite bind_run
    by (eapply getUpdateArray_run;
        [apply Hready | apply Hready
        | simpl; apply in_step_synchronized; apply Hready
        | intros h Hh; apply Ho1; apply in_or_app; right; exact Hh]).

Lemma value_of_get o o' k : get o' k = get o k -> value_of o' k = value_of o k.
Proof. intros Hk. unfold value_of. rewrite Hk. reflexivity. Qed.

Lemma fair_later n w : fair w -> fair (later n w).
Proof. intros Hf k. apply Hf. Qed.

(** [persist] on an instance without an identifier. *)
Lemma persist_create c props o w :
  ready c props (spreadsheet w) -> instance_ok props o ->
  value_of o "id" = VStr "" ->
  let w1 := with_spreadsheet (synchronized c props (spreadsheet w)) (later 5 w) in
  let o1 := stamped o (VDate (clock w (2 + ticks w))) (active_user w) in
  exists new_id w2,
    generateId 8 w1 = (Ok new_id, w2)
    /\ spreadsheet w2 = synchronized c props (spreadsheet w)
    /\ let o2 := identified o1 new_id in
       (missing_required props o2 <> [] ->
        persist c (Frame o w)
        = (Throw (Error (required_message (VStr <$> missing_required props o2))), Frame o2 w2))
       /\ (missing_required props o2 = [] ->
           exists n w3, persist c (Frame o w) = (Ok tt, Frame (set o2 "row_number" (VNum n)) w3)).
Proof.
  intros Hready Ho Hid w1 o1.
  pose proof Hready as (Hd & Hne & Hcase).
  pose proof (declares_NoDup _ _ Hd) as Hnd.
  assert (Ho1 : instance_ok props o1) by apply instance_ok_stamped, Ho.
  destruct (generateId_loop_ends 8 8 0 "" w1 eq_refl) as (new_id & w2 & Hrun & Hss).
  exists new_id, w2. split; [exact Hrun |].
  split; [rewrite Hss; reflexivity |].
  intros o2.
  assert (Ho2 : instance_ok props o2) by apply instance_ok_identified, Ho1.
  set (oa := set_value o1 "id" (VStr new_id)).
  set (ob := set_value oa "created" (value_of o1 "modified")).
  assert (Hoa : instance_ok props oa).
  { apply instance_ok_set_value; [assumption |]. apply Ho1. simpl. tauto. }
  assert (Hob : instance_ok props ob).
  { apply instance_ok_set_value; [assumption |]. apply Hoa. simpl. tauto. }
  unfold persist. persist_prefix Hready Ho Ho1.
  repeat match goal with |- context [Frame ?o' ?w'] =>
    progress (change o' with o1; change w' with w1) end.
  repeat match goal with |- context [value_of ?o' <$> props] =>
    progress (change o' with o1) end.
  cbn [fst snd].
  erewrite !bind_run by (apply read_value_run, Ho1; simpl; tauto).
  rewrite (value_of_get o o1 "id") by (apply stamped_get; discriminate).
  rewrite Hid. cbn [strict_eq String.eqb Ascii.eqb Bool.eqb].
  assert (Hgen : lift (generateId 8) (Frame o1 w1) = (Ok new_id, Frame o1 w2)).
  { apply lift_run. exact Hrun. }
  change (spreadsheet w1) with (synchronized c props (spreadsheet w)) in Hss.
  destruct (sheet_after_sync _ _ _ Hready) as (g & Hg). rewrite <- Hss in Hg.
  rewrite bind_assoc, (bind_run _ _ _ _ _ Hgen).
  rewrite bind_assoc. erewrite bind_run by (apply read_value_run, Ho1; simpl; tauto).
  rewrite bind_assoc. erewrite bind_run by (apply read_value_run, Ho1; simpl; tauto).
  rewrite bind_assoc. erewrite bind_run by (apply new_props_run; assumption).
  fold (identified o1 new_id). fold o2.
  rewrite bind_assoc. erewrite bind_run
    by (apply checkRequired_run; intros h Hh; apply Ho2, in_or_app; right; exact Hh).
  split; intros Hmiss.
  - destruct (missing_required props o2) as [|h hs] eqn:Em; [congruence |].
    cbn [fmap list_fmap length Nat.ltb Nat.leb]. reflexivity.
  - rewrite Hmiss. cbn [fmap list_fmap length Nat.ltb Nat.leb].
    rewrite bind_assoc. erewrite bind_run by (apply lift_run, appendRow_run, Hg).
    rewrite bind_assoc. erewrite bind_run.
    2:{ apply lift_run. eapply getLastRow_run. simpl. apply lookup_insert_eq. }
    eexists _, _. reflexivity.
Qed.

(** [persist] on an instance with an identifier and a row. *)
Lemma persist_update c props o w :
  ready c props (spreadsheet w) -> instance_ok props o ->
  strict_eq (value_of o "id") (VStr "") = false ->
  gt_zero (get o "row_number") = true ->
  let w1 := with_spreadsheet (synchronized c props (spreadsheet w)) (later 5 w) in
  let o1 := stamped o (VDate (clock w (2 + ticks w))) (active_user w) in
  (missing_required props o1 <> [] ->
   persist c (Frame o w)
   = (Throw (Error (required_message (VStr <$> missing_required props o1))), Frame o1 w1))
  /\ (missing_required props o1 = [] ->
      exists r w2, persist c (Frame o w) = (r, Frame o1 w2)
                   /\ (r = Ok tt \/ r = Throw StoreFault)).
Proof.
  intros Hready Ho Hid Hrow w1 o1.
  assert (Ho1 : instance_ok props o1) by apply instance_ok_stamped, Ho.
  unfold persist. persist_prefix Hready Ho Ho1.
  repeat match goal with |- context [Frame ?o' ?w'] =>
    progress (change o' with o1; change w' with w1) end.
  repeat match goal with |- context [value_of ?o' <$> props] =>
    progress (change o' with o1) end.
  cbn [fst snd].
  erewrite !bind_run by (apply read_value_run, Ho1; simpl; tauto).
  rewrite (value_of_get o o1 "id") by (apply stamped_get; discriminate).
  rewrite Hid.
  rewrite bind_assoc. erewrite bind_run by reflexivity.
  assert (Hrn : get o1 "row_number" = get o "row_number") by (apply stamped_get; discriminate).
  cbn [this]. rewrite Hrn, Hrow.
  rewrite bind_assoc. erewrite bind_run
    by (apply checkRequired_run; intros h Hh; apply Ho1, in_or_app; right; exact Hh).
  split; intros Hmiss.
  - destruct (missing_required props o1) as [|h hs] eqn:Em; [congruence |].
    cbn [fmap list_fmap length Nat.ltb Nat.leb]. reflexivity.
  - rewrite Hmiss. cbn [fmap list_fmap length Nat.ltb Nat.leb].
    destruct (sheet_after_sync _ _ _ Hready) as (g & Hg).
    rewrite bind_assoc. erewrite bind_run by (apply lift_run, getLastColumn_run, Hg).
    unfold gt_zero in Hrow. destruct (to_number (get o "row_number")) as [row|]; [| discriminate].
    destruct (setRowValues_outcome (class_name c) row 1 (Sheet.lastColumn g)
                (value_of o1 <$> props) w1) as (r & w2 & Hset & Hr).
    exists r, w2. split; [| exact Hr].
    destruct Hr as [-> | ->].
    + erewrite bind_run by (apply lift_run, Hset). reflexivity.
    + erewrite bind_throw by (apply lift_run, Hset). reflexivity.
Qed.

(** [persist] on an instance with an identifier and without a row. *)
Lemma persist_detached c props o w :
  ready c props (spreadsheet w) -> instance_ok props o ->
  strict_eq (value_of o "id") (VStr "") = false ->
  gt_zero (get o "row_number") = false ->
  persist c (Frame o w)
  = (Ok tt, Frame (stamped o (VDate (clock w (2 + ticks w))) (active_user w))
                  (with_spreadsheet (synchronized c props (spreadsheet w)) (later 5 w))).
Proof.
  intros Hready Ho Hid Hrow.
  set (w1 := with_spreadsheet (synchronized c props (spreadsheet w)) (later 5 w)).
  set (o1 := stamped o (VDate (clock w (2 + ticks w))) (active_user w)).
  assert (Ho1 : instance_ok props o1) by apply instance_ok_stamped, Ho.
  unfold persist. persist_prefix Hready Ho Ho1.
  repeat match goal with |- context [Frame ?o' ?w'] =>
    progress (change o' with o1; change w' with w1) end.
  repeat match goal with |- context [value_of ?o' <$> props] =>
    progress (change o' with o1) end.
  cbn [fst snd].
  erewrite !bind_run by (apply read_value_run, Ho1; simpl; tauto).
  rewrite (value_of_get o o1 "id") by (apply stamped_get; discriminate).
  rewrite Hid.
  rewrite bind_assoc. erewrite bind_run by reflexivity.
  assert (Hrn : get o1 "row_number" = get o "row_number") by (apply stamped_get; discriminate).
  cbn [this]. rewrite Hrn, Hrow. reflexivity.
Qed.
End Persist.

Section Queries.
Context `{Engine}.

Lemma meets_plain (conditions : gmap string condition) ks entity :
  (forall k cond, conditions !! k = Some cond -> exists v, cond = Plain v) ->
  meets conditions ks entity = true.
Proof.
  intros Hplain. unfold meets. apply forallb_forall. intros key _.
  destruct (conditions !! key) as [[f|v]|] eqn:E; [| reflexivity | reflexivity].
  destruct (Hplain _ _ E) as [v Hv]. discriminate.
Qed.

Lemma filter_all {A} (f : A -> bool) l : (forall x, f x = true) -> List.filter f l = l.
Proof.
  intros Hf. induction l as [|x l IH]; simpl; [reflexivity |].
  rewrite Hf, IH. reflexivity.
Qed.

(** C6.  [filterByConsitions] with an empty conditions object returns the
    empty array whatever the spreadsheet holds, without reading it; with a
    conditions object that has keys, none of them holding a function, it
    returns what [findAll()] returns. *)
Theorem filterByConsitions_empty_and_plain (c : class) (conditions : gmap string condition)
    (w : world) :
  filterByConsitions c ∅ w = (Ok [], w)
  /\ (conditions <> ∅ ->
      (forall k cond, conditions !! k = Some cond -> exists v, cond = Plain v) ->
      filterByConsitions c conditions w = findAll c w).
Proof.
  split; [reflexivity |].
  intros Hne Hplain. unfold filterByConsitions.
  destruct (map_to_list conditions) as [|kv l] eqn:El.
  - apply map_to_list_empty_iff in El. contradiction.
  - cbn [fmap list_fmap length Nat.eqb].
    unfold mbind, M_bind.
    destruct (findAll c w) as [[all|e] w']; [| reflexivity].
    rewrite filter_all by (intros entity; apply meets_plain, Hplain). reflexivity.
Qed.

(** C8, in general: a search that matches no identifier ends in undefined. *)
Lemma find_id_miss c id all :
  Forall (fun entity => exists v, dot_value (get entity "id") = Ok v /\ strict_eq v id = false) all ->
  find_id c id all = Ok VUndefined.
Proof.
  induction 1 as [|entity all (v & Hv & Hne) _ IH]; simpl; [reflexivity |].
  rewrite Hv. simpl. rewrite Hne. exact IH.
Qed.

Lemma findById_miss c id w all w' :
  findAll c w = (Ok all, w') ->
  Forall (fun entity => exists v, dot_value (get entity "id") = Ok v /\ strict_eq v id = false) all ->
  findById c id w = (Ok VUndefined, w').
Proof.
  intros Hall Hmiss. unfold findById. rewrite (bind_run _ _ _ _ _ Hall).
  unfold of_outcome. rewrite (find_id_miss _ _ _ Hmiss). reflexivity.
Qed.
End Queries.

Section Records.
Context `{Engine}.

Lemma assign_cells_other headers k : forall (cells : list (Z * value)) (data : record),
  (forall ic, In ic cells -> to_key (nth_cell headers (fst ic)) <> k) ->
  foldl (assign_cell headers) data cells !! k = data !! k.
Proof.
  induction cells as [|ic cells IH]; intros data Hk; simpl; [reflexivity |].
  rewrite IH by (intros ic' Hin; apply Hk; right; exact Hin).
  unfold assign_cell. apply lookup_insert_ne. apply Hk. left. reflexivity.
Qed.

Lemma assign_cells_last headers : forall (cells : list (Z * value)) (data : record) j i cell,
  cells !! j = Some (i, cell) ->
  (forall j' ic, (j < j')%nat -> cells !! j' = Some ic ->
                 to_key (nth_cell headers (fst ic)) <> to_key (nth_cell headers i)) ->
  foldl (assign_cell headers) data cells !! to_key (nth_cell headers i) = Some cell.
Proof.
  induction cells as [|ic cells IH]; intros data j i cell Hj Hlater; [discriminate |].
  destruct j as [|j]; simpl in *.
  - inversion Hj; subst ic. rewrite assign_cells_other.
    + unfold assign_cell. simpl. apply lookup_insert_eq.
    + intros ic' Hin. apply list_elem_of_In, list_elem_of_lookup_1 in Hin as [j' Hj'].
      apply (Hlater (S j') ic'); [lia | exact Hj'].
  - apply (IH _ j i cell Hj). intros j' ic' Hlt Hj'.
    apply (Hlater (S j') ic'); [lia | exact Hj'].
Qed.

Lemma row_object_row_number headers row_id row :
  (forall j, (j < length row)%nat -> key_at headers j <> "row_number") ->
  row_object headers row_id row !! "row_number" = Some (VNum (Z.of_nat row_id + 2)).
Proof.
  intros Hkeys. unfold row_object.
  rewrite assign_cells_other; [apply lookup_singleton_eq |].
  intros [i cell] Hin. apply list_elem_of_In, elem_of_lookup_imap in Hin.
  destruct Hin as (j & x & Heq & Hx). inversion Heq; subst. simpl.
  apply Hkeys. eapply lookup_lt_Some, Hx.
Qed.

Lemma row_object_cell headers row_id row j cell :
  row !! j = Some cell ->
  (forall j', (j < j' < length row)%nat -> key_at headers j' <> key_at headers j) ->
  row_object headers row_id row !! key_at headers j = Some cell.
Proof.
  intros Hj Hlater. unfold row_object, key_at.
  apply (assign_cells_last headers _ _ j).
  - rewrite list_lookup_imap, Hj. reflexivity.
  - intros j' [i' c'] Hlt Hj'. rewrite list_lookup_imap in Hj'.
    destruct (row !! j') eqn:E; [| discriminate]. inversion Hj'; subst. simpl.
    apply Hlater. split; [exact Hlt | eapply lookup_lt_Some, E].
Qed.

(** C10, as amended.  [fromRawDataToArrayOfObject] takes the first row out
    of the array it is given, which afterwards holds the remaining rows
    only.  It returns one record for each remaining row; the record of the
    row at position [i] has [row_number = i + 2] unless one of the row's
    cells is stored under the key [row_number], and it holds every cell
    under the key of its header, the last cell winning when two headers
    have the same key.  The cells are those whose header has another key
    than [__proto__], under which an assignment creates no property of the
    record: the setter of [Object.prototype] takes it. *)
Theorem fromRawDataToArrayOfObject_shifts_the_header_row (rawData : grid) :
  let headers := default [] (head rawData) in
  exists records,
    fromRawDataToArrayOfObject rawData = (Ok records, tail rawData)
    /\ length records = length (tail rawData)
    /\ forall i row r,
         tail rawData !! i = Some row -> records !! i = Some r ->
         ((forall j, (j < length row)%nat -> key_at headers j <> "row_number") ->
          r !! "row_number" = Some (VNum (Z.of_nat i + 2)))
         /\ (forall j cell,
               row !! j = Some cell ->
               key_at headers j <> "__proto__" ->
               (forall j', (j < j' < length row)%nat -> key_at headers j' <> key_at headers j) ->
               r !! key_at headers j = Some cell).
Proof.
  intros headers. exists (imap (row_object headers) (tail rawData)).
  split; [| split].
  - destruct rawData as [|first rest]; reflexivity.
  - apply length_imap.
  - intros i row r Hrow Hr. rewrite list_lookup_imap, Hrow in Hr. inversion Hr; subst r.
    split.
    + apply row_object_row_number.
    + intros j cell Hj _. apply row_object_cell, Hj.
Qed.
End Records.

Lemma set_fresh o k v : k ∉ keys o -> set o k v = o ++ [(k, v)].
Proof.
  induction o as [|[k' v'] o IH]; simpl; intros Hk; [reflexivity |].
  unfold keys in Hk. simpl in Hk. apply not_elem_of_cons in Hk as [Hne Hk].
  destruct (String.eqb_spec k' k) as [->|_]; [congruence |]. rewrite IH by exact Hk. reflexivity.
Qed.

Lemma foldl_set_fresh : forall d o,
  NoDup (keys d) -> (forall k, k ∈ keys d -> k ∉ keys o) ->
  foldl (fun o kv => set o (fst kv) (snd kv)) o d = o ++ d.
Proof.
  induction d as [|[k v] d IH]; intros o Hnd Hfresh; simpl.
  - rewrite app_nil_r. reflexivity.
  - unfold keys in Hnd. simpl in Hnd. apply NoDup_cons in Hnd as [Hk Hnd].
    rewrite set_fresh by (apply Hfresh; left). rewrite IH.
    + rewrite <- app_assoc. reflexivity.
    + exact Hnd.
    + intros k' Hk' Hin. unfold keys in Hin. rewrite fmap_app in Hin.
      apply elem_of_app in Hin as [Hin|Hin].
      * apply (Hfresh k'); [right; exact Hk' | exact Hin].
      * apply list_elem_of_singleton in Hin. simpl in Hin. subst k'. apply Hk, Hk'.
Qed.

Lemma get_app_fresh o d k : k ∉ keys o -> get (o ++ d) k = get d k.
Proof.
  induction o as [|[k' v'] o IH]; simpl; intros Hk; [reflexivity |].
  unfold keys in Hk. simpl in Hk. apply not_elem_of_cons in Hk as [Hne Hk].
  destruct (String.eqb_spec k' k) as [->|_]; [congruence |]. apply IH, Hk.
Qed.

Lemma get_member : forall d k v, NoDup (keys d) -> (k, v) ∈ d -> get d k = v.
Proof.
  induction d as [|[k' v'] d IH]; intros k v Hnd Hin; [inversion Hin |].
  unfold keys in Hnd. simpl in Hnd. apply NoDup_cons in Hnd as [Hk Hnd].
  apply elem_of_cons in Hin as [Heq|Hin]; simpl.
  - inversion Heq; subst. rewrite String.eqb_refl. reflexivity.
  - destruct (String.eqb_spec k' k) as [->|_]; [| apply IH; assumption].
    exfalso. apply Hk. apply (list_elem_of_fmap_2 fst) in Hin. exact Hin.
Qed.

Lemma isColumn_total v : v <> VNull -> exists b, isColumn v = Ok b.
Proof.
  intros Hv. destruct v as [| |b|n|s|t|x ty rq cls|ctor own]; try congruence;
    unfold isColumn; simpl; eauto.
  - destruct (length _ =? 0)%nat; eauto.
  - destruct (length _ =? 0)%nat; eauto.
Qed.

Lemma column_names_filter (o : object) (P : string -> bool) : forall ks,
  (forall k, k ∈ ks -> isColumn (get o k) = Ok (P k)) ->
  foldr (fun prop rest =>
           b ← isColumn (get o prop); names ← rest;
           mret (if b : bool then prop :: names else names)) (Ok []) ks
  = Ok (List.filter P ks).
Proof.
  induction ks as [|k ks IH]; intros HP; simpl; [reflexivity |].
  rewrite (HP k) by left. rewrite IH by (intros k' Hk'; apply HP; right; exact Hk').
  simpl. destruct (P k); reflexivity.
Qed.

Lemma filter_fst (P : string -> bool) : forall d : object,
  List.filter P (fst <$> d) = fst <$> List.filter (fun kv => P (fst kv)) d.
Proof.
  induction d as [|[k v] d IH]; [reflexivity |].
  cbn [fmap list_fmap List.filter fst]. destruct (P k); cbn [fmap list_fmap]; f_equal; exact IH.
Qed.

Lemma plain_class_declares c :
  plain_class c -> declares c (implicit_columns ++ declared_columns c).
Proof.
  intros (Hnd & Hfresh & Hnull & _). unfold declares, blank.
  rewrite foldl_set_fresh; [| exact Hnd | exact Hfresh].
  set (base := [("id", COLUMN.STRING (VStr "") None); ("row_number", VNum 0);
                ("created", COLUMN.DATE (VDate 0) None); ("modified", COLUMN.DATE (VDate 0) None);
                ("created_by", COLUMN.STRING (VStr "") None);
                ("last_modified_by", COLUMN.STRING (VStr "") None)]).
  set (d := class_declared c) in *.
  set (P := fun k => match isColumn (get (base ++ d) k) with Ok true => true | _ => false end).
  unfold column_names. rewrite (column_names_filter _ P).
  - f_equal. unfold keys. rewrite fmap_app, List.filter_app. f_equal; try reflexivity.
    rewrite (filter_fst P d). unfold declared_columns. fold d. f_equal.
    apply List.filter_ext_in. intros [k v] Hin. apply list_elem_of_In in Hin.
    unfold P, declared_column. cbn [fst snd].
    rewrite get_app_fresh.
    + rewrite (get_member d k v Hnd Hin). reflexivity.
    + apply Hfresh. apply (list_elem_of_fmap_2 fst) in Hin. exact Hin.
  - intros k Hk. unfold P.
    assert (Hv : get (base ++ d) k <> VNull).
    { unfold keys in Hk. rewrite fmap_app in Hk. apply elem_of_app in Hk as [Hk|Hk].
      - simpl in Hk. repeat (apply elem_of_cons in Hk as [->|Hk]; [simpl; discriminate |]).
        inversion Hk.
      - rewrite get_app_fresh by (apply Hfresh, Hk).
        apply list_elem_of_fmap in Hk as ([k' v] & -> & Hin). simpl.
        rewrite (get_member d k' v Hnd Hin). apply (Hnull _ Hin). }
    destruct (isColumn_total _ Hv) as [b Hb]. rewrite Hb. destruct b; reflexivity.
Qed.

Lemma row_number_not_declared c :
  plain_class c -> "row_number" ∉ implicit_columns ++ declared_columns c.
Proof.
  intros (_ & Hfresh & _) Hin. apply elem_of_app in Hin as [Hin|Hin].
  - unfold implicit_columns in Hin.
    repeat (apply elem_of_cons in Hin as [Hin|Hin]; [discriminate |]). inversion Hin.
  - unfold declared_columns in Hin. apply list_elem_of_fmap in Hin as ([k v] & Hk & Hin).
    simpl in Hk. subst k. apply list_elem_of_In, List.filter_In in Hin as [Hin _].
    apply list_elem_of_In in Hin. apply (Hfresh "row_number").
    + apply (list_elem_of_fmap_2 fst) in Hin. exact Hin.
    + unfold constructor_names. right. left.
Qed.

(** C5, as amended.  When the class has no sheet, [getTableInfo] creates
    one whose only row is the header row it returns: the five implicit
    columns [id], [created], [modified], [created_by], [last_modified_by] the
    constructor of [GSTable] contributes, followed by the columns the class
    declares, in the order it declares them.  [row_number] is a plain
    property of the instance, not a column, and is not in the header row.
    This is for a class that declares its properties under ordinary names:
    a property named by an array index, such as [2], is listed before the
    implicit columns, one named [__proto__] is no own property, and one
    named [constructor] hides the name of the class. *)
Theorem getTableInfo_seeds_the_header_row (c : class) (w : world) :
  plain_class c -> spreadsheet w !! class_name c = None ->
  let headers := implicit_columns ++ declared_columns c in
  exists w',
    getTableInfo c w = (Ok (class_name c, VStr <$> headers), w')
    /\ spreadsheet w' = <[class_name c := [VStr <$> headers]]> (spreadsheet w)
    /\ "row_number" ∉ headers.
Proof.
  intros Hc Hnone headers.
  eexists. split; [apply getTableInfo_absent; [apply plain_class_declares, Hc | exact Hnone] |].
  split; [reflexivity | apply row_number_not_declared, Hc].
Qed.

(** *** The instance that [persist] validates *)

Lemma value_of_stamped_modified props o now user :
  instance_ok props o -> value_of (stamped o now user) "modified" = now.
Proof.
  intros Ho. unfold stamped.
  assert (Hm : is_column (get o "modified")) by (apply Ho; simpl; tauto).
  assert (Hl : is_column (get (set_value o "modified" now) "last_modified_by")).
  { apply is_column_set_value; [exact Hm | apply Ho; simpl; tauto]. }
  destruct user; rewrite ?value_of_set_value by assumption; reflexivity.
Qed.

Lemma value_of_stamped_user props o now email :
  instance_ok props o -> value_of (stamped o now (Some email)) "last_modified_by" = VStr email.
Proof.
  intros Ho. unfold stamped. rewrite value_of_set_value; [reflexivity |].
  apply is_column_set_value; apply Ho; simpl; tauto.
Qed.

Lemma value_of_identified props o new_id k :
  instance_ok props o ->
  value_of (identified o new_id) k
  = if String.eqb k "created_by" then value_of o "last_modified_by"
    else if String.eqb k "created" then value_of o "modified"
    else if String.eqb k "id" then VStr new_id
    else value_of o k.
Proof.
  intros Ho. unfold identified.
  assert (H1 : instance_ok props (set_value o "id" (VStr new_id))).
  { apply instance_ok_set_value; [assumption |]. apply Ho. simpl. tauto. }
  assert (H2 : instance_ok props (set_value (set_value o "id" (VStr new_id)) "created"
                                            (value_of o "modified"))).
  { apply instance_ok_set_value; [assumption |]. apply H1. simpl. tauto. }
  rewrite value_of_set_value by (apply H2; simpl; tauto).
  rewrite value_of_set_value by (apply H1; simpl; tauto).
  rewrite value_of_set_value by (apply Ho; simpl; tauto).
  reflexivity.
Qed.

Lemma filter_nil_inv {A} (f : A -> bool) l x :
  List.filter f l = [] -> In x l -> f x = false.
Proof.
  intros Hnil Hin. destruct (f x) eqn:E; [| reflexivity].
  assert (Hx : In x (List.filter f l)) by (apply List.filter_In; split; assumption).
  rewrite Hnil in Hx. destruct Hx.
Qed.

Lemma missing_set_number props o k n :
  missing_required props o = [] -> missing_required props (set o k (VNum n)) = [].
Proof.
  intros Hnil. unfold missing_required in *. apply filter_nil. intros h Hh.
  destruct (String.eqb_spec k h) as [<-|Hne].
  - unfold required_of. rewrite get_set_eq. reflexivity.
  - pose proof (filter_nil_inv _ _ _ Hnil Hh) as Hf. cbv beta in Hf.
    unfold required_of, value_of in *. rewrite get_set_ne by exact Hne. exact Hf.
Qed.

Lemma not_constructor_name h :
  h ∉ constructor_names ->
  h <> "id" /\ h <> "row_number" /\ h <> "created" /\ h <> "modified"
  /\ h <> "created_by" /\ h <> "last_modified_by".
Proof.
  intros Hh. repeat split; intros ->; apply Hh, list_elem_of_In; simpl; tauto.
Qed.

Section Claims.
Context `{Engine}.

Lemma get_prepared o now user new_id h :
  h ∉ constructor_names ->
  get (identified (stamped o now user) new_id) h = get o h
  /\ get (stamped o now user) h = get o h.
Proof.
  intros Hh. apply not_constructor_name in Hh as (? & ? & ? & ? & ? & ?).
  rewrite identified_get, !stamped_get by assumption. split; reflexivity.
Qed.

End Claims.

(** *** Computations that throw no [Error] *)

Lemma quiet_ret {S A} (a : A) : quiet (mret a : M S A).
Proof. intros s. exact I. Qed.

Lemma quiet_bind {S A B} (m : M S A) (k : A -> M S B) :
  quiet m -> (forall a, quiet (k a)) -> quiet (m ≫= k).
Proof.
  intros Hm Hk s. unfold mbind, M_bind.
  specialize (Hm s). destruct (m s) as [[a|e] s']; simpl in *.
  - apply Hk.
  - exact Hm.
Qed.

Lemma quiet_of_outcome {S A} (r : outcome A) : calm r -> quiet (of_outcome r : M S A).
Proof. intros Hr s. exact Hr. Qed.

Lemma quiet_throw {S A} (e : exn) : fault e -> quiet (throw e : M S A).
Proof. intros He s. exact He. Qed.

Lemma quiet_lift {A} (m : M world A) : quiet m -> quiet (lift m).
Proof.
  intros Hm f. unfold lift. specialize (Hm (env f)).
  destruct (m (env f)) as [r w]. exact Hm.
Qed.

Lemma quiet_forEach {S A} (body : A -> M S unit) (a : list A) :
  (forall x, quiet (body x)) -> quiet (forEach body a).
Proof.
  intros Hbody. induction a as [|x a IH]; simpl.
  - apply quiet_ret.
  - apply quiet_bind; [apply Hbody | intros _; exact IH].
Qed.

Lemma quiet_foldM {S A B} (step : B -> A -> M S B) (a : list A) :
  (forall acc x, quiet (step acc x)) -> forall acc, quiet (foldM step a acc).
Proof.
  intros Hstep. induction a as [|x a IH]; intros acc; simpl.
  - apply quiet_ret.
  - apply quiet_bind; [apply Hstep | intros acc'; apply IH].
Qed.

Lemma quiet_if {S A} (b : bool) (m1 m2 : M S A) :
  quiet m1 -> quiet m2 -> quiet (if b then m1 else m2).
Proof. destruct b; auto. Qed.

Lemma calm_Object_keys v : calm (Object_keys v).
Proof. destruct v; exact I. Qed.

Lemma calm_isColumn v : calm (isColumn v).
Proof.
  destruct v as [| |b|n|s|t|x ty rq cls|ctor own]; try exact I;
    unfold isColumn; simpl; try destruct (length _ =? 0)%nat; exact I.
Qed.

Lemma calm_dot_value v : calm (dot_value v).
Proof. destruct v; exact I. Qed.

Lemma calm_dot_required v : calm (dot_required v).
Proof. destruct v; exact I. Qed.

Lemma calm_with_value v x : calm (with_value v x).
Proof. destruct v; exact I. Qed.

Lemma calm_column_names o : calm (column_names o).
Proof.
  unfold column_names. induction (keys o) as [|k ks IH]; simpl; [exact I |].
  pose proof (calm_isColumn (get o k)) as Hk.
  destruct (isColumn (get o k)) as [b|e]; simpl; [| exact Hk].
  match goal with |- context [foldr ?f ?z ks] => destruct (foldr f z ks) as [names|e] end;
    simpl; [exact I | exact IH].
Qed.

Lemma quiet_cells sheet : quiet (Sheet.cells sheet).
Proof. intros w. unfold Sheet.cells. destruct (spreadsheet w !! sheet); exact I. Qed.

Lemma quiet_put sheet g : quiet (Sheet.put sheet g).
Proof. intros w. exact I. Qed.

Lemma quiet_read k : quiet (read k).
Proof. intros f. exact I. Qed.

Lemma quiet_write k v : quiet (write k v).
Proof. intros f. exact I. Qed.

Ltac quiet_step :=
  first
    [ apply quiet_ret
    | apply quiet_cells
    | apply quiet_put
    | apply quiet_read
    | apply quiet_write
    | apply quiet_bind; [| intros ?]
    | apply quiet_if
    | apply quiet_lift
    | apply quiet_forEach; intros ?
    | apply quiet_foldM; intros ? ?
    | apply quiet_throw; exact I
    | apply quiet_of_outcome;
      first [ apply calm_isColumn | apply calm_dot_value | apply calm_dot_required
            | apply calm_with_value | apply calm_column_names | apply calm_Object_keys ] ].

Ltac quiet_steps := repeat quiet_step.

Lemma quiet_getTableInfo c : quiet (getTableInfo c).
Proof.
  unfold getTableInfo. apply quiet_bind; [intros w; exact I |].
  intros emptyObj. apply quiet_bind; [quiet_steps |].
  intros class_props. apply quiet_bind; [intros w; exact I |].
  intros [sheet|].
  - unfold Sheet.getLastColumn, Sheet.getRowValues, Sheet.setRowValues, Sheet.deleteColumn,
      Sheet.flush. quiet_steps.
  - apply quiet_bind.
    + intros w. unfold Sheet.insertSheet. destruct (spreadsheet w !! class_name c); exact I.
    + intros sheet. unfold Sheet.appendRow, Sheet.flush. quiet_steps.
Qed.

Lemma quiet_assign_value k x : quiet (assign_value k x).
Proof. unfold assign_value. quiet_steps. Qed.

Lemma quiet_read_value k : quiet (read_value k).
Proof. unfold read_value. quiet_steps. Qed.

Ltac quiet_calls :=
  repeat first
    [ apply quiet_getTableInfo
    | apply quiet_assign_value
    | apply quiet_read_value
    | quiet_step ].

(** *** Computations that only read *)

Lemma reads_only_ret {S A} (a : A) : reads_only (mret a : M S A).
Proof. intros s. reflexivity. Qed.

Lemma reads_only_bind {S A B} (m : M S A) (k : A -> M S B) :
  reads_only m -> (forall a, reads_only (k a)) -> reads_only (m ≫= k).
Proof.
  intros Hm Hk s. unfold mbind, M_bind. specialize (Hm s).
  destruct (m s) as [[a|e] s']; simpl in *; subst s'; [apply Hk | reflexivity].
Qed.

Lemma reads_only_of_outcome {S A} (r : outcome A) : reads_only (of_outcome r : M S A).
Proof. intros s. reflexivity. Qed.

Lemma reads_only_read k : reads_only (read k).
Proof. intros f. reflexivity. Qed.

Lemma reads_only_foldM {S A B} (step : B -> A -> M S B) (a : list A) :
  (forall acc x, reads_only (step acc x)) -> forall acc, reads_only (foldM step a acc).
Proof.
  intros Hstep. induction a as [|x a IH]; intros acc; simpl.
  - apply reads_only_ret.
  - apply reads_only_bind; [apply Hstep | intros acc'; apply IH].
Qed.

Lemma reads_only_if {S A} (b : bool) (m1 m2 : M S A) :
  reads_only m1 -> reads_only m2 -> reads_only (if b then m1 else m2).
Proof. destruct b; auto. Qed.

Ltac reads_only_steps :=
  repeat first
    [ apply reads_only_ret
    | apply reads_only_read
    | apply reads_only_of_outcome
    | apply reads_only_bind; [| intros ?]
    | apply reads_only_if
    | apply reads_only_foldM; intros ? ? ].

Section Loops.
Context `{Engine}.

Lemma quiet_checkRequired headers updateArray : quiet (checkRequired headers updateArray).
Proof. unfold checkRequired. quiet_steps. Qed.

Lemma reads_only_checkRequired headers updateArray :
  reads_only (checkRequired headers updateArray).
Proof. unfold checkRequired. reads_only_steps. Qed.

Lemma quiet_getUpdateArray c : quiet (getUpdateArray c).
Proof. unfold getUpdateArray. quiet_calls. Qed.
End Loops.

(** *** Computations that touch the spreadsheet only *)

Lemma steady_ret {A} (a : A) : steady (mret a).
Proof. intros [ss cl ti en dr us]. reflexivity. Qed.

Lemma steady_throw {A} (e : exn) : steady (throw e : M world A).
Proof. intros [ss cl ti en dr us]. reflexivity. Qed.

Lemma steady_bind {A B} (m : M world A) (k : A -> M world B) :
  steady m -> (forall a, steady (k a)) -> steady (m ≫= k).
Proof.
  intros Hm Hk w. unfold mbind, M_bind. specialize (Hm w).
  destruct (m w) as [[a|e] w'] eqn:E; simpl in *.
  - rewrite (Hk a w'). rewrite Hm at 2. reflexivity.
  - exact Hm.
Qed.

Lemma steady_cells sheet : steady (Sheet.cells sheet).
Proof.
  intros [ss cl ti en dr us]. unfold Sheet.cells. simpl. destruct (ss !! sheet); reflexivity.
Qed.

Lemma steady_put sheet g : steady (Sheet.put sheet g).
Proof. intros [ss cl ti en dr us]. reflexivity. Qed.

Lemma steady_if {A} (b : bool) (m1 m2 : M world A) :
  steady m1 -> steady m2 -> steady (if b then m1 else m2).
Proof. destruct b; auto. Qed.

Lemma steady_forEach {A} (body : A -> M world unit) (a : list A) :
  (forall x, steady (body x)) -> steady (forEach body a).
Proof.
  intros Hbody. induction a as [|x a IH]; simpl.
  - apply steady_ret.
  - apply steady_bind; [apply Hbody | intros _; exact IH].
Qed.

Lemma steady_of_outcome {A} (r : outcome A) : steady (of_outcome r).
Proof. intros [ss cl ti en dr us]. reflexivity. Qed.

Ltac steady_steps :=
  repeat first
    [ apply steady_ret
    | apply steady_throw
    | apply steady_cells
    | apply steady_put
    | apply steady_of_outcome
    | apply steady_bind; [| intros ?]
    | apply steady_if
    | apply steady_forEach; intros ? ].

(** Schema synchronisation reads the clock twice and, that apart, touches
    the spreadsheet only. *)
Lemma getTableInfo_environment c w :
  snd (getTableInfo c w)
  = with_spreadsheet (spreadsheet (snd (getTableInfo c w))) (later 2 w).
Proof.
  unfold getTableInfo.
  rewrite (bind_run _ _ _ _ _ (new_instance_run c w)).
  match goal with |- context [mbind ?k (of_outcome ?r)] =>
    assert (Hrest : steady (mbind k (of_outcome r))) end.
  { apply steady_bind; [apply steady_of_outcome |]. intros class_props.
    apply steady_bind.
    - intros [ss cl ti en dr us]. reflexivity.
    - intros [sheet|].
      + unfold Sheet.getLastColumn, Sheet.getRowValues, Sheet.setRowValues,
          Sheet.deleteColumn, Sheet.flush. steady_steps.
      + apply steady_bind.
        * intros [ss cl ti en dr us]. unfold Sheet.insertSheet. simpl.
          destruct (ss !! class_name c); reflexivity.
        * intros sheet. unfold Sheet.appendRow, Sheet.flush. steady_steps. }
  apply Hrest.
Qed.

(** *** What [persist] does for any class and any spreadsheet *)

Lemma calm_not_Error {A} (r : outcome A) message : calm r -> r <> Throw (Error message).
Proof. intros Hr ->. exact Hr. Qed.

Lemma reads_only_state {S A} (m : M S A) s r s' : reads_only m -> m s = (r, s') -> s' = s.
Proof. intros Hm Hrun. specialize (Hm s). rewrite Hrun in Hm. exact Hm. Qed.

Lemma quiet_run {S A} (m : M S A) s e s' : quiet m -> m s = (Throw e, s') -> fault e.
Proof. intros Hm Hrun. specialize (Hm s). rewrite Hrun in Hm. exact Hm. Qed.

Section Rejected.
Context `{Engine}.

Lemma getUpdateArray_state c o w r f :
  getUpdateArray c (Frame o w) = (r, f) ->
  this f = o /\ env f = snd (getTableInfo c w).
Proof.
  unfold getUpdateArray. intros Hrun.
  destruct (getTableInfo c w) as [[info|e] w'] eqn:E.
  - rewrite (bind_run _ _ _ _ _ (lift_run _ _ o _ _ E)) in Hrun.
    apply reads_only_state in Hrun; [subst f; split; reflexivity |].
    reads_only_steps.
  - rewrite (bind_throw _ _ _ _ _ (lift_run _ _ o _ _ E)) in Hrun.
    inversion Hrun. split; reflexivity.
Qed.

Lemma new_props_any headers row o w new_id created created_by :
  instance_ok [] o ->
  exists row',
    foldM (fun updateArray prop =>
             let pos := indexOf headers (VStr (fst prop)) in
             assign_value (fst prop) (snd prop);;
             mret (store_cell updateArray pos (snd prop)))
          [("id", VStr new_id); ("created", created); ("created_by", created_by)]
          row (Frame o w)
    = (Ok row',
       Frame (set_value (set_value (set_value o "id" (VStr new_id)) "created" created)
                        "created_by" created_by) w).
Proof.
  intros Ho. cbn [foldM fst snd].
  assert (H1 : instance_ok [] (set_value o "id" (VStr new_id))).
  { apply instance_ok_set_value; [assumption |]. apply Ho. simpl. tauto. }
  assert (H2 : instance_ok [] (set_value (set_value o "id" (VStr new_id)) "created" created)).
  { apply instance_ok_set_value; [assumption |]. apply H1. simpl. tauto. }
  erewrite bind_run.
  2:{ erewrite bind_run by (apply assign_value_run, Ho; simpl; tauto). reflexivity. }
  erewrite bind_run.
  2:{ erewrite bind_run by (apply assign_value_run, H1; simpl; tauto). reflexivity. }
  erewrite bind_run.
  2:{ erewrite bind_run by (apply assign_value_run, H2; simpl; tauto). reflexivity. }
  eexists. reflexivity.
Qed.

(** A creation that validation rejects, whatever the sheet of the class
    holds: the instance is stamped and identified, and the spreadsheet is
    the one the second schema synchronisation left. *)
Lemma persist_create_rejected (c : class) (o : object) (w : world)
    (m : string) (f' : frame) :
  instance_ok [] o ->
  value_of o "id" = VStr "" ->
  persist c (Frame o w) = (Throw (Error m), f') ->
  let now := VDate (clock w (2 + ticks w)) in
  exists new_id,
    this f' = identified (stamped o now (active_user w)) new_id
    /\ value_of (this f') "id" = VStr new_id
    /\ (fair w -> String.length new_id = 8%nat /\ all_alnum new_id = true)
    /\ value_of (this f') "created" = now
    /\ value_of (this f') "modified" = now
    /\ value_of (this f') "created_by" = value_of (this f') "last_modified_by"
    /\ spreadsheet (env f')
       = spreadsheet (snd (getTableInfo c (later 1 (snd (getTableInfo c w)))))
    /\ generateId 8 (snd (getTableInfo c (later 1 (snd (getTableInfo c w)))))
       = (Ok new_id, env f')
    /\ fst (generateId 8 w) = Ok new_id.
Proof.
  intros Ho Hid Hrun now. unfold persist in Hrun.
  (* schema synchronisation *)
  pose proof (getTableInfo_environment c w) as Henv.
  destruct (getTableInfo c w) as [[info|e] w1] eqn:E1.
  2:{ rewrite (bind_throw _ _ _ _ _ (lift_run _ _ o _ _ E1)) in Hrun. inversion Hrun; subst.
      destruct (quiet_run _ _ _ _ (quiet_getTableInfo c) E1). }
  rewrite (bind_run _ _ _ _ _ (lift_run _ _ o _ _ E1)) in Hrun. cbn zeta in Hrun.
  cbn [snd] in Henv |- *.
  (* the stamps *)
  erewrite bind_run in Hrun by (apply lift_run; reflexivity).
  erewrite bind_run in Hrun by (apply assign_value_run, Ho; simpl; tauto).
  erewrite bind_run in Hrun by (apply lift_run; reflexivity).
  erewrite bind_run in Hrun
    by (apply stamp_user_run; apply is_column_set_value; apply Ho; simpl; tauto).
  assert (Hclock : clock w1 (ticks w1) = clock w (2 + ticks w)) by (rewrite Henv; reflexivity).
  assert (Huser : active_user w1 = active_user w) by (rewrite Henv; reflexivity).
  set (o1 := stamped o now (active_user w)) in *.
  match type of Hrun with context [Frame ?t ?e] =>
    change t with (stamped o (VDate (clock w1 (ticks w1))) (active_user w1)) in Hrun;
    change e with (later 1 w1) in Hrun end.
  assert (Hst : stamped o (VDate (clock w1 (ticks w1))) (active_user w1) = o1)
    by (unfold o1, now; rewrite Hclock, Huser; reflexivity).
  rewrite Hst in Hrun.
  assert (Ho1 : instance_ok [] o1) by apply instance_ok_stamped, Ho.
  (* the row *)
  match type of Hrun with context [getUpdateArray c] =>
    match type of Hrun with context [Frame o1 ?wb] =>
      destruct (getUpdateArray c (Frame o1 wb)) as [[row|e] f2] eqn:E2 end end.
  2:{ rewrite (bind_throw _ _ _ _ _ E2) in Hrun. inversion Hrun; subst.
      destruct (quiet_run _ _ _ _ (quiet_getUpdateArray c) E2). }
  rewrite (bind_run _ _ _ _ _ E2) in Hrun.
  destruct (getUpdateArray_state _ _ _ _ _ E2) as [Hthis Hworld].
  destruct f2 as [o1' w2]. cbn [this env] in Hthis, Hworld. subst o1'.
  (* the identifier *)
  erewrite bind_run in Hrun by (apply read_value_run, Ho1; simpl; tauto).
  rewrite (value_of_get o o1 "id") in Hrun by (apply stamped_get; discriminate).
  rewrite Hid in Hrun. cbn [strict_eq String.eqb Ascii.eqb Bool.eqb] in Hrun.
  destruct (generateId_loop_ends 8 8 0 "" w2 eq_refl) as (new_id & w3 & Hgen & Hss).
  assert (Hlift : lift (generateId 8) (Frame o1 w2) = (Ok new_id, Frame o1 w3))
    by (apply lift_run; exact Hgen).
  rewrite bind_assoc, (bind_run _ _ _ _ _ Hlift) in Hrun.
  rewrite bind_assoc in Hrun.
  erewrite bind_run in Hrun by (apply read_value_run, Ho1; simpl; tauto).
  rewrite bind_assoc in Hrun.
  erewrite bind_run in Hrun by (apply read_value_run, Ho1; simpl; tauto).
  destruct (new_props_any (snd info) row o1 w3 new_id (value_of o1 "modified")
              (value_of o1 "last_modified_by") Ho1) as (row' & Hprops).
  fold (identified o1 new_id) in Hprops.
  rewrite bind_assoc in Hrun. rewrite (bind_run _ _ _ _ _ Hprops) in Hrun.
  set (o2 := identified o1 new_id) in *.
  (* validation *)
  destruct (checkRequired (snd info) row' (Frame o2 w3)) as [[wrongs|e] f4] eqn:E4.
  2:{ rewrite bind_assoc, (bind_throw _ _ _ _ _ E4) in Hrun. inversion Hrun; subst.
      destruct (quiet_run _ _ _ _ (quiet_checkRequired _ _) E4). }
  pose proof (reads_only_state _ _ _ _ (reads_only_checkRequired _ _) E4) as ->.
  rewrite bind_assoc, (bind_run _ _ _ _ _ E4) in Hrun.
  destruct (0 <? length wrongs)%nat.
  2:{ exfalso.
      match type of Hrun with ?prog _ = _ => assert (Hq : quiet prog) end.
      { unfold Sheet.appendRow, Sheet.getLastRow, Sheet.flush. quiet_calls. }
      specialize (Hq (Frame o2 w3)). rewrite Hrun in Hq. exact Hq. }
  inversion Hrun; subst m f'. clear Hrun.
  exists new_id. cbn [this env].
  split; [reflexivity |].
  unfold o2. rewrite !(value_of_identified []) by exact Ho1.
  cbn [String.eqb Ascii.eqb Bool.eqb].
  unfold o1. rewrite !(value_of_stamped_modified []) by exact Ho.
  split; [reflexivity |]. split.
  { intros Hfair.
    assert (Hfair2 : fair w2).
    { intros j. rewrite Hworld, getTableInfo_environment. cbn [with_spreadsheet entropy later].
      rewrite Henv. apply Hfair. }
    destruct (generateId_loop_runs 8 8 0 "" w2 eq_refl Hfair2 eq_refl)
      as (s & w' & Hrun' & Hlen & Hal & _).
    unfold generateId in Hgen. cbn [Z.leb Z.compare] in Hgen.
    rewrite Hrun' in Hgen. inversion Hgen; subst. split; assumption. }
  split; [reflexivity |]. split; [reflexivity |]. split; [reflexivity |].
  split; [rewrite Hss, Hworld; reflexivity |].
  split; [rewrite <- Hworld; exact Hgen |].
  assert (Hdraws : fst (generateId 8 w) = fst (generateId 8 w2)).
  { unfold generateId. cbn [Z.leb Z.compare].
    apply (generateId_loop_same_draws 8); [reflexivity | |];
      rewrite Hworld, getTableInfo_environment; cbn [with_spreadsheet entropy draws later];
      rewrite Henv; reflexivity. }
  rewrite Hdraws. change (fst (generateId_loop 8 0 "" w2) = Ok new_id).
  rewrite Hgen. reflexivity.
Qed.

Lemma instance_ok_implicit props o : instance_ok props o -> instance_ok [] o.
Proof.
  intros Ho k Hk. apply Ho. rewrite app_nil_r in Hk. apply in_or_app. left. exact Hk.
Qed.

(** C9.  When [persist] creates (the identifier is empty) and ends in an
    [Error], which only the validation of the required columns throws,
    the instance already carries the generated identifier, which is the
    string [generateId(8)] returns for the draws of [Math.random] at the
    call, of 8 alphanumeric characters when [Math.random] draws from
    [0, 1), and the stamps [created], equal to [modified], the time
    [persist] read, and [created_by], equal to [last_modified_by], the
    active user.  No row was written: the environment is as [generateId]
    left it after the second schema synchronisation, with the spreadsheet
    of that synchronisation, which for a class whose sheet is absent or in
    step with it is the spreadsheet with the sheet of the class created;
    the message then lists the required columns that are unset. *)
Theorem persist_rejected_create_keeps_stamps (c : class) (o : object) (w : world)
    (m : string) (f' : frame) :
  instance_ok [] o ->
  value_of o "id" = VStr "" ->
  persist c (Frame o w) = (Throw (Error m), f') ->
  let now := VDate (clock w (2 + ticks w)) in
  (exists new_id,
     this f' = identified (stamped o now (active_user w)) new_id
     /\ value_of (this f') "id" = VStr new_id
     /\ (fair w -> String.length new_id = 8%nat /\ all_alnum new_id = true)
     /\ value_of (this f') "created" = now
     /\ value_of (this f') "modified" = now
     /\ value_of (this f') "created_by" = value_of (this f') "last_modified_by"
     /\ (forall email, active_user w = Some email ->
                       value_of (this f') "created_by" = VStr email)
     /\ spreadsheet (env f')
        = spreadsheet (snd (getTableInfo c (later 1 (snd (getTableInfo c w)))))
     /\ generateId 8 (snd (getTableInfo c (later 1 (snd (getTableInfo c w)))))
        = (Ok new_id, env f')
     /\ fst (generateId 8 w) = Ok new_id)
  /\ (forall props, ready c props (spreadsheet w) -> instance_ok props o ->
        spreadsheet (env f') = synchronized c props (spreadsheet w)
        /\ m = required_message (VStr <$> missing_required props (this f'))).
Proof.
  intros Ho Hid Hrun now. split.
  - destruct (persist_create_rejected c o w m f' Ho Hid Hrun)
      as (new_id & Hthis & Hnew & Hfair & Hcreated & Hmodified & Hby & Hss & Hgen & Hdraws).
    exists new_id. repeat (split; [assumption |]).
    split; [| split; [exact Hss | split; [exact Hgen | exact Hdraws]]].
    intros email Huser. rewrite Hthis.
    rewrite (value_of_identified []) by apply instance_ok_stamped, Ho.
    cbn [String.eqb Ascii.eqb Bool.eqb]. rewrite Huser.
    apply (value_of_stamped_user []), Ho.
  - intros props Hready Hprops.
    destruct (persist_create c props o w Hready Hprops Hid)
      as (new_id & w2 & _ & Hss & Hreject & Haccept).
    cbv zeta in Hreject, Haccept.
    destruct (missing_required props
                (identified (stamped o (VDate (clock w (2 + ticks w))) (active_user w)) new_id))
      as [|h hs] eqn:Em.
    + destruct (Haccept eq_refl) as (n & w3 & Hok). rewrite Hok in Hrun. discriminate.
    + rewrite Hreject in Hrun by discriminate. inversion Hrun; subst m f'.
      cbn [this env]. split; [exact Hss |].
      change (S (S (ticks w))) with (2 + ticks w)%nat. rewrite Em. reflexivity.
Qed.

End Rejected.

(** *** The sample class and its instances *)

Lemma Item_declares : declares Example.Item Example.Item_columns.
Proof. vm_compute. reflexivity. Qed.

Lemma Item_ready_without_sheet w :
  spreadsheet w !! "Item" = None -> ready Example.Item Example.Item_columns (spreadsheet w).
Proof.
  intros Hw. split; [exact Item_declares |]. split; [discriminate |]. left. exact Hw.
Qed.

Lemma Item_ready_removed :
  ready Example.Item Example.Item_columns (spreadsheet (env Example.removed)).
Proof.
  split; [exact Item_declares |]. split; [discriminate |]. right.
  eexists. split; vm_compute; reflexivity.
Qed.

Lemma Example_fair user : fair (Example.empty user).
Proof. intros k. split; [discriminate | reflexivity]. Qed.

Lemma Item_instance_ok name quantity user o w :
  Example.new_Item name quantity (Example.empty user) = (Ok o, w) ->
  instance_ok Example.Item_columns o.
Proof.
  intros Hnew. inversion Hnew; subst o w. clear Hnew.
  intros k Hk. simpl in Hk.
  repeat (destruct Hk as [<-|Hk]; [vm_compute; repeat eexists |]). destruct Hk.
Qed.

Lemma Item_instance_ok_removed : instance_ok Example.Item_columns (this Example.removed).
Proof.
  intros k Hk. simpl in Hk.
  repeat (destruct Hk as [<-|Hk]; [vm_compute; repeat eexists |]). destruct Hk.
Qed.

(** *** The statements that fail, at an input *)



(** C5 as stated fails: the header row seeded for [GSTable] itself has five
    names, and [row_number] is not among them. *)
Lemma seeded_header_row_has_no_row_number :
  exists w',
    getTableInfo (MkClass "GSTable" []) (Example.empty None)
    = (Ok ("GSTable", Example.implicit_headers), w')
    /\ spreadsheet w' !! "GSTable" = Some [Example.implicit_headers]
    /\ ~ In (VStr "row_number") Example.implicit_headers.
Proof.
  eexists. split; [vm_compute; reflexivity |]. split; [vm_compute; reflexivity |].
  simpl. intuition discriminate.
Qed.

(** C10 as stated fails: under a header cell named [row_number] the record
    of the first data row has the cell as its [row_number], not 2. *)
Lemma row_number_header_overrides_the_row_number :
  exists r,
    @fromRawDataToArrayOfObject Example.engine [[VStr "row_number"]; [VNum 7]]
    = (Ok [r], [[VNum 7]])
    /\ r !! "row_number" = Some (VNum 7)
    /\ VNum 7 <> VNum (0 + 2).
Proof.
  eexists. split; [reflexivity |]. split; [vm_compute; reflexivity | discriminate].
Qed.

(** *** The code at the inputs where it departs from the statement *)

(** C2, where the code departs from it.  The sheet has the two columns
    [colour] and [size] that the class does not declare.  [getTableInfo]
    deletes [colour] and then the column at the position [size] had before
    that deletion, which by then is the declared column [id]: [size] stays
    in the sheet and [id] is gone from it. *)
Theorem getTableInfo_deletes_at_stale_positions :
  exists headers w' header_row rows,
    getTableInfo Example.Item Example.legacy = (Ok ("Item", headers), w')
    /\ spreadsheet w' !! "Item" = Some (header_row :: rows)
    /\ header_row = [VStr "size"; VStr "created"; VStr "modified"; VStr "created_by";
                     VStr "last_modified_by"; VStr "name"; VStr "quantity"]
    /\ In (VStr "size") header_row
    /\ ~ In (VStr "id") header_row.
Proof.
  do 4 eexists. split; [vm_compute; reflexivity |]. split; [vm_compute; reflexivity |].
  split; [reflexivity |]. split; simpl; [tauto | intuition discriminate].
Qed.

(** C3, where the code departs from it.  The sheet lacks the declared
    columns [name] and [quantity].  [getTableInfo] appends both to the
    header row of the sheet and returns the five headers it read before:
    the array [headers.concat(new_props)] builds is dropped. *)
Theorem getTableInfo_returns_the_headers_it_read :
  exists headers w' header_row rows,
    getTableInfo Example.Item Example.outdated = (Ok ("Item", headers), w')
    /\ spreadsheet w' !! "Item" = Some (header_row :: rows)
    /\ headers = Example.implicit_headers
    /\ header_row = Example.implicit_headers ++ [VStr "name"; VStr "quantity"]
    /\ headers <> header_row.
Proof.
  do 4 eexists. split; [vm_compute; reflexivity |]. split; [vm_compute; reflexivity |].
  split; [reflexivity |]. split; [reflexivity | discriminate].
Qed.

(** C8, where the code departs from it.  [findById] for an identifier that
    no stored item has returns undefined, which is what [Array.prototype.find]
    returns on a miss, and not null; [expand] on a foreign key without a
    match ends without an error and stores undefined under [item_]. *)
Theorem findById_miss_returns_undefined :
  fst (@findById Example.engine Example.Item (VStr "missing") Example.stocked) = Ok VUndefined
  /\ exists order w f',
       Example.new_Order (VStr "missing") Example.stocked = (Ok order, w)
       /\ @expand Example.engine (Frame order w) = (Ok tt, f')
       /\ In "item_" (keys (this f'))
       /\ get (this f') "item_" = VUndefined
       /\ VUndefined <> VNull.
Proof.
  split; [vm_compute; reflexivity |].
  do 3 eexists. split; [reflexivity |]. split; [vm_compute; reflexivity |].
  split; [simpl; tauto |]. split; [reflexivity | discriminate].
Qed.

(** *** The theorems at an input *)



Lemma persist_rejected_create_keeps_stamps_witness :
  let f' := snd (@persist Example.engine Example.Item Example.unnamed) in
  let m := "'name' are marked as 'required'" in
  (exists new_id,
     this f' = identified (stamped (this Example.unnamed) (VDate 1004) Example.user) new_id
     /\ value_of (this f') "id" = VStr new_id
     /\ (fair (env Example.unnamed) -> String.length new_id = 8%nat /\ all_alnum new_id = true)
     /\ value_of (this f') "created" = VDate 1004
     /\ value_of (this f') "modified" = VDate 1004
     /\ value_of (this f') "created_by" = value_of (this f') "last_modified_by"
     /\ (forall email, Example.user = Some email -> value_of (this f') "created_by" = VStr email)
     /\ spreadsheet (env f')
        = spreadsheet (snd (getTableInfo Example.Item
                              (later 1 (snd (getTableInfo Example.Item (env Example.unnamed))))))
     /\ generateId 8 (snd (getTableInfo Example.Item
                             (later 1 (snd (getTableInfo Example.Item (env Example.unnamed))))))
        = (Ok new_id, env f')
     /\ fst (generateId 8 (env Example.unnamed)) = Ok new_id)
  /\ (forall props,
        ready Example.Item props (spreadsheet (env Example.unnamed)) ->
        instance_ok props (this Example.unnamed) ->
        spreadsheet (env f') = synchronized Example.Item props (spreadsheet (env Example.unnamed))
        /\ m = @required_message Example.engine (VStr <$> missing_required props (this f'))).
Proof.
  apply (@persist_rejected_create_keeps_stamps Example.engine Example.Item
           (this Example.unnamed) (env Example.unnamed)).
  - apply (instance_ok_implicit Example.Item_columns). eapply Item_instance_ok. reflexivity.
  - reflexivity.
  - vm_compute. reflexivity.
Defined.

Lemma getTableInfo_seeds_the_header_row_witness :
  exists w',
    getTableInfo Example.Item (Example.empty None)
    = (Ok ("Item", VStr <$> (implicit_columns ++ declared_columns Example.Item)), w')
    /\ spreadsheet w'
       = <["Item" := [VStr <$> (implicit_columns ++ declared_columns Example.Item)]]>
           (spreadsheet (Example.empty None))
    /\ "row_number" ∉ implicit_columns ++ declared_columns Example.Item.
Proof.
  apply (getTableInfo_seeds_the_header_row Example.Item (Example.empty None)).
  - split; [| split; [| split]].
    + apply (bool_decide_unpack _). vm_compute. exact I.
    + intros k Hk Hin. apply list_elem_of_In in Hk. apply list_elem_of_In in Hin.
      simpl in Hk. destruct Hk as [<-|[<-|[]]]; simpl in Hin; intuition discriminate.
    + intros kv Hkv. apply list_elem_of_In in Hkv. simpl in Hkv.
      destruct Hkv as [<-|[<-|[]]]; discriminate.
    + intros k Hk. apply list_elem_of_In in Hk. simpl in Hk.
      destruct Hk as [<-|[<-|[]]]; reflexivity.
  - reflexivity.
Defined.

Lemma filterByConsitions_empty_and_plain_witness :
  @filterByConsitions Example.engine Example.Item ∅ Example.stocked = (Ok [], Example.stocked)
  /\ @filterByConsitions Example.engine Example.Item {[ "quantity" := Plain (VNum 5) ]}
       Example.stocked
     = @findAll Example.engine Example.Item Example.stocked.
Proof.
  destruct (@filterByConsitions_empty_and_plain Example.engine Example.Item
              {[ "quantity" := Plain (VNum 5) ]} Example.stocked) as [Hempty Hplain].
  split; [exact Hempty |]. apply Hplain.
  - intros Heq. apply (f_equal (fun m : gmap string condition => m !! "quantity")) in Heq.
    rewrite lookup_singleton_eq, lookup_empty in Heq. discriminate.
  - intros k cond Hk. apply lookup_singleton_Some in Hk as [_ <-]. exists (VNum 5). reflexivity.
Defined.


Lemma fromRawDataToArrayOfObject_shifts_the_header_row_witness :
  exists records,
    @fromRawDataToArrayOfObject Example.engine
      [[VStr "name"; VStr "quantity"]; [VStr "widget"; VNum 5]]
    = (Ok records, [[VStr "widget"; VNum 5]])
    /\ forall r, records !! 0%nat = Some r ->
                 r !! "row_number" = Some (VNum 2)
                 /\ r !! "name" = Some (VStr "widget")
                 /\ r !! "quantity" = Some (VNum 5).
Proof.
  destruct (@fromRawDataToArrayOfObject_shifts_the_header_row Example.engine
              [[VStr "name"; VStr "quantity"]; [VStr "widget"; VNum 5]])
    as (records & Hrun & _ & Hrows).
  exists records. split; [exact Hrun |]. intros r Hr.
  destruct (Hrows 0%nat [VStr "widget"; VNum 5] r eq_refl Hr) as [Hnumber Hcells].
  split; [| split].
  - apply Hnumber. intros [|[|j]] Hj; [discriminate | discriminate | simpl in Hj; lia].
  - apply (Hcells 0%nat (VStr "widget") eq_refl).
    + discriminate.
    + intros [|[|j']] Hj'; [lia | discriminate | simpl in Hj'; lia].
  - apply (Hcells 1%nat (VNum 5) eq_refl).
    + discriminate.
    + intros j' Hj'. simpl in Hj'. lia.
Defined.

(** * Further properties of the code *)

(** ** Column definitions *)

(** The value a factory stores for the argument [v]: [v || otherwise]. *)
Lemma or_else_unset v otherwise :
  unset (or_else v otherwise) = if truthy v then false else unset otherwise.
Proof.
  unfold or_else. destruct v as [| |[]|n|s|t|x ty rq cls|ctor own]; try reflexivity.
  - simpl. destruct (n =? 0); reflexivity.
  - simpl. destruct s; reflexivity.
Qed.

(** X1.  Whatever arguments a factory of [COLUMN()] is given, [isColumn]
    accepts what it builds, and the column is required when the argument
    [required] is left out.  The test of [checkRequired] for a missing
    value, on the value a factory stored: a [DATE], [TIME], [STRING] or
    [FOREIGNKEY] column is missing exactly when the argument was falsy, a
    [NUMBER] or [BOOLEAN] column never is. *)
Theorem COLUMN_factories_build_columns (v : value) (required : option bool) (cls : class) :
  let built := [COLUMN.DATE v required; COLUMN.TIME v required; COLUMN.STRING v required;
                COLUMN.NUMBER v required; COLUMN.BOOLEAN v required;
                COLUMN.FOREIGNKEY v cls required] in
  Forall (fun col => isColumn col = Ok true
                     /\ dot_required col = Ok (VBool (default true required))) built
  /\ Forall (fun col => exists x, dot_value col = Ok x /\ unset x = negb (truthy v))
            [COLUMN.DATE v required; COLUMN.TIME v required; COLUMN.STRING v required;
             COLUMN.FOREIGNKEY v cls required]
  /\ Forall (fun col => exists x, dot_value col = Ok x /\ unset x = false)
            [COLUMN.NUMBER v required; COLUMN.BOOLEAN v required].
Proof.
  split; [| split].
  - repeat constructor.
  - repeat (constructor;
              [eexists; split; [reflexivity |];
               rewrite or_else_unset; destruct (truthy v); reflexivity |]).
    constructor.
  - repeat (constructor;
              [eexists; split; [reflexivity |];
               rewrite or_else_unset; destruct (truthy v); reflexivity |]).
    constructor.
Qed.

(** ** [isColumn] *)

(** The decimal numeral of an integer does not start with an underscore. *)
Lemma numeral_not_member (i : Decimal.int) rest :
  NilZero.string_of_int i <> String "_" rest.
Proof. destruct i as [d|d]; destruct d; discriminate. Qed.

Lemma includes_numerals (l : list nat) rest :
  includes ((fun i => NilZero.string_of_int (Z.to_int (Z.of_nat i))) <$> l) (String "_" rest)
  = false.
Proof.
  induction l as [|i l IH]; [reflexivity |].
  cbn [fmap list_fmap includes existsb]. unfold includes in IH. rewrite IH, orb_false_r.
  apply String.eqb_neq. intros Heq. symmetry in Heq. exact (numeral_not_member _ _ Heq).
Qed.

Lemma isColumn_instance ctor own : isColumn (VEnt ctor own) = Ok (holds_members own).
Proof.
  unfold isColumn, holds_members. cbn [Object_keys mbind outcome_bind].
  destruct own as [|kv own]; [reflexivity |].
  cbn [keys map length Nat.eqb List.filter negb].
  destruct (includes _ "_value"), (includes _ "_type"), (includes _ "_required"); reflexivity.
Qed.

Lemma isColumn_true_inv v :
  isColumn v = Ok true ->
  is_column v \/ exists ctor own, v = VEnt ctor own /\ holds_members own = true.
Proof.
  destruct v as [| |b|n|s|t|x ty rq cls|ctor own]; try discriminate.
  - unfold isColumn. cbn [Object_keys mbind outcome_bind].
    destruct (length _ =? 0)%nat; [discriminate |].
    cbn [List.filter]. rewrite !includes_numerals. discriminate.
  - intros _. left. repeat eexists.
  - rewrite isColumn_instance. intros Hm. right. exists ctor, own.
    split; [reflexivity | congruence].
Qed.

(** X2.  [isColumn] throws for null only, and then a [TypeError], since
    [Object.keys(null)] throws; undefined takes the default parameter and
    is no column.  It accepts exactly the objects the factories build and
    the instances that hold [_value], [_type] and [_required] among their
    own properties: no primitive, no string and no [Date] is a column. *)
Theorem isColumn_accepts_objects_with_the_three_members (v : value) :
  (isColumn v = Throw TypeError <-> v = VNull)
  /\ (isColumn v = Ok true <->
      is_column v \/ exists ctor own, v = VEnt ctor own /\ holds_members own = true)
  /\ (forall e, isColumn v = Throw e -> e = TypeError).
Proof.
  destruct v as [| |b|n|s|t|x ty rq cls|ctor own].
  - repeat split; try discriminate.
    + intros [(? & ? & ? & ? & ?) | (? & ? & ? & _)]; discriminate.
  - repeat split; try discriminate; try reflexivity.
    + intros [(? & ? & ? & ? & ?) | (? & ? & ? & _)]; discriminate.
    + intros e He. inversion He. reflexivity.
  - repeat split; try discriminate.
    intros [(? & ? & ? & ? & ?) | (? & ? & ? & _)]; discriminate.
  - repeat split; try discriminate.
    intros [(? & ? & ? & ? & ?) | (? & ? & ? & _)]; discriminate.
  - assert (Hs : isColumn (VStr s) = Ok false).
    { unfold isColumn. cbn [Object_keys mbind outcome_bind].
      destruct (length _ =? 0)%nat; [reflexivity |].
      cbn [List.filter]. rewrite !includes_numerals. reflexivity. }
    rewrite Hs. repeat split; try discriminate.
    intros [(? & ? & ? & ? & ?) | (? & ? & ? & _)]; discriminate.
  - repeat split; try discriminate.
    intros [(? & ? & ? & ? & ?) | (? & ? & ? & _)]; discriminate.
  - assert (Hc : isColumn (VCol x ty rq cls) = Ok true) by (destruct cls; reflexivity).
    rewrite Hc. repeat split; try discriminate.
    intros _. left. repeat eexists.
  - rewrite isColumn_instance. repeat split; try discriminate.
    + intros Hm. right. exists ctor, own. split; [reflexivity | congruence].
    + intros [(? & ? & ? & ? & ?) | (? & ? & Heq & Hm)]; [discriminate |].
      inversion Heq; subst. rewrite Hm. reflexivity.
Qed.

(** ** [setValue] and [getValue] *)

Lemma keys_set_member o k v : k ∈ keys o -> keys (set o k v) = keys o.
Proof.
  induction o as [|[k' v'] o IH]; intros Hk; [inversion Hk |].
  cbn [set]. destruct (String.eqb k' k) eqn:E.
  - apply String.eqb_eq in E. subst. reflexivity.
  - cbn [keys map fst]. f_equal. apply IH.
    apply elem_of_cons in Hk as [->|Hk]; [| exact Hk].
    simpl in E. rewrite String.eqb_refl in E. discriminate.
Qed.

Lemma get_member_of_keys o k : get o k <> VUndefined -> k ∈ keys o.
Proof.
  induction o as [|[k' v'] o IH]; intros Hk; [simpl in Hk; congruence |].
  cbn [get] in Hk. destruct (String.eqb k' k) eqn:E.
  - apply String.eqb_eq in E. subst. left.
  - right. apply IH, Hk.
Qed.

(** X3.  On a property that holds a column, [setValue(key, v)] followed by
    [getValue(key)] returns [v].  The call keeps the instance's properties
    and their order, the column's [_required] flag and every other
    property, and it touches nothing outside the instance. *)
Theorem setValue_then_getValue (key : string) (v : value) (o : object) (w : world) :
  is_column (get o key) ->
  exists o',
    (setValue key v;; getValue key) (Frame o w) = (Ok v, Frame o' w)
    /\ keys o' = keys o
    /\ is_column (get o' key)
    /\ required_of o' key = required_of o key
    /\ forall k, k <> key -> get o' k = get o k.
Proof.
  intros Hk. exists (set_value o key v).
  assert (Hk' : is_column (get (set_value o key v) key))
    by (apply is_column_set_value; assumption).
  split; [| split; [| split; [| split]]].
  - unfold setValue, getValue.
    rewrite (bind_run _ _ _ _ _ (assign_value_run key v o w Hk)).
    rewrite (read_value_run key _ w Hk'), value_of_set_value by exact Hk.
    rewrite String.eqb_refl. reflexivity.
  - destruct (set_value_column o key v Hk) as (x & ty & rq & cls & Hget & ->).
    apply keys_set_member, get_member_of_keys. rewrite Hget. discriminate.
  - exact Hk'.
  - apply required_of_set_value, Hk.
  - intros k Hne. apply get_set_value_ne. congruence.
Qed.

(** ** [fromJson] *)

Lemma foldl_set_not_null (d : object) : forall o,
  (forall k, get o k <> VNull) -> (forall kv, kv ∈ d -> snd kv <> VNull) ->
  forall k, get (foldl (fun o kv => set o (fst kv) (snd kv)) o d) k <> VNull.
Proof.
  induction d as [|[k' v'] d IH]; intros o Ho Hd k; [apply Ho |].
  cbn [foldl fst snd]. apply IH.
  - intros k0. destruct (String.eqb_spec k' k0) as [->|Hne].
    + rewrite get_set_eq. apply (Hd (k0, v')). left.
    + rewrite get_set_ne by exact Hne. apply Ho.
  - intros kv Hkv. apply Hd. right. exact Hkv.
Qed.

Lemma blank_not_null c a b :
  a <> VNull -> b <> VNull -> (forall kv, kv ∈ class_declared c -> snd kv <> VNull) ->
  forall k, get (blank c a b) k <> VNull.
Proof.
  intros Ha Hb Hd. unfold blank. apply foldl_set_not_null; [| exact Hd].
  intros k. cbn [get].
  repeat (match goal with |- context [String.eqb ?x k] => destruct (String.eqb x k) end;
          [unfold COLUMN.STRING, COLUMN.DATE; discriminate |]).
  discriminate.
Qed.

Lemma isColumn_with_value p x : isColumn p = Ok true -> exists p', with_value p x = Ok p'.
Proof.
  intros Hp. apply isColumn_true_inv in Hp.
  destruct Hp as [(? & ? & ? & ? & ->) | (? & ? & -> & _)]; eexists; reflexivity.
Qed.

Lemma fromJson_loop (rawObject : record) w : forall ks o,
  NoDup ks -> (forall k, k ∈ ks -> get o k <> VNull) ->
  forEach (fun property =>
             p ← read property;
             b ← of_outcome (isColumn p);
             if b : bool then assign_value property (field rawObject property)
             else write property (field rawObject property))
          ks (Frame o w)
  = (Ok tt, Frame (foldl (fill rawObject) o ks) w).
Proof.
  induction ks as [|k ks IH]; intros o Hnd Hnull; [reflexivity |].
  apply NoDup_cons in Hnd as [Hk Hnd].
  cbn [forEach foldl].
  assert (Hstep : (p ← read k;
                   b ← of_outcome (isColumn p);
                   if b : bool then assign_value k (field rawObject k)
                   else write k (field rawObject k)) (Frame o w)
                  = (Ok tt, Frame (fill rawObject o k) w)).
  { unfold fill, filled, read, assign_value, read, write, of_outcome, mbind, M_bind.
    cbn [this env].
    destruct (isColumn_total (get o k)) as [b Hb]; [apply Hnull; left |].
    rewrite Hb. destruct b; [| reflexivity].
    destruct (isColumn_with_value _ (field rawObject k) Hb) as [p' Hp'].
    cbn [this env]. rewrite Hp'. reflexivity. }
  rewrite (bind_run _ _ _ _ _ Hstep). apply IH; [exact Hnd |].
  intros k' Hk'. unfold fill. rewrite get_set_ne by (intros ->; contradiction).
  apply Hnull. right. exact Hk'.
Qed.

Lemma foldl_fill_other rawObject k : forall ks o,
  k ∉ ks -> get (foldl (fill rawObject) o ks) k = get o k.
Proof.
  induction ks as [|k' ks IH]; intros o Hk; [reflexivity |].
  cbn [foldl]. rewrite IH by (intros Hin; apply Hk; right; exact Hin).
  unfold fill. apply get_set_ne. intros ->. apply Hk. left.
Qed.

Lemma foldl_fill_member rawObject k : forall ks o,
  NoDup ks -> k ∈ ks ->
  get (foldl (fill rawObject) o ks) k = filled (get o k) (field rawObject k).
Proof.
  induction ks as [|k' ks IH]; intros o Hnd Hk; [inversion Hk |].
  apply NoDup_cons in Hnd as [Hk' Hnd]. cbn [foldl].
  apply elem_of_cons in Hk as [->|Hk].
  - rewrite foldl_fill_other by exact Hk'. unfold fill. apply get_set_eq.
  - rewrite IH by assumption. unfold fill at 1.
    rewrite get_set_ne by (intros ->; contradiction). reflexivity.
Qed.

Lemma foldl_fill_keys rawObject : forall ks o,
  (forall k, k ∈ ks -> k ∈ keys o) -> keys (foldl (fill rawObject) o ks) = keys o.
Proof.
  induction ks as [|k ks IH]; intros o Hks; [reflexivity |].
  cbn [foldl].
  assert (Hk : keys (fill rawObject o k) = keys o)
    by (apply keys_set_member, Hks; left).
  rewrite IH; [exact Hk |]. intros k' Hk'. rewrite Hk. apply Hks. right. exact Hk'.
Qed.

Lemma fromJson_run c rawObject w :
  (forall kv, kv ∈ class_declared c -> snd kv <> VNull) ->
  let b := blank c (VDate (clock w (ticks w))) (VDate (clock w (S (ticks w)))) in
  fromJson c rawObject w = (Ok (foldl (fill rawObject) b (keys b)), later 2 w).
Proof.
  intros Hd b. unfold fromJson.
  rewrite (bind_run _ _ _ _ _ (new_instance_run c w)). fold b.
  unfold with_this, mbind at 1, M_bind.
  rewrite fromJson_loop.
  - reflexivity.
  - apply keys_blank_NoDup.
  - intros k _. apply blank_not_null; [discriminate | discriminate | exact Hd].
Qed.


(** ** [findAll] *)

Lemma column_names_member o : forall ks props,
  foldr (fun prop rest =>
           b ← isColumn (get o prop); names ← rest;
           mret (if b : bool then prop :: names else names)) (Ok []) ks = Ok props ->
  NoDup ks ->
  forall k, k ∈ ks -> (k ∈ props <-> isColumn (get o k) = Ok true)
                      /\ exists b, isColumn (get o k) = Ok b.
Proof.
  induction ks as [|k0 ks IH]; simpl; intros props Hp Hnd k Hk; [inversion Hk |].
  apply NoDup_cons in Hnd as [Hk0 Hnd].
  destruct (isColumn (get o k0)) as [b|e] eqn:Eb; simpl in Hp; [| discriminate].
  match type of Hp with context [foldr ?f ?z ks] =>
    destruct (foldr f z ks) as [names|e] eqn:E end; simpl in Hp; [| discriminate].
  pose proof (column_names_sublist o ks names E) as Hsub.
  inversion Hp; subst props. clear Hp.
  destruct (String.eqb_spec k k0) as [->|Hne].
  - split; [| eauto]. rewrite Eb. destruct b.
    + split; [reflexivity | intros _; left].
    + split; [| discriminate]. intros Hin. exfalso.
      apply Hk0. eapply elem_of_sublist; eassumption.
  - apply elem_of_cons in Hk as [->|Hk]; [congruence |].
    destruct (IH names eq_refl Hnd k Hk) as [Hiff Hex]. split; [| exact Hex].
    rewrite <- Hiff. destruct b; [| reflexivity].
    split; [intros Hin; apply elem_of_cons in Hin as [->|Hin]; [congruence | exact Hin]
           | intros Hin; right; exact Hin].
Qed.

Lemma declares_member c props a b k :
  declares c props -> k ∈ keys (blank c (VDate a) (VDate b)) ->
  (k ∈ props <-> isColumn (get (blank c (VDate a) (VDate b)) k) = Ok true)
  /\ exists is_col, isColumn (get (blank c (VDate a) (VDate b)) k) = Ok is_col.
Proof.
  intros Hd Hk. apply (column_names_member _ (keys (blank c (VDate a) (VDate b)))).
  - apply (column_names_blank c a b props Hd).
  - apply keys_blank_NoDup.
  - exact Hk.
Qed.

Lemma declares_keys c props a b k :
  declares c props -> k ∈ props -> k ∈ keys (blank c (VDate a) (VDate b)).
Proof.
  intros Hd Hk. pose proof (column_names_blank c a b props Hd) as Hnames.
  eapply elem_of_sublist; [exact Hk |]. eapply column_names_sublist, Hnames.
Qed.

Lemma row_number_key c a b : "row_number" ∈ keys (blank c a b).
Proof.
  unfold blank.
  assert (Hgen : forall d o, "row_number" ∈ keys o ->
                             "row_number" ∈ keys (foldl (fun o kv => set o (fst kv) (snd kv)) o d)).
  { induction d as [|[k v] d IH]; intros o Ho; [exact Ho |].
    cbn [foldl fst snd]. apply IH.
    destruct (decide (k ∈ keys o)) as [Hin|Hout].
    - rewrite keys_set_member by exact Hin. exact Ho.
    - rewrite set_fresh by exact Hout. unfold keys. rewrite map_app.
      apply elem_of_app. left. exact Ho. }
  apply Hgen. unfold keys. simpl. right. left.
Qed.

(** The value of a column that [fromJson] filled. *)
Lemma dot_value_filled p x : isColumn p = Ok true -> dot_value (filled p x) = Ok x.
Proof.
  intros Hp. unfold filled. rewrite Hp.
  apply isColumn_true_inv in Hp as [(? & ? & ? & ? & ->) | (? & own & -> & _)].
  - reflexivity.
  - cbn [with_value dot_value]. rewrite get_set_eq. reflexivity.
Qed.

Lemma entity_value c props rawObject a b h :
  declares c props -> h ∈ props ->
  let blank_instance := blank c (VDate a) (VDate b) in
  dot_value (get (foldl (fill rawObject) blank_instance (keys blank_instance)) h)
  = Ok (field rawObject h).
Proof.
  intros Hd Hh o.
  assert (Hk : h ∈ keys o) by (apply (declares_keys c props); assumption).
  rewrite foldl_fill_member by (apply keys_blank_NoDup || exact Hk).
  apply dot_value_filled.
  apply (declares_member c props a b h Hd Hk). exact Hh.
Qed.

Lemma entity_plain c props rawObject a b k :
  declares c props -> k ∈ keys (blank c (VDate a) (VDate b)) -> k ∉ props ->
  let blank_instance := blank c (VDate a) (VDate b) in
  get (foldl (fill rawObject) blank_instance (keys blank_instance)) k = field rawObject k.
Proof.
  intros Hd Hk Hout o.
  rewrite foldl_fill_member by (apply keys_blank_NoDup || exact Hk).
  destruct (declares_member c props a b k Hd Hk) as [Hiff [is_col Hb]].
  unfold filled. fold o in Hb, Hiff. rewrite Hb. destruct is_col; [| reflexivity].
  exfalso. apply Hout, Hiff, Hb.
Qed.

Lemma length_pad n row : length (Sheet.pad n row) = n.
Proof.
  unfold Sheet.pad. rewrite length_take, length_app, length_replicate. lia.
Qed.

Lemma pad_lookup n row j :
  (j < n)%nat -> Sheet.pad n row !! j = Some (default Sheet.blank (row !! j)).
Proof.
  intros Hj. unfold Sheet.pad. rewrite lookup_take_lt by exact Hj.
  destruct (row !! j) as [cell|] eqn:E.
  - rewrite lookup_app_l by (eapply lookup_lt_Some, E). exact E.
  - apply lookup_ge_None in E. rewrite lookup_app_r by exact E.
    apply lookup_replicate_2. lia.
Qed.

(** A sheet in step with its class: its first row and its width. *)
Lemma in_step_rows c props ss :
  props <> [] -> in_step c props ss ->
  exists header rows,
    ss !! class_name c = Some (header :: rows)
    /\ Sheet.lastColumn (header :: rows) = Z.of_nat (length props)
    /\ Sheet.pad (length props) header = VStr <$> props.
Proof.
  intros Hne (g & Hg & Hrow).
  assert (Hlen : Z.to_nat (Sheet.lastColumn g) = length props).
  { apply (f_equal length) in Hrow. unfold Sheet.rowValues in Hrow.
    rewrite length_pad, length_fmap in Hrow. exact Hrow. }
  destruct g as [|header rows].
  - exfalso. unfold Sheet.lastColumn in Hlen. simpl in Hlen.
    destruct props; [congruence | discriminate].
  - exists header, rows. split; [exact Hg |].
    unfold Sheet.rowValues in Hrow. cbn in Hrow. rewrite Hlen in Hrow.
    split; [| exact Hrow]. unfold Sheet.lastColumn in *. lia.
Qed.

Lemma dataValues_in_step props header rows :
  props <> [] ->
  Sheet.lastColumn (header :: rows) = Z.of_nat (length props) ->
  Sheet.pad (length props) header = VStr <$> props ->
  Sheet.dataValues (header :: rows)
  = (VStr <$> props) :: (Sheet.pad (length props) <$> rows).
Proof.
  intros Hne Hcol Hheader. unfold Sheet.dataValues. rewrite Hcol.
  assert (Hpos : (0 < length props)%nat) by (destruct props; [congruence | simpl; lia]).
  unfold Sheet.lastRow.
  destruct (Z.eqb_spec (Z.of_nat (length (header :: rows))) 0) as [E|_]; [simpl in E; lia |].
  destruct (Z.eqb_spec (Z.of_nat (length props)) 0) as [E|_]; [lia |].
  cbn [orb]. rewrite Nat2Z.id. cbn [fmap list_fmap]. rewrite Hheader. reflexivity.
Qed.

Section Reading.
Context `{Engine}.

Lemma key_at_header props j h :
  props !! j = Some h -> key_at (VStr <$> props) j = h.
Proof.
  intros Hj. unfold key_at.
  rewrite (nth_cell_lookup _ j (VStr h)) by (rewrite list_lookup_fmap, Hj; reflexivity).
  reflexivity.
Qed.

(** The record of a padded row, under the header row of a class. *)
Lemma row_record_cell props row_id row j h :
  NoDup props -> props !! j = Some h ->
  field (row_object (VStr <$> props) row_id (Sheet.pad (length props) row)) h
  = default Sheet.blank (row !! j).
Proof.
  intros Hnd Hj. unfold field.
  rewrite <- (key_at_header props j h Hj).
  rewrite (row_object_cell _ _ _ j (default Sheet.blank (row !! j))); [reflexivity | |].
  - apply pad_lookup. eapply lookup_lt_Some, Hj.
  - intros j' [Hlt Hlen]. rewrite length_pad in Hlen.
    destruct (lookup_lt_is_Some_2 props j' Hlen) as [h' Hj'].
    rewrite (key_at_header props j' h' Hj'), (key_at_header props j h Hj).
    intros ->. assert (j' = j) by (eapply NoDup_lookup; eassumption). lia.
Qed.

Lemma row_record_number props row_id row :
  "row_number" ∉ props ->
  field (row_object (VStr <$> props) row_id (Sheet.pad (length props) row)) "row_number"
  = VNum (Z.of_nat row_id + 2).
Proof.
  intros Hout. unfold field. rewrite row_object_row_number; [reflexivity |].
  intros j Hj. rewrite length_pad in Hj.
  destruct (lookup_lt_is_Some_2 props j Hj) as [h Hh].
  rewrite (key_at_header props j h Hh). intros ->.
  apply Hout. eapply list_elem_of_lookup_2, Hh.
Qed.
End Reading.

(** [fromJson] on each record in turn. *)
Lemma mapM_fromJson c : forall (records : list record) w,
  (forall kv, kv ∈ class_declared c -> snd kv <> VNull) ->
  exists entities,
    mapM (fromJson c) records w = (Ok entities, later (2 * length records) w)
    /\ Forall2 (fun rawObject entity =>
                  exists a b,
                    entity = foldl (fill rawObject) (blank c (VDate a) (VDate b))
                                   (keys (blank c (VDate a) (VDate b))))
               records entities.
Proof.
  induction records as [|r records IH]; intros w Hd.
  - exists []. split; [destruct w; reflexivity | constructor].
  - destruct (IH (later 2 w) Hd) as (entities & Hrun & Hall).
    eexists (_ :: entities). split.
    + cbn [mapM]. rewrite (bind_run _ _ _ _ _ (fromJson_run c r w Hd)).
      rewrite (bind_run _ _ _ _ _ Hrun). unfold mret, M_ret. f_equal.
      unfold later. cbn [ticks spreadsheet clock entropy draws active_user length].
      f_equal. lia.
    + constructor; [eauto | exact Hall].
Qed.

Section Finding.
Context `{Engine}.

Lemma getDataRangeValues_run name g w :
  spreadsheet w !! name = Some g ->
  Sheet.getDataRangeValues name w = (Ok (Sheet.dataValues g), w).
Proof.
  intros Hg. unfold Sheet.getDataRangeValues, Sheet.cells, mbind, M_bind.
  rewrite Hg. reflexivity.
Qed.

(** [findAll] for a class whose sheet is absent or in step with it. *)
Lemma findAll_ready c props w :
  ready c props (spreadsheet w) ->
  (forall kv, kv ∈ class_declared c -> snd kv <> VNull) ->
  exists header rows entities,
    synchronized c props (spreadsheet w) !! class_name c = Some (header :: rows)
    /\ Sheet.lastColumn (header :: rows) = Z.of_nat (length props)
    /\ findAll c w
       = (Ok entities,
          later (2 * length rows)
                (with_spreadsheet (synchronized c props (spreadsheet w)) (later 2 w)))
    /\ Forall2 (fun rawObject entity =>
                  exists a b,
                    entity = foldl (fill rawObject) (blank c (VDate a) (VDate b))
                                   (keys (blank c (VDate a) (VDate b))))
               (imap (row_object (VStr <$> props)) (Sheet.pad (length props) <$> rows))
               entities.
Proof.
  intros Hready Hd. pose proof Hready as (Hdecl & Hne & Hcase).
  destruct (in_step_rows c props _ Hne (in_step_synchronized c props _ Hne Hcase))
    as (header & rows & Hg & Hcol & Hheader).
  set (w1 := with_spreadsheet (synchronized c props (spreadsheet w)) (later 2 w)).
  destruct (mapM_fromJson c
              (imap (row_object (VStr <$> props)) (Sheet.pad (length props) <$> rows)) w1 Hd)
    as (entities & Hrun & Hall).
  rewrite length_imap, length_fmap in Hrun.
  exists header, rows, entities. split; [exact Hg |]. split; [exact Hcol |].
  split; [| exact Hall].
  unfold findAll.
  rewrite (bind_run _ _ _ _ _ (getTableInfo_ready c props w Hready)). fold w1.
  cbn [fst].
  rewrite (bind_run _ _ _ _ _ (getDataRangeValues_run (class_name c) (header :: rows) w1 Hg)).
  rewrite (dataValues_in_step props header rows Hne Hcol Hheader).
  erewrite bind_run by reflexivity.
  cbn [fromRawDataToArrayOfObject]. exact Hrun.
Qed.

(** The instances [findAll] returns, row by row. *)
Lemma findAll_rows c props w :
  ready c props (spreadsheet w) ->
  (forall kv, kv ∈ class_declared c -> snd kv <> VNull) ->
  exists header rows entities,
    synchronized c props (spreadsheet w) !! class_name c = Some (header :: rows)
    /\ findAll c w
       = (Ok entities,
          later (2 * length rows)
                (with_spreadsheet (synchronized c props (spreadsheet w)) (later 2 w)))
    /\ length entities = length rows
    /\ forall i row entity,
         rows !! i = Some row -> entities !! i = Some entity ->
         (forall j h, props !! j = Some h ->
                      dot_value (get entity h) = Ok (default Sheet.blank (row !! j)))
         /\ ("row_number" ∉ props -> get entity "row_number" = VNum (Z.of_nat i + 2)).
Proof.
  intros Hready Hd. pose proof Hready as (Hdecl & Hne & Hcase).
  destruct (findAll_ready c props w Hready Hd)
    as (header & rows & entities & Hg & _ & Hrun & Hall).
  exists header, rows, entities. split; [exact Hg |]. split; [exact Hrun |]. split.
  - apply Forall2_length in Hall. rewrite length_imap, length_fmap in Hall. lia.
  - intros i row entity Hrow Hentity.
    destruct (Forall2_lookup_r _ _ _ _ _ Hall Hentity) as (r & Hr & a & b & ->).
    rewrite list_lookup_imap, list_lookup_fmap, Hrow in Hr. cbn in Hr.
    inversion Hr; subst r. clear Hr.
    split.
    + intros j h Hj.
      rewrite (entity_value c props _ a b h Hdecl) by (eapply list_elem_of_lookup_2, Hj).
      f_equal. apply row_record_cell; [apply (declares_NoDup c), Hdecl | exact Hj].
    + intros Hout.
      rewrite (entity_plain c props _ a b "row_number" Hdecl (row_number_key _ _ _) Hout).
      apply row_record_number, Hout.
Qed.

End Finding.

(** ** [persist]: the row it writes *)

Section Writing.
Context `{Engine}.

(** The steps of [persist] up to the row it prepares, for a sheet that is
    absent or in step. *)
Ltac persist_row Hready Ho Ho1 :=
  rewrite (bind_run _ _ _ _ _ (lift_run _ _ _ _ _ (getTableInfo_ready _ _ _ Hready)));
  cbn zeta;
  erewrite bind_run by (apply lift_run; reflexivity);
  erewrite bind_run by (apply assign_value_run, Ho; simpl; tauto);
  erewrite bind_run by (apply lift_run; reflexivity);
  erewrite bind_run
    by (apply stamp_user_run; apply is_column_set_value; apply Ho; simpl; tauto);
  erewrite bind_run
    by (eapply getUpdateArray_run;
        [apply Hready | apply Hready
        | simpl; apply in_step_synchronized; apply Hready
        | intros h Hh; apply Ho1; apply in_or_app; right; exact Hh]).

(** [persist] on an instance without an identifier whose required columns
    are all set. *)
Lemma persist_created c props o w g :
  ready c props (spreadsheet w) -> instance_ok props o ->
  value_of o "id" = VStr "" ->
  synchronized c props (spreadsheet w) !! class_name c = Some g ->
  let w1 := with_spreadsheet (synchronized c props (spreadsheet w)) (later 5 w) in
  let o1 := stamped o (VDate (clock w (2 + ticks w))) (active_user w) in
  exists new_id w2,
    generateId 8 w1 = (Ok new_id, w2)
    /\ spreadsheet w2 = synchronized c props (spreadsheet w)
    /\ let o2 := identified o1 new_id in
       let row := value_of o2 <$> props in
       (missing_required props o2 = [] ->
        persist c (Frame o w)
        = (Ok tt,
           Frame (set o2 "row_number" (VNum (Sheet.lastRow (g ++ [row]))))
                 (with_spreadsheet (<[class_name c := g ++ [row]]> (spreadsheet w2)) w2))).
Proof.
  intros Hready Ho Hid Hg w1 o1.
  pose proof Hready as (Hd & Hne & Hcase).
  pose proof (declares_NoDup _ _ Hd) as Hnd.
  assert (Ho1 : instance_ok props o1) by apply instance_ok_stamped, Ho.
  destruct (generateId_loop_ends 8 8 0 "" w1 eq_refl) as (new_id & w2 & Hrun & Hss).
  exists new_id, w2. split; [exact Hrun |]. split; [rewrite Hss; reflexivity |].
  intros o2 row Hmiss.
  assert (Ho2 : instance_ok props o2) by apply instance_ok_identified, Ho1.
  unfold persist. persist_row Hready Ho Ho1.
  repeat match goal with |- context [Frame ?o' ?w'] =>
    progress (change o' with o1; change w' with w1) end.
  repeat match goal with |- context [value_of ?o' <$> props] =>
    progress (change o' with o1) end.
  cbn [fst snd].
  erewrite !bind_run by (apply read_value_run, Ho1; simpl; tauto).
  rewrite (value_of_get o o1 "id") by (apply stamped_get; discriminate).
  rewrite Hid. cbn [strict_eq String.eqb Ascii.eqb Bool.eqb].
  assert (Hgen : lift (generateId 8) (Frame o1 w1) = (Ok new_id, Frame o1 w2)).
  { apply lift_run. exact Hrun. }
  change (spreadsheet w1) with (synchronized c props (spreadsheet w)) in Hss.
  rewrite <- Hss in Hg.
  rewrite bind_assoc, (bind_run _ _ _ _ _ Hgen).
  rewrite bind_assoc. erewrite bind_run by (apply read_value_run, Ho1; simpl; tauto).
  rewrite bind_assoc. erewrite bind_run by (apply read_value_run, Ho1; simpl; tauto).
  rewrite bind_assoc. erewrite bind_run by (apply new_props_run; assumption).
  fold (identified o1 new_id). fold o2. fold row.
  rewrite bind_assoc. erewrite bind_run
    by (apply checkRequired_run; intros h Hh; apply Ho2, in_or_app; right; exact Hh).
  rewrite Hmiss. cbn [fmap list_fmap length Nat.ltb Nat.leb].
  rewrite bind_assoc. erewrite bind_run by (apply lift_run, appendRow_run, Hg).
  rewrite bind_assoc. erewrite bind_run.
  2:{ apply lift_run. eapply getLastRow_run. simpl. apply lookup_insert_eq. }
  reflexivity.
Qed.

(** The row a create appends, and the instance afterwards. *)
Lemma persist_create_row (c : class) (props : list string) (o : object)
    (w : world) (g : grid) (f' : frame) :
  ready c props (spreadsheet w) -> instance_ok props o ->
  value_of o "id" = VStr "" ->
  synchronized c props (spreadsheet w) !! class_name c = Some g ->
  persist c (Frame o w) = (Ok tt, f') ->
  exists new_id row,
    this f'
    = set (identified (stamped o (VDate (clock w (2 + ticks w))) (active_user w)) new_id)
          "row_number" (VNum (Z.of_nat (length g) + 1))
    /\ spreadsheet (env f')
       = <[class_name c := g ++ [row]]> (synchronized c props (spreadsheet w))
    /\ length row = length props
    /\ (forall j h, props !! j = Some h -> h <> "row_number" ->
                    row !! j = Some (value_of (this f') h)).
Proof.
  intros Hready Ho Hid Hg Hrun.
  destruct (persist_created c props o w g Hready Ho Hid Hg)
    as (new_id & w2 & Hgen & Hss & Haccept).
  destruct (persist_create c props o w Hready Ho Hid)
    as (new_id' & w2' & Hgen' & _ & Hreject & _).
  assert (Hsame : new_id' = new_id /\ w2' = w2) by (split; congruence).
  destruct Hsame as [-> ->]. clear Hgen'.
  cbv zeta in Haccept, Hreject.
  set (o2 := identified (stamped o (VDate (clock w (2 + ticks w))) (active_user w)) new_id) in *.
  destruct (missing_required props o2) as [|h0 hs] eqn:Em.
  2:{ rewrite Hreject in Hrun by discriminate. congruence. }
  rewrite (Haccept eq_refl) in Hrun.
  assert (Hf : f' = Frame (set o2 "row_number"
                            (VNum (Sheet.lastRow (g ++ [value_of o2 <$> props]))))
                          (with_spreadsheet
                             (<[class_name c := g ++ [value_of o2 <$> props]]> (spreadsheet w2))
                             w2)) by congruence.
  subst f'. clear Hrun.
  exists new_id, (value_of o2 <$> props). cbn [this env spreadsheet with_spreadsheet].
  split; [| split; [rewrite Hss; reflexivity | split; [apply length_fmap |]]].
  - unfold Sheet.lastRow. rewrite length_app. do 2 f_equal. simpl. lia.
  - intros j h Hj Hne. rewrite list_lookup_fmap, Hj. cbn. f_equal. symmetry.
    apply value_of_get, get_set_ne. congruence.
Qed.

(** X7.  When [persist] creates (the identifier is empty) and returns, for a
    class whose sheet is absent or in step with it, the sheet has exactly
    one row more, appended below the rows it had: the row holds, under each
    header, the value of the instance's column of that name.  The instance's
    [row_number] is the position of the new row, the number of rows the
    sheet now has; its [created] and [modified] are the time [persist]
    read, and its [created_by] is its [last_modified_by]. *)
Theorem persist_create_appends_one_row (c : class) (props : list string) (o : object)
    (w : world) (g : grid) (f' : frame) :
  ready c props (spreadsheet w) -> instance_ok props o ->
  value_of o "id" = VStr "" ->
  synchronized c props (spreadsheet w) !! class_name c = Some g ->
  persist c (Frame o w) = (Ok tt, f') ->
  exists row,
    spreadsheet (env f')
    = <[class_name c := g ++ [row]]> (synchronized c props (spreadsheet w))
    /\ length row = length props
    /\ (forall j h, props !! j = Some h -> h <> "row_number" ->
                    row !! j = Some (value_of (this f') h))
    /\ get (this f') "row_number" = VNum (Z.of_nat (length g) + 1)
    /\ value_of (this f') "created" = VDate (clock w (2 + ticks w))
    /\ value_of (this f') "modified" = VDate (clock w (2 + ticks w))
    /\ value_of (this f') "created_by" = value_of (this f') "last_modified_by".
Proof.
  intros Hready Ho Hid Hg Hrun.
  destruct (persist_create_row c props o w g f' Hready Ho Hid Hg Hrun)
    as (new_id & row & Hthis & Hss & Hlen & Hcells).
  exists row. split; [exact Hss |]. split; [exact Hlen |]. split; [exact Hcells |].
  rewrite Hthis. split; [apply get_set_eq |].
  set (o1 := stamped o (VDate (clock w (2 + ticks w))) (active_user w)).
  assert (Ho1 : instance_ok props o1) by apply instance_ok_stamped, Ho.
  assert (Hkeep : forall k, k <> "row_number" ->
            value_of (set (identified o1 new_id) "row_number"
                          (VNum (Z.of_nat (length g) + 1))) k
            = value_of (identified o1 new_id) k).
  { intros k Hk. apply value_of_get, get_set_ne. congruence. }
  rewrite !Hkeep by discriminate.
  rewrite !(value_of_identified props) by exact Ho1.
  cbn [String.eqb Ascii.eqb Bool.eqb].
  unfold o1. rewrite !(value_of_stamped_modified props) by exact Ho.
  repeat split; reflexivity.
Qed.
End Writing.

(** ** [persist]: the row it overwrites *)

Lemma row_within_lastColumn (g : grid) r old :
  g !! r = Some old -> Z.of_nat (length old) <= Sheet.lastColumn g.
Proof.
  intros Hr. unfold Sheet.lastColumn. apply inj_le.
  apply max_list_elem_of_le, list_elem_of_fmap. exists old.
  split; [reflexivity | eapply list_elem_of_lookup_2, Hr].
Qed.

(** Writing a row that is as wide as the sheet replaces the row. *)
Lemma withRowValues_row (g : grid) n vals :
  1 <= n <= Z.of_nat (length g) -> Sheet.lastColumn g <= Z.of_nat (length vals) ->
  Sheet.withRowValues g n 1 vals = <[Z.to_nat (n - 1) := vals]> g.
Proof.
  intros Hn Hwide. unfold Sheet.withRowValues. cbn zeta.
  replace (S (Z.to_nat (n - 1)) - length g)%nat with 0%nat by lia.
  cbn [replicate]. rewrite app_nil_r.
  destruct (lookup_lt_is_Some_2 g (Z.to_nat (n - 1))) as [old Hold]; [lia |].
  rewrite Hold. cbn [default]. f_equal.
  unfold Sheet.overwrite. change (Z.to_nat (1 - 1)) with 0%nat.
  change (id old) with old. rewrite take_0. cbn [Nat.add app].
  pose proof (row_within_lastColumn g _ old Hold).
  rewrite drop_ge by lia. apply app_nil_r.
Qed.

Lemma setRowValues_run name g n vals w :
  spreadsheet w !! name = Some g -> 1 <= n -> (0 < length vals)%nat ->
  Sheet.setRowValues name n 1 (Z.of_nat (length vals)) vals w
  = (Ok tt, with_spreadsheet (<[name := Sheet.withRowValues g n 1 vals]> (spreadsheet w)) w).
Proof.
  intros Hg Hn Hvals.
  unfold Sheet.setRowValues, Sheet.cells, Sheet.put, Sheet.valid_range, mbind, M_bind.
  rewrite Hg.
  destruct (Z.leb_spec 1 n) as [_|]; [| lia].
  destruct (Z.leb_spec 1 (Z.of_nat (length vals))) as [_|]; [| lia].
  rewrite Z.eqb_refl. reflexivity.
Qed.

Section Updating.
Context `{Engine}.

Ltac persist_row Hready Ho Ho1 :=
  rewrite (bind_run _ _ _ _ _ (lift_run _ _ _ _ _ (getTableInfo_ready _ _ _ Hready)));
  cbn zeta;
  erewrite bind_run by (apply lift_run; reflexivity);
  erewrite bind_run by (apply assign_value_run, Ho; simpl; tauto);
  erewrite bind_run by (apply lift_run; reflexivity);
  erewrite bind_run
    by (apply stamp_user_run; apply is_column_set_value; apply Ho; simpl; tauto);
  erewrite bind_run
    by (eapply getUpdateArray_run;
        [apply Hready | apply Hready
        | simpl; apply in_step_synchronized; apply Hready
        | intros h Hh; apply Ho1; apply in_or_app; right; exact Hh]).

(** [persist] on an instance with an identifier and a row of the sheet,
    whose required columns are all set. *)
Lemma persist_updated c props o w g n :
  ready c props (spreadsheet w) -> instance_ok props o ->
  strict_eq (value_of o "id") (VStr "") = false ->
  get o "row_number" = VNum n -> 1 <= n <= Z.of_nat (length g) ->
  synchronized c props (spreadsheet w) !! class_name c = Some g ->
  let o1 := stamped o (VDate (clock w (2 + ticks w))) (active_user w) in
  missing_required props o1 = [] ->
  persist c (Frame o w)
  = (Ok tt,
     Frame o1 (with_spreadsheet
                 (<[class_name c := <[Z.to_nat (n - 1) := value_of o1 <$> props]> g]>
                    (synchronized c props (spreadsheet w)))
                 (later 5 w))).
Proof.
  intros Hready Ho Hid Hrow Hn Hg o1 Hmiss.
  pose proof Hready as (Hd & Hne & Hcase).
  set (w1 := with_spreadsheet (synchronized c props (spreadsheet w)) (later 5 w)).
  assert (Ho1 : instance_ok props o1) by apply instance_ok_stamped, Ho.
  destruct (in_step_rows c props _ Hne (in_step_synchronized c props _ Hne Hcase))
    as (header & rows & Hg' & Hcol & _).
  rewrite Hg in Hg'. inversion Hg'; subst g. clear Hg'.
  unfold persist. persist_row Hready Ho Ho1.
  repeat match goal with |- context [Frame ?o' ?w'] =>
    progress (change o' with o1; change w' with w1) end.
  repeat match goal with |- context [value_of ?o' <$> props] =>
    progress (change o' with o1) end.
  cbn [fst snd].
  erewrite !bind_run by (apply read_value_run, Ho1; simpl; tauto).
  rewrite (value_of_get o o1 "id") by (apply stamped_get; discriminate).
  rewrite Hid.
  rewrite bind_assoc. erewrite bind_run by reflexivity.
  assert (Hrn : get o1 "row_number" = get o "row_number") by (apply stamped_get; discriminate).
  cbn [this]. rewrite Hrn, Hrow.
  unfold gt_zero. cbn [to_number].
  destruct (Z.ltb_spec 0 n) as [_|]; [| lia].
  rewrite bind_assoc. erewrite bind_run
    by (apply checkRequired_run; intros h Hh; apply Ho1, in_or_app; right; exact Hh).
  rewrite Hmiss. cbn [fmap list_fmap length Nat.ltb Nat.leb].
  rewrite bind_assoc. erewrite bind_run by (apply lift_run, getLastColumn_run, Hg).
  rewrite Hcol.
  assert (Hlen : length (value_of o1 <$> props) = length props) by apply length_fmap.
  assert (Hpos : (0 < length props)%nat) by (destruct props; [congruence | simpl; lia]).
  rewrite <- Hlen.
  erewrite bind_run.
  2:{ apply lift_run. apply setRowValues_run; [exact Hg | lia | lia]. }
  rewrite withRowValues_row by (rewrite ?Hcol, ?Hlen; lia).
  reflexivity.
Qed.

(** X8.  When [persist] updates (the instance has an identifier and its
    [row_number] is the position of a row of the sheet) and returns, for a
    class whose sheet is in step with it, the row at that position holds,
    under each header, the value of the instance's column of that name;
    every other row is as it was and the sheet has as many rows as before.
    The identifier, [row_number] and [created] are unchanged and [modified]
    is the time [persist] read.  The header row is a row
    as any other: with [row_number] 1 it is the header row that is
    overwritten. *)
Theorem persist_update_overwrites_its_row (c : class) (props : list string) (o : object)
    (w : world) (g : grid) (n : Z) (f' : frame) :
  ready c props (spreadsheet w) -> instance_ok props o ->
  strict_eq (value_of o "id") (VStr "") = false ->
  get o "row_number" = VNum n -> 1 <= n <= Z.of_nat (length g) ->
  synchronized c props (spreadsheet w) !! class_name c = Some g ->
  persist c (Frame o w) = (Ok tt, f') ->
  let row := value_of (this f') <$> props in
  spreadsheet (env f')
  = <[class_name c := <[Z.to_nat (n - 1) := row]> g]> (synchronized c props (spreadsheet w))
  /\ (forall i, i <> Z.to_nat (n - 1) -> (<[Z.to_nat (n - 1) := row]> g) !! i = g !! i)
  /\ length (<[Z.to_nat (n - 1) := row]> g) = length g
  /\ value_of (this f') "id" = value_of o "id"
  /\ get (this f') "row_number" = VNum n
  /\ value_of (this f') "created" = value_of o "created"
  /\ value_of (this f') "modified" = VDate (clock w (2 + ticks w)).
Proof.
  intros Hready Ho Hid Hrow Hn Hg Hrun.
  assert (Hgt : gt_zero (get o "row_number") = true).
  { rewrite Hrow. unfold gt_zero. cbn [to_number]. apply Z.ltb_lt. lia. }
  destruct (persist_update c props o w Hready Ho Hid Hgt) as [Hreject _].
  pose proof (persist_updated c props o w g n Hready Ho Hid Hrow Hn Hg) as Haccept.
  cbv zeta in Hreject, Haccept.
  set (o1 := stamped o (VDate (clock w (2 + ticks w))) (active_user w)) in *.
  destruct (missing_required props o1) as [|h0 hs] eqn:Em.
  2:{ rewrite Hreject in Hrun by discriminate. congruence. }
  rewrite (Haccept eq_refl) in Hrun.
  assert (Hf : f' = Frame o1 (with_spreadsheet
                               (<[class_name c := <[Z.to_nat (n - 1) := value_of o1 <$> props]> g]>
                                  (synchronized c props (spreadsheet w)))
                               (later 5 w))) by congruence.
  subst f'. clear Hrun. cbn [this env spreadsheet with_spreadsheet].
  split; [reflexivity |]. split; [| split; [| split; [| split; [| split]]]].
  - intros i Hi. apply list_lookup_insert_ne. congruence.
  - apply length_insert.
  - apply value_of_get, stamped_get; discriminate.
  - unfold o1. rewrite stamped_get by discriminate. exact Hrow.
  - apply value_of_get, stamped_get; discriminate.
  - apply (value_of_stamped_modified props), Ho.
Qed.
End Updating.

(** ** [persist] and then [findAll] *)

Lemma lastColumn_append (g : grid) row :
  Sheet.lastColumn (g ++ [row]) = Z.max (Sheet.lastColumn g) (Z.of_nat (length row)).
Proof.
  unfold Sheet.lastColumn. induction g as [|r g IH].
  - cbn. lia.
  - change (max_list (length <$> (r :: g) ++ [row]))
      with (Nat.max (length r) (max_list (length <$> g ++ [row]))).
    change (max_list (length <$> r :: g)) with (Nat.max (length r) (max_list (length <$> g))).
    lia.
Qed.

(** A row appended to a sheet in step, no wider than the header row, leaves
    it in step. *)
Lemma in_step_append c props ss g row :
  props <> [] -> in_step c props ss -> ss !! class_name c = Some g ->
  (length row <= length props)%nat ->
  in_step c props (<[class_name c := g ++ [row]]> ss).
Proof.
  intros Hne Hstep Hg Hrow.
  destruct (in_step_rows c props ss Hne Hstep) as (header & rows & Hg' & Hcol & Hheader).
  rewrite Hg in Hg'. inversion Hg'; subst g. clear Hg'.
  exists ((header :: rows) ++ [row]). split; [apply lookup_insert_eq |].
  unfold Sheet.rowValues. rewrite lastColumn_append, Hcol.
  replace (Z.max (Z.of_nat (length props)) (Z.of_nat (length row)))
    with (Z.of_nat (length props)) by lia.
  rewrite Nat2Z.id. exact Hheader.
Qed.

Lemma synchronized_present c props ss g :
  ss !! class_name c = Some g -> synchronized c props ss = ss.
Proof. intros Hg. unfold synchronized. rewrite Hg. reflexivity. Qed.

Section RoundTrip.
Context `{Engine}.

(** X9.  An instance that [persist] created is read back by [findAll]: for a
    class whose sheet is absent or in step with it, [findAll] called after
    [persist] returns, as its last instance, one that has the [row_number]
    of the persisted instance and, in every column, the value the persisted
    instance has. *)
Theorem persist_then_findAll_reads_the_instance_back (c : class) (props : list string)
    (o : object) (w : world) (f' : frame) :
  ready c props (spreadsheet w) -> instance_ok props o ->
  (forall kv, kv ∈ class_declared c -> snd kv <> VNull) ->
  "row_number" ∉ props ->
  value_of o "id" = VStr "" ->
  persist c (Frame o w) = (Ok tt, f') ->
  exists entities entity w',
    findAll c (env f') = (Ok entities, w')
    /\ spreadsheet w' = spreadsheet (env f')
    /\ last entities = Some entity
    /\ get entity "row_number" = get (this f') "row_number"
    /\ forall h, h ∈ props -> value_of entity h = value_of (this f') h.
Proof.
  intros Hready Ho Hd Hout Hid Hrun. pose proof Hready as (Hdecl & Hne & Hcase).
  pose proof (in_step_synchronized c props _ Hne Hcase) as Hstep.
  destruct (in_step_rows c props _ Hne Hstep) as (header & rows & Hg & Hcol & Hheader).
  destruct (persist_create_row c props o w (header :: rows) f' Hready Ho Hid Hg Hrun)
    as (new_id & row & Hthis & Hss & Hlen & Hcells).
  assert (Hnumber : get (this f') "row_number" = VNum (Z.of_nat (length (header :: rows)) + 1))
    by (rewrite Hthis; apply get_set_eq).
  assert (Hstep' : in_step c props (spreadsheet (env f'))).
  { rewrite Hss. apply in_step_append; [exact Hne | exact Hstep | exact Hg | lia]. }
  assert (Hready' : ready c props (spreadsheet (env f'))).
  { split; [exact Hdecl |]. split; [exact Hne |]. right. exact Hstep'. }
  destruct (findAll_rows c props (env f') Hready' Hd)
    as (header' & rows' & entities & Hg' & Hfind & Hcount & Hrows).
  assert (Hsheet : spreadsheet (env f') !! class_name c = Some ((header :: rows) ++ [row])).
  { rewrite Hss. apply lookup_insert_eq. }
  rewrite (synchronized_present c props _ _ Hsheet) in Hg', Hfind.
  rewrite Hsheet in Hg'. inversion Hg'; subst header' rows'. clear Hg'.
  assert (Hlast : (rows ++ [row]) !! length rows = Some row).
  { rewrite lookup_app_r by lia. rewrite Nat.sub_diag. reflexivity. }
  destruct (lookup_lt_is_Some_2 entities (length rows)) as [entity Hentity].
  { rewrite Hcount, length_app. simpl. lia. }
  destruct (Hrows _ _ _ Hlast Hentity) as [Hvalues Hrn].
  exists entities, entity. eexists. split; [exact Hfind |]. split; [reflexivity |].
  split; [| split].
  - rewrite last_lookup. rewrite Hcount, length_app. simpl.
    replace (Nat.pred (length rows + 1)) with (length rows) by lia. exact Hentity.
  - rewrite (Hrn Hout), Hnumber. f_equal. simpl. lia.
  - intros h Hh. apply list_elem_of_lookup_1 in Hh as [j Hj].
    unfold value_of at 1. rewrite (Hvalues j h Hj).
    rewrite (Hcells j h Hj) by (intros ->; apply Hout; eapply list_elem_of_lookup_2, Hj).
    reflexivity.
Qed.
End RoundTrip.

(** ** [findById] *)

Lemma find_id_first c id : forall (entities : list object) i entity,
  entities !! i = Some entity ->
  (forall i' entity', entities !! i' = Some entity' ->
     exists v, dot_value (get entity' "id") = Ok v
               /\ ((i' < i)%nat -> strict_eq v id = false)
               /\ (i' = i -> strict_eq v id = true)) ->
  find_id c id entities = Ok (VEnt c entity).
Proof.
  induction entities as [|e entities IH]; intros i entity Hi Hall; [discriminate |].
  destruct (Hall 0%nat e eq_refl) as (v & Hv & Hbefore & Hhere).
  cbn [find_id]. rewrite Hv. cbn [mbind outcome_bind].
  destruct i as [|i].
  - rewrite Hhere by reflexivity. inversion Hi. reflexivity.
  - rewrite Hbefore by lia. apply (IH i entity Hi).
    intros i' entity' Hi'. destruct (Hall (S i') entity' Hi') as (v' & Hv' & Hb & Hh).
    exists v'. split; [exact Hv' |]. split; intros ?; [apply Hb | apply Hh]; lia.
Qed.

Section Identifier.
Context `{Engine}.

End Identifier.

(** ** [remove] *)

Lemma deleteRowCells_run name g n columns w :
  spreadsheet w !! name = Some g -> 1 <= n -> 1 <= columns ->
  Sheet.deleteRowCells name n columns w
  = (Ok tt, with_spreadsheet (<[name := delete (Z.to_nat (n - 1)) g]> (spreadsheet w)) w).
Proof.
  intros Hg Hn Hcolumns.
  unfold Sheet.deleteRowCells, Sheet.cells, Sheet.put, Sheet.valid_range, mbind, M_bind.
  rewrite Hg.
  destruct (Z.leb_spec 1 n) as [_|]; [| lia].
  destruct (Z.leb_spec 1 columns) as [_|]; [| lia].
  reflexivity.
Qed.

Section Removing.
Context `{Engine}.

Lemma remove_without_row c o w :
  get o "row_number" = VNum 0 -> remove c (Frame o w) = (Ok tt, Frame o w).
Proof.
  intros Hrow. unfold remove.
  erewrite bind_run by reflexivity. cbn [this]. rewrite Hrow. reflexivity.
Qed.

(** [remove] on an instance with a row. *)
Lemma remove_row (c : class) (props : list string) (o : object)
    (w : world) (g : grid) (n : Z) :
  ready c props (spreadsheet w) ->
  get o "row_number" = VNum n -> 1 <= n ->
  synchronized c props (spreadsheet w) !! class_name c = Some g ->
  remove c (Frame o w)
  = (Ok tt,
     Frame (set o "row_number" (VNum 0))
           (with_spreadsheet
              (<[class_name c := delete (Z.to_nat (n - 1)) g]>
                 (synchronized c props (spreadsheet w)))
              (later 2 w))).
Proof.
  intros Hready Hrow Hn Hg. pose proof Hready as (Hd & Hne & Hcase).
  destruct (in_step_rows c props _ Hne (in_step_synchronized c props _ Hne Hcase))
    as (header & rows & Hg' & Hcol & _).
  rewrite Hg in Hg'. inversion Hg'; subst g. clear Hg'.
  assert (Hpos : (0 < length props)%nat) by (destruct props; [congruence | simpl; lia]).
  unfold remove. erewrite bind_run by reflexivity. cbn [this]. rewrite Hrow.
  cbn [strict_eq]. destruct (Z.eqb_spec n 0) as [|_]; [lia |].
  rewrite (bind_run _ _ _ _ _ (lift_run _ _ _ _ _ (getTableInfo_ready _ _ _ Hready))).
  cbn [fst].
  erewrite bind_run by (apply lift_run, getLastColumn_run, Hg).
  cbn [to_number].
  erewrite bind_run.
  2:{ apply lift_run, deleteRowCells_run; [exact Hg | lia | rewrite Hcol; lia]. }
  reflexivity.
Qed.

End Removing.

(** ** [checkRequired] *)

Lemma dot_required_members p :
  has_members p = true -> exists v, dot_required p = Ok v.
Proof. destruct p; try discriminate; intros _; eexists; reflexivity. Qed.

Lemma dot_required_without_members p :
  has_members p = false -> dot_required p = Throw TypeError.
Proof. destruct p; try discriminate; reflexivity. Qed.

Section Required.
Context `{Engine}.

Lemma checkRequired_steps o w updateArray : forall (l : list (Z * value)) acc,
  (forall ih, ih ∈ l -> has_members (get o (to_key (snd ih))) = true) ->
  foldM (fun wrongs ih =>
           let header := snd ih in
           let element := nth_cell updateArray (fst ih) in
           p ← read (to_key header);
           required ← of_outcome (dot_required p);
           mret (if truthy required && unset element then wrongs ++ [header] else wrongs))
        l acc (Frame o w)
  = (Ok (acc ++ (snd <$> List.filter (reported o updateArray) l)), Frame o w).
Proof.
  induction l as [|[i header] l IH]; intros acc Hall.
  - cbn. rewrite app_nil_r. reflexivity.
  - cbn [foldM]. destruct (dot_required_members (get o (to_key header))) as [v Hv].
    { apply (Hall (i, header)). left. }
    erewrite bind_run.
    2:{ unfold read, of_outcome, mbind, M_bind. cbn [this fst snd]. rewrite Hv. reflexivity. }
    rewrite IH by (intros ih Hih; apply Hall; right; exact Hih).
    cbn [List.filter]. unfold reported at 2, required_of. cbn [fst snd]. rewrite Hv.
    destruct (truthy v && unset (nth_cell updateArray i)); [| reflexivity].
    cbn [fmap list_fmap snd]. rewrite <- app_assoc. reflexivity.
Qed.

Lemma checkRequired_stops o w updateArray : forall (l : list (Z * value)) acc,
  (exists ih, ih ∈ l /\ has_members (get o (to_key (snd ih))) = false) ->
  foldM (fun wrongs ih =>
           let header := snd ih in
           let element := nth_cell updateArray (fst ih) in
           p ← read (to_key header);
           required ← of_outcome (dot_required p);
           mret (if truthy required && unset element then wrongs ++ [header] else wrongs))
        l acc (Frame o w)
  = (Throw TypeError, Frame o w).
Proof.
  induction l as [|[i header] l IH]; intros acc (ih & Hin & Hno).
  - inversion Hin.
  - cbn [foldM].
    destruct (has_members (get o (to_key header))) eqn:Ehas.
    + destruct (dot_required_members _ Ehas) as [v Hv].
      erewrite bind_run.
      2:{ unfold read, of_outcome, mbind, M_bind. cbn [this fst snd]. rewrite Hv. reflexivity. }
      apply IH. exists ih. split; [| exact Hno].
      apply elem_of_cons in Hin as [->|Hin]; [| exact Hin].
      cbn [snd] in Hno. congruence.
    + erewrite bind_throw; [reflexivity |].
      unfold read, of_outcome, mbind, M_bind. cbn [this fst snd].
      rewrite (dot_required_without_members _ Ehas). reflexivity.
Qed.

Lemma filter_sublist {A} (P : A -> bool) (l : list A) : List.filter P l `sublist_of` l.
Proof.
  induction l as [|x l IH]; [constructor |].
  cbn [List.filter]. destruct (P x); [apply sublist_skip | apply sublist_cons]; exact IH.
Qed.

Lemma snd_imap_positions (headers : list value) :
  snd <$> imap (fun i header => (Z.of_nat i, header)) headers = headers.
Proof.
  apply list_eq. intros i. rewrite list_lookup_fmap, list_lookup_imap.
  destruct (headers !! i); reflexivity.
Qed.

(** X12.  When every header names a property of the instance that is
    neither undefined nor null, [checkRequired] returns, in the order of
    the headers, exactly the headers whose property has a truthy
    [_required] and whose element of the row, at the header's position, is
    undefined or the empty string; a position past the end of the row
    counts as undefined.  When a header names a property the instance
    neither has nor inherits, or one that is null, it throws a
    [TypeError].  Either way it changes nothing. *)
Theorem checkRequired_reports_the_required_headers_left_unset
    (headers updateArray : list value) (f : frame) :
  ((forall header, header ∈ headers -> has_members (get (this f) (to_key header)) = true) ->
   exists wrongs,
     checkRequired headers updateArray f = (Ok wrongs, f)
     /\ wrongs `sublist_of` headers
     /\ forall header,
          header ∈ wrongs <->
          exists i, headers !! i = Some header
                    /\ required_of (this f) (to_key header) = true
                    /\ unset (nth_cell updateArray (Z.of_nat i)) = true)
  /\ ((exists header, header ∈ headers
                      /\ has_members (get (this f) (to_key header)) = false
                      /\ includes inherited_members (to_key header) = false) ->
      checkRequired headers updateArray f = (Throw TypeError, f)).
Proof.
  destruct f as [o w]. cbn [this]. split.
  - intros Hall. eexists. split; [| split].
    + unfold checkRequired. rewrite checkRequired_steps; [reflexivity |].
      intros [i header] Hin. apply elem_of_lookup_imap in Hin as (j & x & Heq & Hx).
      inversion Heq; subst. apply Hall. eapply list_elem_of_lookup_2, Hx.
    + cbn [app]. rewrite <- (snd_imap_positions headers) at 2.
      apply fmap_sublist, filter_sublist.
    + intros header. cbn [app]. rewrite list_elem_of_fmap. split.
      * intros ([i x] & -> & Hin). apply list_elem_of_In, List.filter_In in Hin as [Hin HP].
        apply list_elem_of_In, elem_of_lookup_imap in Hin as (j & y & Heq & Hy).
        inversion Heq; subst. exists j. split; [exact Hy |].
        unfold reported in HP. cbn [fst snd] in *. apply andb_true_iff in HP. exact HP.
      * intros (i & Hi & Hreq & Hunset). exists (Z.of_nat i, header). split; [reflexivity |].
        apply list_elem_of_In, List.filter_In. split.
        -- apply list_elem_of_In, elem_of_lookup_imap. exists i, header. split; [reflexivity | exact Hi].
        -- unfold reported. cbn [fst snd]. rewrite Hreq, Hunset. reflexivity.
  - intros (header & Hin & Hno & _). unfold checkRequired. apply checkRequired_stops.
    apply list_elem_of_lookup_1 in Hin as [i Hi].
    exists (Z.of_nat i, header). split; [| exact Hno].
    apply elem_of_lookup_imap. exists i, header. split; [reflexivity | exact Hi].
Qed.
End Required.

(** ** [getUpdateArray] *)

Lemma filter_length_lt {A} (P : A -> bool) (l : list A) x :
  In x l -> P x = false -> (length (List.filter P l) < length l)%nat.
Proof.
  induction l as [|y l IH]; intros Hin Hx; [destruct Hin |].
  cbn [List.filter]. pose proof (List.filter_length_le P l).
  destruct Hin as [->|Hin].
  - rewrite Hx. simpl. lia.
  - specialize (IH Hin Hx). destruct (P y); simpl; lia.
Qed.

Lemma filter_all_members {A} (P : A -> bool) (l : list A) :
  (forall x, In x l -> P x = true) -> List.filter P l = l.
Proof.
  induction l as [|x l IH]; intros HP; [reflexivity |].
  cbn [List.filter]. rewrite (HP x) by (left; reflexivity).
  f_equal. apply IH. intros y Hy. apply HP. right. exact Hy.
Qed.

Lemma dot_value_column p : isColumn p = Ok true -> exists v, dot_value p = Ok v.
Proof.
  intros Hp. apply isColumn_true_inv in Hp as [(? & ? & ? & ? & ->) | (? & ? & -> & _)];
    eexists; reflexivity.
Qed.

Section Row.
Context `{Engine}.

Lemma getUpdateArray_steps o w : forall (headers : list value) acc,
  (forall header, header ∈ headers -> get o (to_key header) <> VNull) ->
  foldM (fun updateArray header =>
           propertyInfo ← read (to_key header);
           b ← of_outcome (isColumn propertyInfo);
           if b : bool then
             v ← of_outcome (dot_value propertyInfo);
             mret (updateArray ++ [v])
           else mret updateArray)
        headers acc (Frame o w)
  = (Ok (acc ++ ((fun header => value_of o (to_key header))
                   <$> List.filter (fun header => holds_column o (to_key header)) headers)),
     Frame o w).
Proof.
  induction headers as [|header headers IH]; intros acc Hall.
  - cbn. rewrite app_nil_r. reflexivity.
  - cbn [foldM List.filter].
    destruct (isColumn_total (get o (to_key header))) as [b Hb]; [apply Hall; left |].
    assert (Hh : holds_column o (to_key header) = b)
      by (unfold holds_column; rewrite Hb; destruct b; reflexivity).
    rewrite Hh. destruct b.
    + destruct (dot_value_column _ Hb) as [v Hv].
      erewrite bind_run.
      2:{ unfold read, of_outcome, mbind, M_bind. cbn [this]. rewrite Hb, Hv. reflexivity. }
      rewrite IH by (intros h0 Hh0; apply Hall; right; exact Hh0).
      cbn [fmap list_fmap].
      assert (Hvalue : value_of o (to_key header) = v) by (unfold value_of; rewrite Hv; reflexivity).
      rewrite Hvalue, <- app_assoc. reflexivity.
    + erewrite bind_run.
      2:{ unfold read, of_outcome, mbind, M_bind. cbn [this]. rewrite Hb. reflexivity. }
      apply IH. intros h0 Hh0. apply Hall. right. exact Hh0.
Qed.

End Row.

(** ** [generateId] and the draws of [Math.random] *)

Lemma length_charAt s i : (String.length (charAt s i) <= 1)%nat.
Proof.
  unfold charAt. destruct (i <? 0); [simpl; lia |].
  destruct (String.get (Z.to_nat i) s); simpl; lia.
Qed.

Lemma length_append s t : String.length (s +:+ t) = (String.length s + String.length t)%nat.
Proof. induction s as [|ch s IH]; [reflexivity |]. cbn. rewrite <- IH. reflexivity. Qed.

Lemma generateId_loop_draws (k : nat) :
  forall len counter result w,
    Z.to_nat (len - counter) = k ->
    exists s,
      generateId_loop len counter result w
      = (Ok s, World (spreadsheet w) (clock w) (ticks w) (entropy w) (k + draws w)
                     (active_user w))
      /\ (String.length s <= String.length result + k)%nat.
Proof.
  induction k as [|k IH]; intros len counter result w Hk.
  - rewrite generateId_loop_equation_1.
    destruct (Z_lt_dec counter len) as [Hlt|Hge]; [lia |].
    cbn [generateId_loop_unfold_clause_1]. exists result.
    split; [destruct w; reflexivity | lia].
  - rewrite generateId_loop_equation_1.
    destruct (Z_lt_dec counter len) as [Hlt|Hge]; [| lia].
    cbn [generateId_loop_unfold_clause_1]. unfold Math_random.
    edestruct (IH len (counter + 1)) as (s & Hrun & Hlen); [lia |].
    rewrite Hrun. exists s. split.
    + cbn [spreadsheet clock ticks entropy draws active_user]. do 2 f_equal. lia.
    + rewrite length_append in Hlen.
      pose proof (length_charAt characters
                    (Qfloor (entropy w (draws w) * inject_Z charactersLength))).
      lia.
Qed.


(** ** [filterByConsitions] *)

Lemma meets_every_predicate (conditions : gmap string condition) entity :
  meets conditions (fst <$> map_to_list conditions) entity = true
  <-> forall key f, conditions !! key = Some (Predicate f) -> truthy (f (get entity key)) = true.
Proof.
  unfold meets. rewrite forallb_forall. split.
  - intros Hall key f Hkey. specialize (Hall key). rewrite Hkey in Hall. apply Hall.
    apply list_elem_of_In, list_elem_of_fmap. exists (key, Predicate f).
    split; [reflexivity | apply elem_of_map_to_list, Hkey].
  - intros Hall key _. destruct (conditions !! key) as [[f|v]|] eqn:Hkey; try reflexivity.
    apply (Hall key f Hkey).
Qed.

Section Filtering.
Context `{Engine}.

End Filtering.

(** ** [expand] *)

Lemma forEach_app {S A} (body : A -> M S unit) (l1 l2 : list A) s :
  forEach body (l1 ++ l2) s = (forEach body l1 ;; forEach body l2) s.
Proof.
  revert s. induction l1 as [|x l1 IH]; intros s; [reflexivity |].
  cbn [app forEach]. rewrite bind_assoc.
  destruct (body x s) as [[[]|e] s'] eqn:Ex.
  - rewrite !(bind_run _ _ _ _ _ Ex). apply IH.
  - rewrite !(bind_throw _ _ _ _ _ Ex). reflexivity.
Qed.

Section Expanding.
Context `{Engine}.

(** The body of the loop of [expand]. *)
Lemma expand_passes_over o w : forall ks,
  (forall k, k ∈ ks -> passed_over (get o k)) ->
  forEach (fun prop =>
             propertyInfo ← read prop;
             b ← of_outcome (isColumn propertyInfo);
             match (if b : bool then own_class propertyInfo else None) with
             | Some cls =>
                 cls ← of_outcome cls;
                 v ← of_outcome (dot_value propertyInfo);
                 found ← lift (findById cls v);
                 write (prop +:+ "_") found
             | None => mret tt
             end)
          ks (Frame o w)
  = (Ok tt, Frame o w).
Proof.
  induction ks as [|k ks IH]; intros Hall; [reflexivity |].
  cbn [forEach]. destruct (Hall k) as [Hnull Hclass]; [left |].
  destruct (isColumn_total _ Hnull) as [b Hb].
  erewrite bind_run.
  2:{ unfold read, of_outcome, mbind, M_bind. cbn [this]. rewrite Hb.
      destruct b; [rewrite (Hclass Hb) |]; reflexivity. }
  apply IH. intros k' Hk'. apply Hall. right. exact Hk'.
Qed.


End Expanding.

(** ** [toSimpleOjbect] *)

Lemma store_fresh plainObj k v :
  k ∉ (fst <$> plainObj) -> store plainObj k v = plainObj ++ [(k, v)].
Proof.
  induction plainObj as [|[k' v'] plainObj IH]; intros Hk; [reflexivity |].
  cbn [store]. destruct (String.eqb_spec k' k) as [->|Hne].
  - exfalso. apply Hk. left.
  - cbn [app]. f_equal. apply IH. intros Hin. apply Hk. right. exact Hin.
Qed.

(** The loop of [toSimpleOjbect] over properties that are neither null nor
    instances. *)
Lemma toSimpleOjbect_loop ext : forall (properties : object) plainObj,
  NoDup (keys properties) ->
  (forall k, k ∈ keys properties -> k ∉ (fst <$> plainObj)) ->
  (forall kv, kv ∈ properties -> flat (snd kv) = true) ->
  (fix each (properties : object) (plainObj : list (string * simple))
     {struct properties} : outcome (list (string * simple)) :=
     match properties with
     | [] => Ok (objectExtension plainObj ext)
     | (property, propertyInfo) :: rest =>
         b ← isColumn propertyInfo;
         if b : bool then
           v ← dot_value propertyInfo;
           each rest (store plainObj property (Value_of_column v))
         else
           match propertyInfo with
           | VEnt _ _ =>
               nested ← toSimpleOjbect_of propertyInfo VNull;
               each rest (store plainObj property (Simplified nested))
           | _ => each rest plainObj
           end
     end) properties plainObj
  = Ok (plainObj
          ++ ((fun kv => (fst kv, Value_of_column (value_of [kv] (fst kv))))
                <$> List.filter (fun kv => holds_column [kv] (fst kv)) properties)).
Proof.
  induction properties as [|[k p] properties IH]; intros plainObj Hnd Hfresh Hflat.
  - cbn. rewrite app_nil_r. reflexivity.
  - cbn [keys map fst] in Hnd. apply NoDup_cons in Hnd as [Hk Hnd].
    assert (Hp : flat p = true) by (apply (Hflat (k, p)); left).
    assert (Hnull : p <> VNull) by (intros ->; discriminate).
    destruct (isColumn_total p Hnull) as [b Hb].
    assert (Hhold : holds_column [(k, p)] k = b).
    { unfold holds_column. cbn [get]. rewrite String.eqb_refl, Hb. destruct b; reflexivity. }
    cbn [List.filter fst]. rewrite Hhold, Hb. cbn [mbind outcome_bind].
    destruct b.
    + destruct (dot_value_column p Hb) as [v Hv]. rewrite Hv. cbn [mbind outcome_bind].
      rewrite IH.
      * rewrite store_fresh by (apply Hfresh; left).
        rewrite <- app_assoc. cbn [fmap list_fmap app fst].
        unfold value_of at 2. cbn [get]. rewrite String.eqb_refl, Hv. reflexivity.
      * exact Hnd.
      * intros k' Hk'. rewrite store_fresh by (apply Hfresh; left).
        rewrite fmap_app. intros Hin. apply elem_of_app in Hin as [Hin|Hin].
        -- apply (Hfresh k'); [right; exact Hk' | exact Hin].
        -- cbn in Hin. apply list_elem_of_singleton in Hin. subst k'. contradiction.
      * intros kv Hkv. apply Hflat. right. exact Hkv.
    + assert (Hrest : forall k', k' ∈ keys properties -> k' ∉ (fst <$> plainObj))
        by (intros k' Hk'; apply Hfresh; right; exact Hk').
      assert (Hflat' : forall kv, kv ∈ properties -> flat (snd kv) = true)
        by (intros kv Hkv; apply Hflat; right; exact Hkv).
      destruct p; try discriminate; apply IH; assumption.
Qed.

Lemma get_of_member (o : object) kv : NoDup (keys o) -> kv ∈ o -> get o (fst kv) = snd kv.
Proof. destruct kv as [k v]. intros Hnd Hin. apply get_member; assumption. Qed.


(** ** The sheets a method touches *)

Section Confinement.
Context {S : Type} (sheets : S -> gmap string grid) (name : string).

Lemma confined_ret {A} (a : A) : confined sheets name (mret a : M S A).
Proof. intros s n _. reflexivity. Qed.

Lemma confined_throw {A} (e : exn) : confined sheets name (throw e : M S A).
Proof. intros s n _. reflexivity. Qed.

Lemma confined_of_outcome {A} (r : outcome A) : confined sheets name (of_outcome r : M S A).
Proof. intros s n _. reflexivity. Qed.

Lemma confined_current : confined sheets name (current : M S S).
Proof. intros s n _. reflexivity. Qed.

(** The continuation needs to be confined for the results the first
    computation can have. *)
Lemma confined_bind {A B} (m : M S A) (k : A -> M S B) :
  confined sheets name m ->
  (forall a, (exists s s', m s = (Ok a, s')) -> confined sheets name (k a)) ->
  confined sheets name (m ≫= k).
Proof.
  intros Hm Hk s n Hn. unfold mbind, M_bind.
  specialize (Hm s n Hn). destruct (m s) as [[a|e] s'] eqn:E; cbn [snd] in *.
  - rewrite (Hk a (ex_intro _ s (ex_intro _ s' E)) s' n Hn). exact Hm.
  - exact Hm.
Qed.

Lemma confined_if {A} (b : bool) (m1 m2 : M S A) :
  confined sheets name m1 -> confined sheets name m2 ->
  confined sheets name (if b then m1 else m2).
Proof. destruct b; auto. Qed.

Lemma confined_forEach {A} (body : A -> M S unit) (a : list A) :
  (forall x, confined sheets name (body x)) -> confined sheets name (forEach body a).
Proof.
  intros Hbody. induction a as [|x a IH]; cbn [forEach].
  - apply confined_ret.
  - apply confined_bind; [apply Hbody | intros _ _; exact IH].
Qed.

Lemma confined_foldM {A B} (step : B -> A -> M S B) (a : list A) :
  (forall acc x, confined sheets name (step acc x)) ->
  forall acc, confined sheets name (foldM step a acc).
Proof.
  intros Hstep. induction a as [|x a IH]; intros acc; cbn [foldM].
  - apply confined_ret.
  - apply confined_bind; [apply Hstep | intros acc' _; apply IH].
Qed.

Lemma confined_mapM {A B} (f : A -> M S B) (a : list A) :
  (forall x, confined sheets name (f x)) -> confined sheets name (mapM f a).
Proof.
  intros Hf. induction a as [|x a IH]; cbn [mapM].
  - apply confined_ret.
  - apply confined_bind; [apply Hf | intros y _].
    apply confined_bind; [exact IH | intros ys _; apply confined_ret].
Qed.
End Confinement.

(** *** The store *)

Lemma confined_cells name sheet : confined spreadsheet name (Sheet.cells sheet).
Proof. intros w n _. unfold Sheet.cells. destruct (spreadsheet w !! sheet); reflexivity. Qed.

Lemma confined_put name g : confined spreadsheet name (Sheet.put name g).
Proof. intros w n Hn. cbn. apply lookup_insert_ne. congruence. Qed.

Lemma confined_insertSheet name : confined spreadsheet name (Sheet.insertSheet name).
Proof.
  intros w n Hn. unfold Sheet.insertSheet. destruct (spreadsheet w !! name); [reflexivity |].
  cbn. apply lookup_insert_ne. congruence.
Qed.

Lemma confined_getSheetByName name sheet :
  confined spreadsheet name (Sheet.getSheetByName sheet).
Proof. intros w n _. reflexivity. Qed.

Lemma confined_new_Date name : confined spreadsheet name new_Date.
Proof. intros w n _. reflexivity. Qed.

Lemma confined_getActiveUser name : confined spreadsheet name getActiveUser.
Proof. intros w n _. reflexivity. Qed.

Lemma confined_generateId name len : confined spreadsheet name (generateId len).
Proof.
  intros w n _. unfold generateId. destruct (len <=? 0); [reflexivity |].
  destruct (generateId_loop_ends (Z.to_nat (len - 0)) len 0 "" w eq_refl)
    as (s & w' & Hrun & Hss).
  rewrite Hrun. cbn [snd]. rewrite Hss. reflexivity.
Qed.

(** *** The instance *)

Lemma confined_lift name {A} (m : M world A) :
  confined spreadsheet name m -> confined sheets_of name (lift m).
Proof.
  intros Hm f n Hn. unfold lift, sheets_of. specialize (Hm (env f) n Hn).
  destruct (m (env f)) as [r w]. exact Hm.
Qed.

Lemma confined_read name k : confined sheets_of name (read k).
Proof. intros f n _. reflexivity. Qed.

Lemma confined_write name k v : confined sheets_of name (write k v).
Proof. intros f n _. reflexivity. Qed.

Lemma confined_with_this name {A} (o : object) (m : M frame A) :
  confined sheets_of name m -> confined spreadsheet name (with_this o m).
Proof.
  intros Hm w n Hn. unfold with_this. specialize (Hm (Frame o w) n Hn).
  destruct (m (Frame o w)) as [r f]. exact Hm.
Qed.

Ltac confined_step :=
  first
    [ apply confined_ret
    | apply confined_throw
    | apply confined_of_outcome
    | apply confined_current
    | apply confined_cells
    | apply confined_put
    | apply confined_insertSheet
    | apply confined_getSheetByName
    | apply confined_new_Date
    | apply confined_getActiveUser
    | apply confined_generateId
    | apply confined_read
    | apply confined_write
    | apply confined_lift
    | apply confined_with_this
    | apply confined_bind; [| intros ? _]
    | apply confined_if
    | apply confined_forEach; intros ?
    | apply confined_foldM; intros ? ?
    | apply confined_mapM; intros ? ].

Ltac confined_steps := repeat confined_step.

Lemma getTableInfo_sheet c w info w' :
  getTableInfo c w = (Ok info, w') -> fst info = class_name c.
Proof.
  unfold getTableInfo. rewrite (bind_run _ _ _ _ _ (new_instance_run c w)).
  unfold mbind at 1, M_bind, of_outcome.
  destruct (column_names _) as [class_props|e]; [| discriminate].
  unfold mbind at 1, M_bind, Sheet.getSheetByName. cbn [spreadsheet later].
  destruct (spreadsheet w !! class_name c) as [g|].
  - intros Hrun.
    repeat match type of Hrun with
           | (mbind _ ?m) ?s = _ =>
               let E := fresh "E" in
               destruct (m s) as [[?|?] ?] eqn:E;
               [ rewrite (bind_run _ _ _ _ _ E) in Hrun
               | rewrite (bind_throw _ _ _ _ _ E) in Hrun; discriminate ]
           end.
    inversion Hrun. reflexivity.
  - intros Hrun.
    repeat match type of Hrun with
           | (mbind _ ?m) ?s = _ =>
               let E := fresh "E" in
               destruct (m s) as [[?|?] ?] eqn:E;
               [ rewrite (bind_run _ _ _ _ _ E) in Hrun
               | rewrite (bind_throw _ _ _ _ _ E) in Hrun; discriminate ]
           end.
    inversion Hrun. subst. unfold Sheet.insertSheet in E.
    cbn [spreadsheet later] in E. destruct (spreadsheet w !! class_name c); inversion E.
    reflexivity.
Qed.

Lemma confined_new_instance name c : confined spreadsheet name (new_instance c).
Proof. intros w n _. reflexivity. Qed.

Lemma confined_getTableInfo c : confined spreadsheet (class_name c) (getTableInfo c).
Proof.
  unfold getTableInfo.
  apply confined_bind; [apply confined_new_instance | intros emptyObj _].
  apply confined_bind; [apply confined_of_outcome | intros class_props _].
  apply confined_bind; [apply confined_getSheetByName | intros found Hfound].
  destruct found as [sheet|].
  - assert (Hsheet : sheet = class_name c).
    { destruct Hfound as (w & w' & Hrun). unfold Sheet.getSheetByName in Hrun.
      destruct (spreadsheet w !! class_name c); inversion Hrun. reflexivity. }
    subst sheet.
    unfold Sheet.getLastColumn, Sheet.getRowValues, Sheet.setRowValues, Sheet.deleteColumn,
      Sheet.flush.
    confined_steps.
  - apply confined_bind; [apply confined_insertSheet | intros sheet Hsheet].
    assert (Hname : sheet = class_name c).
    { destruct Hsheet as (w & w' & Hrun). unfold Sheet.insertSheet in Hrun.
      destruct (spreadsheet w !! class_name c); inversion Hrun. reflexivity. }
    subst sheet. unfold Sheet.appendRow, Sheet.flush. confined_steps.
Qed.

Lemma confined_assign_value name k x : confined sheets_of name (assign_value k x).
Proof. unfold assign_value. confined_steps. Qed.

Lemma confined_read_value name k : confined sheets_of name (read_value k).
Proof. unfold read_value. confined_steps. Qed.

(** What [getTableInfo] returns as the sheet, inside a method. *)
Lemma lifted_sheet c info :
  (exists f f', lift (getTableInfo c) f = (Ok info, f')) -> fst info = class_name c.
Proof.
  intros ([o w] & f' & Hrun). unfold lift in Hrun. cbn [env this] in Hrun.
  destruct (getTableInfo c w) as [r w'] eqn:E. inversion Hrun; subst.
  apply (getTableInfo_sheet c w info w' E).
Qed.

Section Touched.
Context `{Engine}.

Lemma confined_findAll c : confined spreadsheet (class_name c) (findAll c).
Proof.
  unfold findAll.
  apply confined_bind; [apply confined_getTableInfo | intros info _].
  unfold Sheet.getDataRangeValues. confined_steps.
Qed.

Lemma confined_getUpdateArray c : confined sheets_of (class_name c) (getUpdateArray c).
Proof.
  unfold getUpdateArray.
  apply confined_bind; [apply confined_lift, confined_getTableInfo | intros info _].
  confined_steps.
Qed.

Lemma confined_checkRequired name headers updateArray :
  confined sheets_of name (checkRequired headers updateArray).
Proof. unfold checkRequired. confined_steps. Qed.

Lemma confined_persist c : confined sheets_of (class_name c) (persist c).
Proof.
  unfold persist.
  apply confined_bind; [apply confined_lift, confined_getTableInfo | intros info Hinfo].
  rewrite (lifted_sheet c info Hinfo). cbn zeta.
  apply confined_bind; [apply confined_lift, confined_new_Date | intros now _].
  apply confined_bind; [apply confined_assign_value | intros _ _].
  apply confined_bind; [apply confined_lift, confined_getActiveUser | intros user _].
  apply confined_bind.
  { destruct user; [apply confined_assign_value | apply confined_ret]. }
  intros _ _.
  apply confined_bind; [apply confined_getUpdateArray | intros updateArray _].
  apply confined_bind; [apply confined_read_value | intros id _].
  apply confined_bind; [| intros _ _; apply confined_lift; unfold Sheet.flush; confined_steps].
  apply confined_if.
  - apply confined_bind; [apply confined_lift, confined_generateId | intros new_id _].
    apply confined_bind; [apply confined_read_value | intros created _].
    apply confined_bind; [apply confined_read_value | intros created_by _].
    apply confined_bind.
    { apply confined_foldM. intros acc prop.
      apply confined_bind; [apply confined_assign_value | intros _ _; apply confined_ret]. }
    intros row _.
    apply confined_bind; [apply confined_checkRequired | intros wrongs _].
    apply confined_if; [apply confined_throw |].
    unfold Sheet.appendRow, Sheet.getLastRow. confined_steps.
  - apply confined_bind; [apply confined_read | intros row_number _].
    apply confined_if; [| apply confined_ret].
    apply confined_bind; [apply confined_checkRequired | intros wrongs _].
    apply confined_if; [apply confined_throw |].
    unfold Sheet.getLastColumn, Sheet.setRowValues.
    apply confined_bind; [confined_steps | intros lastColumn _].
    destruct (to_number row_number); confined_steps.
Qed.

Lemma confined_remove c : confined sheets_of (class_name c) (remove c).
Proof.
  unfold remove.
  apply confined_bind; [apply confined_read | intros row_number _].
  apply confined_if; [apply confined_ret |].
  apply confined_bind; [apply confined_lift, confined_getTableInfo | intros info Hinfo].
  rewrite (lifted_sheet c info Hinfo). cbn zeta.
  unfold Sheet.getLastColumn, Sheet.deleteRowCells, Sheet.flush.
  apply confined_bind; [confined_steps | intros lastColumn _].
  apply confined_bind; [destruct (to_number row_number); confined_steps | intros _ _].
  confined_steps.
Qed.

(** X19.  Whatever the spreadsheet holds, the methods of a class touch no
    sheet but the one named after the class: [getTableInfo], [findAll],
    [findById], [filterByConsitions], [getUpdateArray], [persist] and
    [remove] leave every other sheet of the spreadsheet as it is, whether
    they return or throw. *)
Theorem methods_touch_the_sheet_of_their_class_only (c : class) :
  confined spreadsheet (class_name c) (getTableInfo c)
  /\ confined spreadsheet (class_name c) (findAll c)
  /\ (forall id, confined spreadsheet (class_name c) (findById c id))
  /\ (forall conditions, confined spreadsheet (class_name c) (filterByConsitions c conditions))
  /\ confined sheets_of (class_name c) (getUpdateArray c)
  /\ confined sheets_of (class_name c) (persist c)
  /\ confined sheets_of (class_name c) (remove c).
Proof.
  split; [apply confined_getTableInfo |]. split; [apply confined_findAll |].
  split; [| split; [| split; [| split]]].
  - intros id. unfold findById.
    apply confined_bind; [apply confined_findAll | intros all _; apply confined_of_outcome].
  - intros conditions. unfold filterByConsitions.
    apply confined_if; [apply confined_ret |].
    apply confined_bind; [apply confined_findAll | intros all _; apply confined_ret].
  - apply confined_getUpdateArray.
  - apply confined_persist.
  - apply confined_remove.
Qed.
End Touched.

(** ** [getTableInfo]: columns the class has gained *)

Lemma includes_str_names hs n : includes_str (VStr <$> hs) n = includes hs n.
Proof.
  unfold includes_str, includes. induction hs as [|h hs IH]; [reflexivity |].
  cbn [fmap list_fmap existsb]. rewrite <- IH. cbn [strict_eq]. reflexivity.
Qed.

Lemma includes_member a x : includes a x = true <-> x ∈ a.
Proof.
  unfold includes. rewrite existsb_exists. split.
  - intros (y & Hy & Heq). apply String.eqb_eq in Heq. subst. apply list_elem_of_In, Hy.
  - intros Hx. exists x. split; [apply list_elem_of_In, Hx | apply String.eqb_refl].
Qed.

(** Writing cells to the right of the widest row extends the row. *)
Lemma withRowValues_extend header rows vals :
  Sheet.lastColumn (header :: rows) = Z.of_nat (length header) ->
  Sheet.withRowValues (header :: rows) 1 (Z.of_nat (length header) + 1) vals
  = (header ++ vals) :: rows.
Proof.
  intros Hwide. unfold Sheet.withRowValues. cbn zeta.
  change (Z.to_nat (1 - 1)) with 0%nat. cbn [length Nat.sub replicate].
  rewrite app_nil_r. cbn [lookup list_lookup default from_option id].
  change (<[0%nat := ?x]> (header :: rows)) with (x :: rows).
  unfold Sheet.overwrite.
  replace (Z.to_nat (Z.of_nat (length header) + 1 - 1)) with (length header) by lia.
  cbn. f_equal. rewrite take_app_length. rewrite drop_ge by lia. rewrite app_nil_r. reflexivity.
Qed.

Lemma nothing_to_delete props hs :
  (forall h, h ∈ hs -> h ∈ props) ->
  filter_indexed (fun n => negb (includes_cell props n)) (VStr <$> hs) = [].
Proof.
  intros Hall. unfold filter_indexed. apply filter_nil.
  intros [p x] Hin. cbn [snd].
  apply list_elem_of_In, elem_of_lookup_imap in Hin as (i & y & Heq & Hy).
  inversion Heq; subst. rewrite list_lookup_fmap in Hy.
  destruct (hs !! i) as [h|] eqn:Hh; [| discriminate]. inversion Hy; subst.
  cbn [includes_cell]. apply negb_false_iff, includes_member, Hall.
  eapply list_elem_of_lookup_2, Hh.
Qed.

Lemma setRowValues_extend name header rows vals w :
  spreadsheet w !! name = Some (header :: rows) ->
  Sheet.lastColumn (header :: rows) = Z.of_nat (length header) ->
  (0 < length vals)%nat ->
  Sheet.setRowValues name 1 (Z.of_nat (length header) + 1) (Z.of_nat (length vals)) vals w
  = (Ok tt, with_spreadsheet (<[name := (header ++ vals) :: rows]> (spreadsheet w)) w).
Proof.
  intros Hg Hwide Hvals.
  unfold Sheet.setRowValues, Sheet.cells, Sheet.put, Sheet.valid_range, mbind, M_bind.
  rewrite Hg.
  destruct (Z.leb_spec 1 (Z.of_nat (length header) + 1)) as [_|]; [| lia].
  destruct (Z.leb_spec 1 (Z.of_nat (length vals))) as [_|]; [| lia].
  rewrite Z.eqb_refl. cbn [andb Z.leb Z.compare].
  rewrite withRowValues_extend by exact Hwide. reflexivity.
Qed.

(** [getTableInfo] on a sheet whose header row holds declared columns only. *)
Lemma getTableInfo_gained c props hs rows w :
  declares c props -> hs <> [] ->
  spreadsheet w !! class_name c = Some ((VStr <$> hs) :: rows) ->
  Sheet.lastColumn ((VStr <$> hs) :: rows) = Z.of_nat (length hs) ->
  (forall h, h ∈ hs -> h ∈ props) ->
  let gained := List.filter (fun n => negb (includes hs n)) props in
  getTableInfo c w
  = (Ok (class_name c, VStr <$> hs),
     with_spreadsheet (<[class_name c := (VStr <$> (hs ++ gained)) :: rows]> (spreadsheet w))
                      (later 2 w)).
Proof.
  intros Hd Hne Hg Hwide Hall gained.
  assert (Hpos : (0 < length hs)%nat) by (destruct hs; [congruence | simpl; lia]).
  assert (Hlen : length (VStr <$> hs) = length hs) by apply length_fmap.
  unfold getTableInfo.
  rewrite (bind_run _ _ _ _ _ (new_instance_run c w)).
  erewrite bind_run by (rewrite of_outcome_run, (column_names_blank _ _ _ _ Hd); reflexivity).
  erewrite bind_run by (unfold Sheet.getSheetByName; simpl; rewrite Hg; reflexivity).
  cbn beta iota.
  erewrite bind_run by (apply getLastColumn_run; exact Hg).
  erewrite bind_run.
  2:{ unfold Sheet.getRowValues, Sheet.cells, mbind, M_bind. cbn [spreadsheet later]. rewrite Hg.
      unfold Sheet.valid_range. rewrite Hwide.
      destruct (Z.leb_spec 1 (Z.of_nat (length hs))) as [_|]; [| lia].
      cbn [andb Z.leb Z.compare]. unfold Sheet.rowValues. rewrite Nat2Z.id.
      change (Z.to_nat (1 - 1)) with 0%nat. cbn [lookup list_lookup default from_option id].
      rewrite <- Hlen, pad_exact. reflexivity. }
  rewrite (List.filter_ext _ (fun n => negb (includes hs n)))
    by (intros n; rewrite includes_str_names; reflexivity).
  fold gained. rewrite (nothing_to_delete props hs Hall).
  destruct (Nat.ltb_spec 0 (length gained)) as [Hgained|Hnone];
    cbn [length Nat.ltb Nat.leb]; cbv beta iota.
  - erewrite bind_run.
    2:{ erewrite bind_run by (apply getLastColumn_run; exact Hg).
        rewrite Hwide, <- Hlen, <- (length_fmap VStr gained).
        apply setRowValues_extend; [exact Hg | rewrite Hwide, Hlen; reflexivity
                                   | rewrite length_fmap; exact Hgained]. }
    unfold Sheet.flush, mbind, M_bind, mret, M_ret. cbn.
    rewrite fmap_app. reflexivity.
  - assert (Hnil : gained = []) by (apply nil_length_inv; lia).
    rewrite Hnil, app_nil_r.
    unfold Sheet.flush, mbind, M_bind, mret, M_ret. cbn.
    rewrite insert_id by exact Hg. destruct w; reflexivity.
Qed.

Lemma lastColumn_cons (row : list value) (rows : grid) :
  Sheet.lastColumn (row :: rows) = Z.max (Z.of_nat (length row)) (Sheet.lastColumn rows).
Proof. unfold Sheet.lastColumn. cbn [fmap list_fmap max_list]. apply Nat2Z.inj_max. Qed.


(** ** [getTableInfo]: one column the class has dropped *)

Lemma strict_eq_primitive x : is_reference x = false -> strict_eq x x = true.
Proof.
  destruct x as [| |b|n|s|t|? ? ? ?|? ?]; try discriminate; intros _; cbn.
  - reflexivity.
  - reflexivity.
  - destruct b; reflexivity.
  - apply Z.eqb_refl.
  - apply String.eqb_refl.
Qed.

Lemma strict_eq_undeclared props b x :
  b ∈ props -> includes_cell props x = false -> strict_eq (VStr b) x = false.
Proof.
  intros Hb Hx. destruct x as [| |?|?|s|?|? ? ? ?|? ?]; try reflexivity.
  cbn in *. apply String.eqb_neq. intros ->.
  apply includes_member in Hb. congruence.
Qed.

Lemma index_from_first props x : forall before rest i,
  (forall b, b ∈ before -> b ∈ props) -> includes_cell props x = false ->
  is_reference x = false ->
  index_from i ((VStr <$> before) ++ x :: rest) x = i + Z.of_nat (length before).
Proof.
  induction before as [|b before IH]; intros rest i Hall Hx Hprim.
  - cbn. rewrite (strict_eq_primitive x Hprim). lia.
  - cbn [fmap list_fmap app index_from].
    rewrite (strict_eq_undeclared props b x) by (try apply Hall; try left; exact Hx).
    rewrite IH; [cbn [length]; lia | | exact Hx | exact Hprim].
    intros b' Hb'. apply Hall. right. exact Hb'.
Qed.

Lemma indexOf_element_first props x before rest :
  (forall b, b ∈ before -> b ∈ props) -> includes_cell props x = false ->
  indexOf_element ((VStr <$> before) ++ x :: rest) (length before) x
  = Z.of_nat (length before).
Proof.
  intros Hall Hx. unfold indexOf_element, indexOf.
  destruct (is_reference x) eqn:E; [reflexivity |].
  rewrite (index_from_first props) by assumption. lia.
Qed.

Lemma declared_cells_kept props (names : list string) (offset : nat) :
  (forall h, h ∈ names -> h ∈ props) ->
  List.filter (fun px : nat * value => negb (includes_cell props (snd px)))
              (imap (fun p x => (offset + p, x)%nat) (VStr <$> names)) = [].
Proof.
  intros Hall. apply filter_nil. intros [p x] Hin. cbn [snd].
  apply list_elem_of_In, elem_of_lookup_imap in Hin as (i & y & Heq & Hy).
  inversion Heq; subst. rewrite list_lookup_fmap in Hy.
  destruct (names !! i) as [h|] eqn:Hh; [| discriminate]. inversion Hy; subst.
  cbn [includes_cell]. apply negb_false_iff, includes_member, Hall.
  eapply list_elem_of_lookup_2, Hh.
Qed.

Lemma one_to_delete props before x after :
  (forall h, h ∈ before ++ after -> h ∈ props) -> includes_cell props x = false ->
  filter_indexed (fun n => negb (includes_cell props n))
                 ((VStr <$> before) ++ x :: (VStr <$> after))
  = [(length before, x)].
Proof.
  intros Hall Hx. unfold filter_indexed.
  rewrite imap_app, List.filter_app. cbn [imap List.filter snd]. rewrite Hx. cbn [negb].
  rewrite length_fmap.
  rewrite (imap_ext _ (fun p x => (0 + p, x)%nat) (VStr <$> before)) by reflexivity.
  rewrite (declared_cells_kept props before 0)
    by (intros h Hh; apply Hall, elem_of_app; left; exact Hh).
  rewrite (imap_ext _ (fun p x => (S (length before) + p, x)%nat) (VStr <$> after)).
  2:{ intros i y _. cbn. f_equal. lia. }
  rewrite (declared_cells_kept props after)
    by (intros h Hh; apply Hall, elem_of_app; right; exact Hh).
  cbn. do 2 f_equal. lia.
Qed.

Lemma includes_str_cell (header : list value) p :
  VStr p ∈ header -> includes_str header p = true.
Proof.
  intros Hin. unfold includes_str. apply existsb_exists. exists (VStr p).
  split; [apply list_elem_of_In, Hin | apply String.eqb_refl].
Qed.

Lemma deleteColumn_run name g position w :
  spreadsheet w !! name = Some g -> 1 <= position ->
  Sheet.deleteColumn name position w
  = (Ok tt, with_spreadsheet (<[name := delete (Z.to_nat (position - 1)) <$> g]> (spreadsheet w))
                             w).
Proof.
  intros Hg Hposition. unfold Sheet.deleteColumn, Sheet.cells, Sheet.put, mbind, M_bind.
  rewrite Hg. destruct (Z.leb_spec 1 position) as [_|]; [reflexivity | lia].
Qed.

(** [getTableInfo] on a sheet with one cell in the header row that names
    no column of the class. *)
Lemma getTableInfo_dropped (c : class) (props : list string)
    (before after : list string) (x : value) (rows : grid) (w : world) :
  declares c props ->
  let header := (VStr <$> before) ++ x :: (VStr <$> after) in
  spreadsheet w !! class_name c = Some (header :: rows) ->
  Sheet.lastColumn (header :: rows) = Z.of_nat (length header) ->
  includes_cell props x = false ->
  (forall h, h ∈ before ++ after -> h ∈ props) ->
  (forall p, p ∈ props -> p ∈ before ++ after) ->
  getTableInfo c w
  = (Ok (class_name c, header),
     with_spreadsheet
       (<[class_name c := delete (length before) <$> (header :: rows)]> (spreadsheet w))
       (later 2 w)).
Proof.
  intros Hd header Hg Hwide Hx Hall Hevery.
  assert (Hpos : (0 < length header)%nat).
  { unfold header. rewrite length_app. cbn [length]. lia. }
  unfold getTableInfo.
  rewrite (bind_run _ _ _ _ _ (new_instance_run c w)).
  erewrite bind_run by (rewrite of_outcome_run, (column_names_blank _ _ _ _ Hd); reflexivity).
  erewrite bind_run by (unfold Sheet.getSheetByName; simpl; rewrite Hg; reflexivity).
  cbn beta iota.
  erewrite bind_run by (apply getLastColumn_run; exact Hg).
  erewrite bind_run.
  2:{ unfold Sheet.getRowValues, Sheet.cells, mbind, M_bind. cbn [spreadsheet later].
      rewrite Hg. unfold Sheet.valid_range. rewrite Hwide.
      destruct (Z.leb_spec 1 (Z.of_nat (length header))) as [_|]; [| lia].
      cbn [andb Z.leb Z.compare]. unfold Sheet.rowValues. rewrite Nat2Z.id.
      change (Z.to_nat (1 - 1)) with 0%nat. cbn [lookup list_lookup default from_option id].
      rewrite pad_exact. reflexivity. }
  rewrite (filter_nil _ props).
  2:{ intros p Hp. apply negb_false_iff, includes_str_cell.
      apply list_elem_of_In, Hevery, elem_of_app in Hp. unfold header.
      destruct Hp as [Hp|Hp]; apply elem_of_app; [left | right; right];
        apply list_elem_of_fmap; exists p; split; auto. }
  pose proof (one_to_delete props before x after Hall Hx) as Hone. fold header in Hone.
  rewrite Hone.
  cbn [length Nat.ltb Nat.leb forEach fst snd].
  erewrite bind_run by reflexivity.
  erewrite bind_run.
  2:{ erewrite bind_run; [reflexivity |].
      assert (Hfirst : indexOf_element header (length before) x = Z.of_nat (length before)).
      { apply (indexOf_element_first props); [| exact Hx].
        intros b Hb. apply Hall, elem_of_app. left. exact Hb. }
      rewrite Hfirst. apply deleteColumn_run; [exact Hg | lia]. }
  unfold Sheet.flush, mbind, M_bind, mret, M_ret. cbn [fst snd].
  replace (Z.to_nat (Z.of_nat (length before) + 1 - 1)) with (length before) by lia.
  reflexivity.
Qed.


(** ** [persist] and then [remove] *)

Section Undo.
Context `{Engine}.

(** X22.  [remove] undoes a create: for a class whose sheet is absent or in
    step with it, [remove] called on an instance that [persist] has just
    created deletes the row [persist] appended, so that the spreadsheet is
    again as schema synchronisation left it, and sets [row_number] to 0.
    The instance keeps the identifier [persist] gave it. *)
Theorem remove_undoes_a_create (c : class) (props : list string) (o : object)
    (w : world) (f' : frame) :
  ready c props (spreadsheet w) -> instance_ok props o ->
  value_of o "id" = VStr "" ->
  persist c (Frame o w) = (Ok tt, f') ->
  exists w'',
    remove c f' = (Ok tt, Frame (set (this f') "row_number" (VNum 0)) w'')
    /\ spreadsheet w'' = synchronized c props (spreadsheet w)
    /\ value_of (set (this f') "row_number" (VNum 0)) "id" = value_of (this f') "id".
Proof.
  intros Hready Ho Hid Hrun. pose proof Hready as (Hdecl & Hne & Hcase).
  pose proof (in_step_synchronized c props _ Hne Hcase) as Hstep.
  destruct (sheet_after_sync c props w Hready) as (g & Hg).
  destruct (persist_create_row c props o w g f' Hready Ho Hid Hg Hrun)
    as (new_id & row & Hthis & Hss & Hlen & _).
  assert (Hnumber : get (this f') "row_number" = VNum (Z.of_nat (length g) + 1))
    by (rewrite Hthis; apply get_set_eq).
  destruct f' as [o' w']. cbn [this env] in *.
  assert (Hsheet : spreadsheet w' !! class_name c = Some (g ++ [row])).
  { rewrite Hss. apply lookup_insert_eq. }
  assert (Hready' : ready c props (spreadsheet w')).
  { split; [exact Hdecl |]. split; [exact Hne |]. right.
    rewrite Hss. apply in_step_append; [exact Hne | exact Hstep | exact Hg | lia]. }
  pose proof (remove_row c props o' w' (g ++ [row]) (Z.of_nat (length g) + 1) Hready' Hnumber)
    as Hremove.
  rewrite (synchronized_present c props _ _ Hsheet) in Hremove.
  eexists. split; [apply Hremove; [lia | exact Hsheet] |]. split.
  - cbn [spreadsheet with_spreadsheet]. rewrite Hss.
    replace (Z.to_nat (Z.of_nat (length g) + 1 - 1)) with (length g) by lia.
    rewrite delete_middle, app_nil_r, insert_insert_eq. apply insert_id. exact Hg.
  - apply value_of_get, get_set_ne. discriminate.
Qed.
End Undo.

(** ** Queries on a class without a sheet *)

Section Absent.
Context `{Engine}.

End Absent.

(** ** [persist] after the class has dropped a column *)

Lemma lastColumn_le (g : grid) (n : nat) :
  (forall r, r ∈ g -> (length r <= n)%nat) -> Sheet.lastColumn g <= Z.of_nat n.
Proof.
  intros Hall. unfold Sheet.lastColumn. apply inj_le.
  induction g as [|r g IH]; cbn [fmap list_fmap max_list]; [lia |].
  apply Nat.max_lub; [apply Hall; left |].
  apply IH. intros r' Hr'. apply Hall. right. exact Hr'.
Qed.

Lemma length_delete_le (r : list value) : forall i n,
  (length r <= S n)%nat -> (i <= n)%nat -> (length (delete i r) <= n)%nat.
Proof.
  induction r as [|x r IH]; intros i n Hr Hi; [destruct i; simpl; lia |].
  destruct i as [|i]; simpl in *; [lia |].
  destruct n as [|n]; [lia |]. specialize (IH i n). lia.
Qed.

(** The sheet is as wide as its header row once the column is gone. *)
Lemma lastColumn_dropped (before after : list string) (x : value) (rows : grid) :
  Sheet.lastColumn (((VStr <$> before) ++ x :: (VStr <$> after)) :: rows)
  = Z.of_nat (length ((VStr <$> before) ++ x :: (VStr <$> after))) ->
  Sheet.lastColumn ((VStr <$> (before ++ after)) :: (delete (length before) <$> rows))
  = Z.of_nat (length (before ++ after)).
Proof.
  intros Hwide. rewrite lastColumn_cons, length_fmap.
  rewrite length_app in *. cbn [length] in Hwide. rewrite !length_fmap in Hwide.
  assert (Hrows : Sheet.lastColumn (delete (length before) <$> rows)
                  <= Z.of_nat (length before + length after)).
  { apply lastColumn_le. intros r Hr. apply list_elem_of_fmap in Hr as (r0 & -> & Hr0).
    apply list_elem_of_lookup_1 in Hr0 as [i Hi].
    pose proof (row_within_lastColumn
                  (((VStr <$> before) ++ x :: (VStr <$> after)) :: rows) (S i) r0 Hi) as Hle.
    rewrite Hwide in Hle.
    apply length_delete_le; lia. }
  lia.
Qed.

Section Dropped.
Context `{Engine}.

Lemma stamped_without o now user s :
  has_members (get o s) = false -> instance_ok [] o ->
  get (stamped o now user) s = get o s.
Proof.
  intros Hs Ho. apply stamped_get; intros ->.
  - destruct (Ho "modified") as (? & ? & ? & ? & Hget); [simpl; tauto |].
    rewrite Hget in Hs. discriminate.
  - destruct (Ho "last_modified_by") as (? & ? & ? & ? & Hget); [simpl; tauto |].
    rewrite Hget in Hs. discriminate.
Qed.

Lemma identified_without o new_id s :
  has_members (get o s) = false -> instance_ok [] o ->
  get (identified o new_id) s = get o s.
Proof.
  intros Hs Ho. apply identified_get; intros ->.
  - destruct (Ho "id") as (? & ? & ? & ? & Hget); [simpl; tauto |].
    rewrite Hget in Hs. discriminate.
  - destruct (Ho "created") as (? & ? & ? & ? & Hget); [simpl; tauto |].
    rewrite Hget in Hs. discriminate.
  - destruct (Ho "created_by") as (? & ? & ? & ? & Hget); [simpl; tauto |].
    rewrite Hget in Hs. discriminate.
Qed.

(** The header row [persist] validates against still holds the dropped
    cell. *)
Lemma checkRequired_dropped before s after updateArray o w :
  has_members (get o s) = false ->
  checkRequired ((VStr <$> before) ++ VStr s :: (VStr <$> after)) updateArray (Frame o w)
  = (Throw TypeError, Frame o w).
Proof.
  intros Hs. unfold checkRequired. apply checkRequired_stops.
  exists (Z.of_nat (length before), VStr s). split; [| exact Hs].
  apply elem_of_lookup_imap. exists (length before), (VStr s). split; [reflexivity |].
  rewrite <- (length_fmap VStr before). apply list_lookup_middle. reflexivity.
Qed.

(** The row [getUpdateArray] prepares once the column is gone. *)
Lemma getUpdateArray_dropped c props before after rows o w1 :
  declares c props -> before ++ after <> [] ->
  spreadsheet w1 !! class_name c
  = Some ((VStr <$> (before ++ after)) :: (delete (length before) <$> rows)) ->
  Sheet.lastColumn ((VStr <$> (before ++ after)) :: (delete (length before) <$> rows))
  = Z.of_nat (length (before ++ after)) ->
  (forall h, h ∈ before ++ after -> h ∈ props) ->
  (forall p, p ∈ props -> p ∈ before ++ after) ->
  instance_ok props o ->
  getUpdateArray c (Frame o w1)
  = (Ok (value_of o <$> (before ++ after)), Frame o (later 2 w1)).
Proof.
  intros Hd Hne Hg Hwide Hall Hevery Ho.
  pose proof (getTableInfo_gained c props (before ++ after) _ w1 Hd Hne Hg Hwide Hall) as Hinfo.
  cbv zeta in Hinfo. rewrite (filter_nil _ props) in Hinfo.
  2:{ intros p Hp. apply negb_false_iff, includes_member, Hevery, list_elem_of_In, Hp. }
  rewrite app_nil_r, insert_id in Hinfo by exact Hg.
  assert (Hw : with_spreadsheet (spreadsheet w1) (later 2 w1) = later 2 w1)
    by (destruct w1; reflexivity).
  rewrite Hw in Hinfo.
  unfold getUpdateArray.
  rewrite (bind_run _ _ _ _ _ (lift_run _ _ o _ _ Hinfo)). cbn [snd].
  apply (getUpdateArray_loop o (later 2 w1) (before ++ after) []).
  intros k Hk. apply Ho, in_or_app. right. apply list_elem_of_In, Hall, list_elem_of_In, Hk.
Qed.

End Dropped.

(** *** The further theorems at an input *)

Lemma Item_not_null : forall kv, kv ∈ class_declared Example.Item -> snd kv <> VNull.
Proof.
  intros kv Hkv. apply list_elem_of_In in Hkv. simpl in Hkv.
  destruct Hkv as [<-|[<-|[]]]; discriminate.
Qed.

Lemma Item_instance_ok_widget : instance_ok Example.Item_columns (this Example.widget).
Proof. eapply Item_instance_ok. reflexivity. Qed.

Lemma Item_ready_persisted :
  ready Example.Item Example.Item_columns (spreadsheet (env Example.persisted)).
Proof.
  split; [exact Item_declares |]. split; [discriminate |]. right.
  eexists. split; vm_compute; reflexivity.
Qed.

Lemma Item_instance_ok_persisted :
  instance_ok Example.Item_columns (this Example.persisted).
Proof.
  intros k Hk. simpl in Hk.
  repeat (destruct Hk as [<-|Hk]; [vm_compute; repeat eexists |]). destruct Hk.
Qed.

Lemma row_number_no_column : "row_number" ∉ Example.Item_columns.
Proof.
  intros Hin. apply list_elem_of_In in Hin. simpl in Hin. intuition discriminate.
Qed.

Lemma setValue_then_getValue_witness :
  exists o',
    (setValue "name" (VStr "gadget");; getValue "name") Example.widget
    = (Ok (VStr "gadget"), Frame o' (env Example.widget))
    /\ keys o' = keys (this Example.widget)
    /\ is_column (get o' "name")
    /\ required_of o' "name" = required_of (this Example.widget) "name"
    /\ forall k, k <> "name" -> get o' k = get (this Example.widget) k.
Proof.
  apply (setValue_then_getValue "name" (VStr "gadget") (this Example.widget)
           (env Example.widget)).
  vm_compute. repeat eexists.
Defined.



Lemma persist_create_appends_one_row_witness :
  let f' := snd (@persist Example.engine Example.Item Example.widget) in
  let g := [VStr <$> Example.Item_columns] in
  exists row,
    spreadsheet (env f')
    = <[class_name Example.Item := g ++ [row]]>
        (synchronized Example.Item Example.Item_columns (spreadsheet (env Example.widget)))
    /\ length row = length Example.Item_columns
    /\ (forall j h, Example.Item_columns !! j = Some h -> h <> "row_number" ->
                    row !! j = Some (value_of (this f') h))
    /\ get (this f') "row_number" = VNum (Z.of_nat (length g) + 1)
    /\ value_of (this f') "created"
       = VDate (clock (env Example.widget) (2 + ticks (env Example.widget)))
    /\ value_of (this f') "modified"
       = VDate (clock (env Example.widget) (2 + ticks (env Example.widget)))
    /\ value_of (this f') "created_by" = value_of (this f') "last_modified_by".
Proof.
  apply (@persist_create_appends_one_row Example.engine Example.Item Example.Item_columns
           (this Example.widget) (env Example.widget)).
  - apply Item_ready_without_sheet. reflexivity.
  - exact Item_instance_ok_widget.
  - reflexivity.
  - reflexivity.
  - vm_compute. reflexivity.
Defined.

Lemma persist_update_overwrites_its_row_witness :
  let f := Example.persisted in
  let f' := snd (@persist Example.engine Example.Item f) in
  let g := Example.Item_rows in
  let row := value_of (this f') <$> Example.Item_columns in
  spreadsheet (env f')
  = <[class_name Example.Item := <[Z.to_nat (2 - 1) := row]> g]>
      (synchronized Example.Item Example.Item_columns (spreadsheet (env f)))
  /\ (forall i, i <> Z.to_nat (2 - 1) -> (<[Z.to_nat (2 - 1) := row]> g) !! i = g !! i)
  /\ length (<[Z.to_nat (2 - 1) := row]> g) = length g
  /\ value_of (this f') "id" = value_of (this f) "id"
  /\ get (this f') "row_number" = VNum 2
  /\ value_of (this f') "created" = value_of (this f) "created"
  /\ value_of (this f') "modified" = VDate (clock (env f) (2 + ticks (env f))).
Proof.
  apply (@persist_update_overwrites_its_row Example.engine Example.Item Example.Item_columns
           (this Example.persisted) (env Example.persisted) Example.Item_rows 2).
  - exact Item_ready_persisted.
  - exact Item_instance_ok_persisted.
  - vm_compute. reflexivity.
  - vm_compute. reflexivity.
  - vm_compute. split; discriminate.
  - vm_compute. reflexivity.
  - vm_compute. reflexivity.
Defined.

Lemma persist_then_findAll_reads_the_instance_back_witness :
  let f' := snd (@persist Example.engine Example.Item Example.widget) in
  exists entities entity w',
    @findAll Example.engine Example.Item (env f') = (Ok entities, w')
    /\ spreadsheet w' = spreadsheet (env f')
    /\ last entities = Some entity
    /\ get entity "row_number" = get (this f') "row_number"
    /\ forall h, h ∈ Example.Item_columns -> value_of entity h = value_of (this f') h.
Proof.
  apply (@persist_then_findAll_reads_the_instance_back Example.engine Example.Item
           Example.Item_columns (this Example.widget) (env Example.widget)).
  - apply Item_ready_without_sheet. reflexivity.
  - exact Item_instance_ok_widget.
  - exact Item_not_null.
  - exact row_number_no_column.
  - reflexivity.
  - vm_compute. reflexivity.
Defined.






Lemma passed_over_widget :
  forall k, k ∈ keys (this Example.widget) -> passed_over (get (this Example.widget) k).
Proof.
  intros k Hk. apply list_elem_of_In in Hk. vm_compute in Hk.
  repeat (destruct Hk as [<-|Hk]; [split; [vm_compute; discriminate | reflexivity] |]).
  destruct Hk.
Qed.






Lemma remove_undoes_a_create_witness :
  let f' := snd (@persist Example.engine Example.Item Example.widget) in
  exists w'',
    @remove Example.engine Example.Item f'
    = (Ok tt, Frame (set (this f') "row_number" (VNum 0)) w'')
    /\ spreadsheet w''
       = synchronized Example.Item Example.Item_columns (spreadsheet (env Example.widget))
    /\ value_of (set (this f') "row_number" (VNum 0)) "id" = value_of (this f') "id".
Proof.
  apply (@remove_undoes_a_create Example.engine Example.Item Example.Item_columns
           (this Example.widget) (env Example.widget)).
  - apply Item_ready_without_sheet. reflexivity.
  - exact Item_instance_ok_widget.
  - reflexivity.
  - vm_compute. reflexivity.
Defined.


